(** * fairMLHealth [reports.py]: stratified reports and the out-of-range flagger

    A shallow embedding of [src/fairmlhealth/reports.py].  The module is
    pandas code, so the development starts with the fragment of pandas the
    module relies on (frames with a row index, column access, [groupby],
    [concat], [reset_index], [insert]), written as executable functions on
    lists, and then follows the source function by function:

    - [__apply_featureGroups] and [__apply_biasGroups] (the appliers),
    - [sort_report],
    - the [__Flagger] class with [flag],
    - [bias_report] with the two [__*_bias_report] functions,
    - [performance_report] with the two [__*_performance_report] functions.

    Exceptions are values of an error monad; the two dictionaries [errs] and
    [warns] of the appliers are finite maps keyed by feature name; the
    caller's table handed to the flagger lives in a store, because the
    flagger keeps a reference to it. *)

From Stdlib Require Import ZArith String Ascii List Bool Lia.
From Stdlib Require Import Floats.SpecFloat.
From stdpp Require Import gmap strings list sorting pretty.

Open Scope string_scope.
Open Scope list_scope.

(** ** Exceptions and results *)

(** A Python exception: its class name and its message. *)
Record exn := Exn { exn_type : string; exn_msg : string }.

Definition KeyError (k : string) : exn := Exn "KeyError" k.
Definition ValueError (m : string) : exn := Exn "ValueError" m.
Definition TypeError (m : string) : exn := Exn "TypeError" m.
Definition AttributeError (m : string) : exn := Exn "AttributeError" m.

(** The outcome of a computation that may raise. *)
Inductive result (A : Type) : Type :=
  | Ok (a : A)
  | Raise (e : exn).
Arguments Ok {A} a.
Arguments Raise {A} e.

#[global] Instance result_ret : MRet result := λ A, Ok.
#[global] Instance result_bind : MBind result := λ A B f m,
  match m with Ok a => f a | Raise e => Raise e end.
#[global] Instance result_fmap : FMap result := λ A B f m,
  match m with Ok a => Ok (f a) | Raise e => Raise e end.

Definition is_ok {A} (m : result A) : bool :=
  match m with Ok _ => true | Raise _ => false end.

(** A warning recorded by [catch_warnings(record=True)]. *)
Definition warning := string.

(** A call made inside a [catch_warnings] block: the warnings it emitted and
    what it returned or raised. *)
Definition outcome (A : Type) : Type := (list warning * result A)%type.

(** ** Cells and labels *)

(** Numbers are binary64 values, [SpecFloat.spec_float]; Python integers that
    sit in a table ([0], [1], counts) are the binary64 values of the same
    magnitude. *)
Inductive cell :=
  | CNum (x : spec_float)
  | CStr (s : string).

Definition is_nan (x : spec_float) : bool :=
  match x with S754_nan => true | _ => false end.

Definition nan : cell := CNum S754_nan.
Definition Z2SF (z : Z) : spec_float := binary_normalize 53 1024 z 0 false.
Definition num (z : Z) : cell := CNum (Z2SF z).

(** [isna] / [notnull] of pandas on one cell. *)
Definition isna (c : cell) : bool :=
  match c with CNum x => is_nan x | CStr _ => false end.
Definition notnull (c : cell) : bool := negb (isna c).

(** Python's [==] on two cells. *)
Definition cell_eqb (a b : cell) : bool :=
  match a, b with
  | CNum x, CNum y => SFeqb x y
  | CStr s, CStr t => String.eqb s t
  | _, _ => false
  end.

(** The order in which pandas sorts group keys: numbers first, in numeric
    order, then strings, lexicographically. *)
Definition cell_leb (a b : cell) : bool :=
  match a, b with
  | CNum x, CNum y => SFleb x y
  | CNum _, CStr _ => true
  | CStr _, CNum _ => false
  | CStr s, CStr t => String.leb s t
  end.
Definition cell_le (a b : cell) : Prop := cell_leb a b = true.
#[global] Instance cell_le_dec : RelDecision cell_le.
Proof. intros a b. unfold cell_le. apply _. Defined.

(** A level of a row index holds integers (a [RangeIndex] or [Int64Index]),
    other numbers, or strings. *)
Inductive label :=
  | LInt (z : Z)
  | LNum (x : spec_float)
  | LStr (s : string).

Definition label_eqb (a b : label) : bool :=
  match a, b with
  | LInt x, LInt y => Z.eqb x y
  | LNum x, LNum y => SFeqb x y
  | LInt x, LNum y | LNum y, LInt x => SFeqb (Z2SF x) y
  | LStr s, LStr t => String.eqb s t
  | _, _ => false
  end.

Definition label_of_cell (c : cell) : label :=
  match c with CNum x => LNum x | CStr s => LStr s end.
Definition cell_of_label (l : label) : cell :=
  match l with LInt z => num z | LNum x => CNum x | LStr s => CStr s end.

Fixpoint key_eqb (k1 k2 : list label) : bool :=
  match k1, k2 with
  | [], [] => true
  | a :: k1, b :: k2 => label_eqb a b && key_eqb k1 k2
  | _, _ => false
  end.

(** ** Frames *)

(** A [pandas.DataFrame]: one index key per row (a tuple with one label per
    index level), the names of the index levels, the column labels, and the
    rows, each aligned with [columns]. *)
Record DataFrame := mkDF {
  index : list (list label);
  index_names : list (option string);
  columns : list string;
  values : list (list cell)
}.

Definition RangeIndex (n : nat) : list (list label) :=
  map (λ i, [LInt (Z.of_nat i)]) (seq 0 n).

(** [pd.DataFrame(columns=cols)]. *)
Definition empty_frame (cols : list string) : DataFrame :=
  mkDF [] [None] cols [].

(** [len(df)]: the length of the index. *)
Definition len (df : DataFrame) : nat := length (index df).

Fixpoint col_pos (c : string) (cols : list string) : option nat :=
  match cols with
  | [] => None
  | c' :: cols => if String.eqb c c' then Some 0%nat else S <$> col_pos c cols
  end.

Definition has_col (df : DataFrame) (c : string) : bool :=
  bool_decide (c ∈ columns df).

(** The cell of a row under column [c]; a cell that is not there reads as
    NaN, as after a reindexing. *)
Definition row_get (cols : list string) (r : list cell) (c : string) : cell :=
  match col_pos c cols with
  | Some j => default nan (r !! j)
  | None => nan
  end.

(** [df[c]]: the values of a column, [KeyError] when there is none. *)
Definition getcol (df : DataFrame) (c : string) : result (list cell) :=
  if has_col df c then Ok (map (λ r, row_get (columns df) r c) (values df))
  else Raise (KeyError c).

(** [df[c] = vals]: overwrite the column, or append it as the last one. *)
Definition setcol (df : DataFrame) (c : string) (vals : list cell) : DataFrame :=
  match col_pos c (columns df) with
  | Some j =>
      mkDF (index df) (index_names df) (columns df)
           (zip_with (λ r v, <[j := v]> r) (values df) vals)
  | None =>
      mkDF (index df) (index_names df) (columns df ++ [c])
           (zip_with (λ r v, r ++ [v]) (values df) vals)
  end.

Fixpoint select {A} (mask : list bool) (l : list A) : list A :=
  match mask, l with
  | b :: mask, x :: l => if b then x :: select mask l else select mask l
  | _, _ => []
  end.

(** [df.loc[mask]] for a boolean mask over the rows. *)
Definition loc_rows (df : DataFrame) (mask : list bool) : DataFrame :=
  mkDF (select mask (index df)) (index_names df) (columns df)
       (select mask (values df)).

(** Distinct values in order of first appearance ([Series.unique]). *)
Fixpoint unique_by {A} (eqb : A → A → bool) (l : list A) : list A :=
  match l with
  | [] => []
  | x :: l => x :: List.filter (λ y, negb (eqb x y)) (unique_by eqb l)
  end.

(** [df.groupby(f)]: one group per distinct non-missing value of column [f],
    in sorted key order; [KeyError] when the column does not exist. *)
Definition groupby (df : DataFrame) (f : string) : result (list (cell * DataFrame)) :=
  col ← getcol df f;
  let keys := merge_sort cell_le (unique_by cell_eqb (List.filter notnull col)) in
  Ok (map (λ k, (k, loc_rows df (map (cell_eqb k) col))) keys).

(** [df.reset_index()]: every index level becomes a leading column, named
    after the level, or [index] / [level_i] for a level without a name; the
    frame gets a fresh [RangeIndex].  pandas refuses to insert a column whose
    name is taken. *)
Definition level_name (nlevels : nat) (cols : list string) (i : nat)
    (nm : option string) : string :=
  match nm with
  | Some s => s
  | None =>
      if (nlevels =? 1)%nat && negb (bool_decide ("index" ∈ cols)) then "index"
      else ("level_" ++ pretty i)%string
  end.

Definition reset_index (df : DataFrame) : result DataFrame :=
  let new := imap (level_name (length (index_names df)) (columns df)) (index_names df) in
  if bool_decide (Forall (λ c, c ∉ columns df) new) then
    Ok (mkDF (RangeIndex (len df)) [None] (new ++ columns df)
             (zip_with (λ k r, map cell_of_label k ++ r) (index df) (values df)))
  else Raise (ValueError "cannot insert, already exists").

(** [df.rename(columns={old: new})]. *)
Definition rename (df : DataFrame) (old new : string) : DataFrame :=
  mkDF (index df) (index_names df)
       (map (λ c, if String.eqb c old then new else c) (columns df)) (values df).

(** [df.insert(loc, c, v)] with a scalar [v]; [ValueError] when [c] is
    already a column. *)
Definition insert_col (df : DataFrame) (loc : nat) (c : string) (v : cell)
    : result DataFrame :=
  if has_col df c then Raise (ValueError "cannot insert, already exists")
  else Ok (mkDF (index df) (index_names df)
                (take loc (columns df) ++ c :: drop loc (columns df))
                (map (λ r, take loc r ++ v :: drop loc r) (values df))).

(** The columns of a concatenation: the union of the frames' columns in
    order of first appearance. *)
Fixpoint union_cols (acc : list string) (l : list string) : list string :=
  match l with
  | [] => acc
  | c :: l => if bool_decide (c ∈ acc) then union_cols acc l
              else union_cols (acc ++ [c]) l
  end.

(** [pd.concat(frames, ignore_index=True)]. *)
Definition concat (frames : list DataFrame) : DataFrame :=
  let cols := fold_left (λ acc d, union_cols acc (columns d)) frames [] in
  let rows :=
    flat_map (λ d, map (λ r, map (row_get (columns d) r) cols) (values d)) frames in
  mkDF (RangeIndex (length rows)) [None] cols rows.

(** A metric result record: the dictionary a metric function returns, in
    insertion order. *)
Definition record := list (string * cell).

(** [pd.DataFrame(d, index=[0])] for a dictionary of scalars. *)
Definition frame_of_record (d : record) : DataFrame :=
  mkDF [[LInt 0]] [None] (map fst d) [map snd d].

(** A [pandas.Series]: its name (a column label, or the index key of a row),
    its index and its values. *)
Record Series := mkSeries {
  sname : list label;
  sindex : list (list label);
  svalues : list cell
}.

(** ** The appliers *)

(** The three locals of an applier: the error ledger [errs], the warning
    ledger [warns] (both keyed by feature name) and the list [res] of the
    per-feature tables collected so far. *)
Record sweep := mkSweep {
  errs : gmap string exn;
  warns : gmap string (list warning);
  res : list DataFrame
}.

Definition sweep0 : sweep := mkSweep ∅ ∅ [].

(** A [for] loop whose body may raise. *)
Fixpoint foldM {A B} (body : A → B → result A) (a : A) (l : list B) : result A :=
  match l with
  | [] => Ok a
  | b :: l => a' ← body a b; foldM body a' l
  end.

(** The last two statements of both appliers. *)
Definition collect (res : list DataFrame) : DataFrame :=
  if (length res =? 0)%nat then empty_frame ["Feature Name"; "Feature Value"]
  else concat res.

Section featureGroups.
(** The extra positional arguments [*args] handed on to [func]. *)
Context {Args : Type}.
Variable func : DataFrame → Args → outcome record.
Variable args : Args.

(** [grp.apply(lambda x: pd.Series(func(x, *args)))]: the groups are
    visited in key order and the first exception ends the visit; the
    warnings emitted up to there stay recorded. *)
Fixpoint grp_apply (grp : list (cell * DataFrame)) : outcome (list (cell * record)) :=
  match grp with
  | [] => ([], Ok [])
  | (k, x) :: grp =>
      match func x args with
      | (w, Raise e) => (w, Raise e)
      | (w, Ok d) =>
          let '(w', rs) := grp_apply grp in
          (w ++ w', cons (k, d) <$> rs)
      end
  end.

(** The frame [grp.apply] builds: one row per group, indexed by the group
    key (the index is named [f]), one column per record key. *)
Definition frame_of_groups (f : string) (rs : list (cell * record)) : DataFrame :=
  let cols := fold_left (λ acc kr, union_cols acc (map fst kr.2)) rs [] in
  mkDF (map (λ kr, [label_of_cell kr.1]) rs) [Some f] cols
       (map (λ kr, map (row_get (map fst kr.2) (map snd kr.2)) cols) rs).

(** The body of the [try]: [df.groupby(f)] and [grp.apply]. *)
Definition try_feature (df : DataFrame) (f : string) : outcome DataFrame :=
  match groupby df f with
  | Raise e => ([], Raise e)
  | Ok grp => let '(w, rs) := grp_apply grp in (w, frame_of_groups f <$> rs)
  end.

(** One iteration of [for f in features]. *)
Definition featureGroups_body (df : DataFrame) (st : sweep) (f : string)
    : result sweep :=
  match try_feature df f with
  | (_, Raise e) =>
      (* errs[f] = e; continue *)
      Ok (mkSweep (<[f := e]> (errs st)) (warns st) (res st))
  | (w, Ok grp_res) =>
      let warns' := if (0 <? length w)%nat then <[f := w]> (warns st)
                    else warns st in
      grp_res ← reset_index grp_res;
      let grp_res := rename grp_res f "Feature Value" in
      grp_res ← insert_col grp_res 0 "Feature Name" (CStr f);
      Ok (mkSweep (errs st) warns' (res st ++ [grp_res]))
  end.

(** [__apply_featureGroups], before the [format_errwarn] decorator: it
    returns [results, errs, warns]. *)
Definition __apply_featureGroups (features : list string) (df : DataFrame)
    : result (DataFrame * gmap string exn * gmap string (list warning)) :=
  st ← foldM (featureGroups_body df) sweep0 features;
  Ok (collect (res st), errs st, warns st).
End featureGroups.

Section biasGroups.
(** [str] of a number that is not NaN: CPython's formatting, which stays
    outside this development. *)
Variable num_repr : spec_float → string.

(** [Series.astype(str)] on one cell; a missing number becomes ["nan"]. *)
Definition astype_str (c : cell) : string :=
  match c with
  | CStr s => s
  | CNum x => if is_nan x then "nan" else num_repr x
  end.

(** The two-group metric function: [func(y_true, y_pred, pa_name, priv_grp)]. *)
Variable func : Series → Series → string → Z → outcome record.
Variables yt yh : string.

Definition pa_name : string := "prtc_attr".

(** [df.loc[mask, c] = v]. *)
Definition setcol_where (df : DataFrame) (mask : list bool) (c : string)
    (v : cell) : result DataFrame :=
  col ← getcol df c;
  Ok (setcol df c (zip_with (λ (b : bool) old, if b then v else old) mask col)).

(** [Series.nunique()]: the number of distinct values, NaN apart. *)
Definition nunique (col : list cell) : nat :=
  length (unique_by cell_eqb (List.filter notnull col)).

(** The state of the sweep: the table [df], which the applier updates in
    place, and the three locals. *)
Definition bias_state : Type := (DataFrame * sweep)%type.

(** One iteration of [for v in vals]. *)
Definition biasGroups_value (f : string) (st : bias_state) (v : string)
    : result bias_state :=
  let '(df, sw) := st in
  (* df[pa_name] = 0 *)
  let df := setcol df pa_name (map (λ _, num 0) (values df)) in
  (* df.loc[df[f].eq(v), pa_name] = 1 *)
  colf ← getcol df f;
  df ← setcol_where df (map (λ c, cell_eqb c (CStr v)) colf) pa_name (num 1);
  (* if v != "nan": df.loc[df[f].eq("nan"), pa_name] = np.nan *)
  df ← (if negb (String.eqb v "nan") then
          colf ← getcol df f;
          setcol_where df (map (λ c, cell_eqb c (CStr "nan")) colf) pa_name nan
        else Ok df);
  pa ← getcol df pa_name;
  if (nunique pa =? 1)%nat then Ok (df, sw)   (* continue *)
  else
    (* subset = df.loc[df[pa_name].notnull(), [pa_name, yt, yh]]
                  .set_index(pa_name) *)
    let mask := map notnull pa in
    coly ← getcol df yt;
    colh ← getcol df yh;
    let ix := map (λ c, [label_of_cell c]) (select mask pa) in
    let subset_yt := mkSeries [LStr yt] ix (select mask coly) in
    let subset_yh := mkSeries [LStr yh] ix (select mask colh) in
    match func subset_yt subset_yh pa_name 1 with
    | (_, Raise e) =>
        (* errs[f] = e; continue *)
        Ok (df, mkSweep (<[f := e]> (errs sw)) (warns sw) (res sw))
    | (w, Ok grp_res) =>
        let warns' := if (0 <? length w)%nat then <[f := w]> (warns sw)
                      else warns sw in
        let grp_res := frame_of_record grp_res in
        grp_res ← insert_col grp_res 0 "Feature Name" (CStr f);
        grp_res ← insert_col grp_res 1 "Feature Value" (CStr v);
        Ok (df, mkSweep (errs sw) warns' (res sw ++ [grp_res]))
    end.

(** One iteration of [for f in features]. *)
Definition biasGroups_body (st : bias_state) (f : string) : result bias_state :=
  let '(df, sw) := st in
  (* df[f] = df[f].astype(str) *)
  colf ← getcol df f;
  let df := setcol df f (map (λ c, CStr (astype_str c)) colf) in
  (* vals = sorted(df[f].unique().tolist()) *)
  colf ← getcol df f;
  let vals := merge_sort String.le (unique_by String.eqb (map astype_str colf)) in
  foldM (biasGroups_value f) (df, sw) vals.

(** [__apply_biasGroups], before the [format_errwarn] decorator.  The sweep
    updates the caller's table in place, so next to the returned
    [results, errs, warns] the model gives the table as the sweep leaves
    it. *)
Definition __apply_biasGroups (features : list string) (df : DataFrame)
    : result (DataFrame * (DataFrame * gmap string exn * gmap string (list warning))) :=
  st ← foldM biasGroups_body (df, sweep0) features;
  Ok (st.1, (collect (res st.2), errs st.2, warns st.2)).
End biasGroups.

(** Modelled from the spec: the decorator [format_errwarn] of [utils], the
    Error/Warning Reporter, is not part of [reports.py].  It consumes the two
    ledgers once the sweep is over, writes one consolidated message, never
    raises, and hands the applier's table to the caller unchanged. *)
Definition format_errwarn
    (r : result (DataFrame * gmap string exn * gmap string (list warning)))
    : result DataFrame :=
  (λ out, out.1.1) <$> r.


(** ** [sort_report] *)

(** [report[cols]]: the columns carrying the labels [cols], in that order.
    A label that several columns carry selects each of them; a label that no
    column carries is a [KeyError]. *)
Fixpoint positions (c : string) (cols : list string) : list nat :=
  match cols with
  | [] => []
  | c' :: cols => (if String.eqb c' c then [0%nat] else []) ++ map S (positions c cols)
  end.

Definition getitem_cols (report : DataFrame) (cols : list string) : result DataFrame :=
  match List.filter (λ c, negb (has_col report c)) cols with
  | c :: _ => Raise (KeyError c)
  | [] =>
      let js := flat_map (λ c, positions c (columns report)) cols in
      Ok (mkDF (index report) (index_names report)
               (map (λ j, default "" (columns report !! j)) js)
               (map (λ r, map (λ j, default nan (r !! j)) js) (values report)))
  end.

Section sort_report.
(** The display names of the true and the predicted target,
    [y_cols()['disp_names']['yt']] and [['yh']]; [y_cols] belongs to
    [__preprocessing], so the two names are parameters here. *)
Variables yname yhname : string.

Definition head_names : list string :=
  ["Feature Name"; "Feature Value"; "Obs."; (yname ++ " Mean")%string; (yhname ++ " Mean")%string].

Definition head_cols (report : DataFrame) : list string :=
  List.filter (λ c, has_col report c) head_names.

Definition tail_cols (report : DataFrame) : list string :=
  merge_sort String.le
    (List.filter (λ c, negb (bool_decide (c ∈ head_cols report))) (columns report)).

Definition sort_report (report : DataFrame) : result DataFrame :=
  getitem_cols report (head_cols report ++ tail_cols report).
End sort_report.

(** ** The flagger *)

(** Python values that reach [sig_fig], [caption] and the keyword arguments
    of the reports. *)
Inductive pyval :=
  | PNone
  | PBool (b : bool)
  | PInt (z : Z)
  | PFloat (x : spec_float)
  | PStr (s : string)
  | PColumn (name : string) (col : list cell).

(** [isinstance(v, int)]: [bool] is a subclass of [int]. *)
Definition isinstance_int (v : pyval) : bool :=
  match v with PBool _ | PInt _ => true | _ => false end.
Definition isinstance_bool (v : pyval) : bool :=
  match v with PBool _ => true | _ => false end.

(** [str.lower] on the ASCII letters.  The names it is compared with below
    are ASCII, and none of them has a letter that a character outside ASCII
    lowers to, so membership in those lists is decided as in Python. *)
Definition lower_ascii (a : ascii) : ascii :=
  let n := nat_of_ascii a in
  if (65 <=? n)%nat && (n <=? 90)%nat then ascii_of_nat (n + 32) else a.

Fixpoint lower (s : string) : string :=
  match s with
  | EmptyString => EmptyString
  | String a s => String (lower_ascii a) (lower s)
  end.

(** The thresholds, as the binary64 values the literals denote:
    [0.1 = 0x1.999999999999ap-4], [0.2 = 0x1.999999999999ap-3],
    [0.8 = 0x1.999999999999ap-1], [1.2 = 0x1.3333333333333p+0]. *)
Definition f_0_1 : spec_float := S754_finite false 7205759403792794 (-56).
Definition f_m0_1 : spec_float := S754_finite true 7205759403792794 (-56).
Definition f_0_2 : spec_float := S754_finite false 7205759403792794 (-55).
Definition f_0_8 : spec_float := S754_finite false 7205759403792794 (-53).
Definition f_1_2 : spec_float := S754_finite false 5404319552844595 (-52).

(** The class attributes of [__Flagger]. *)
Definition diffs : list string :=
  ["auc difference"; "balanced accuracy difference";
   "equalized odds difference"; "positive predictive parity difference";
   "Statistical Parity Difference"; "fpr diff"; "tpr diff"; "ppv diff"].
Definition ratios : list string :=
  ["balanced accuracy ratio"; "disparate impact ratio ";
   "equalized odds ratio"; "fpr ratio"; "tpr ratio"; "ppv ratio"].
Definition stats_high : list string := ["consistency score"].
Definition stats_low : list string := ["between-group gen. entropy error"].

(** Tables are Python objects; the flagger and the styler keep references
    to them. *)
Definition loc := nat.
Definition store := gmap loc DataFrame.

(** The instance attributes of a [__Flagger]. *)
Record Flagger := mkFlagger {
  self_df : option loc;
  self_labels : option (list label);
  self_label_type : option string;
  self_flag_type : option string;
  self_flag_color : option string
}.

(** [reset]. *)
Definition reset (self : Flagger) : Flagger :=
  mkFlagger None None None (Some "background-color") (Some "magenta").

(** [__init__]: a new object, then [self.reset()]. *)
Definition Flagger_init : Flagger := reset (mkFlagger None None None None None).

(** [Index.get_level_values(level)]: [IndexError] when the index has no
    such level. *)
Definition get_level_values (df : DataFrame) (level : nat) : result (list label) :=
  if (level <? length (index_names df))%nat
  then Ok (map (λ k, default (LStr "") (k !! level)) (index df))
  else Raise (Exn "IndexError" "Too many levels").

Definition is_int_label (l : label) : bool :=
  match l with LInt _ => true | _ => false end.

(** [set_measure_labels]: the measure names and where they live.  A level
    is an [Int64Index] when all its labels are integers. *)
Definition set_measure_labels (df : DataFrame) : list label * string :=
  let label_type :=
    match get_level_values df 1 with
    | Ok labels => if forallb is_int_label labels then "columns" else "index"
    | Raise _ => "columns"
    end in
  if String.eqb label_type "columns" then (map LStr (columns df), label_type)
  else (default [] (match get_level_values df 1 with Ok l => Some l | _ => None end),
        label_type).

(** The style string of a flagged cell,
    [f'{self.flag_type}:{self.flag_color}']. *)
Definition flag_css (self : Flagger) : string :=
  (default "None" (self_flag_type self) ++ ":"
   ++ default "None" (self_flag_color self))%string.

(** The three [is_oor] predicates.  Comparing a string with a number is a
    [TypeError]; [and] and [or] evaluate their right operand only when
    needed. *)
Definition num_of (i : cell) : result spec_float :=
  match i with
  | CNum x => Ok x
  | CStr _ => Raise (TypeError "'<' not supported between instances of 'float' and 'str'")
  end.

(** [not -0.1 < i < 0.1 and not np.isnan(i)]. *)
Definition is_oor_diff (i : cell) : result bool :=
  x ← num_of i;
  Ok (negb (SFltb f_m0_1 x && SFltb x f_0_1) && negb (is_nan x)).

(** [not 0.8 < i < 1.2 and not np.isnan(i)]. *)
Definition is_oor_ratio (i : cell) : result bool :=
  x ← num_of i;
  Ok (negb (SFltb f_0_8 x && SFltb x f_1_2) && negb (is_nan x)).

(** [(n in lb_low and i > 0.2) or (n in lb_high and i < 0.8) and not np.isnan(i)],
    with [in_low] and [in_high] the two membership tests. *)
Definition is_oor_st (in_low in_high : bool) (i : cell) : result bool :=
  low ← (if in_low then x ← num_of i; Ok (SFltb f_0_2 x) else Ok false);
  if low : bool then Ok true
  else
    high ← (if in_high then x ← num_of i; Ok (SFltb x f_0_8) else Ok false);
    if high : bool then x ← num_of i; Ok (negb (is_nan x)) else Ok false.

(** [for] comprehension whose element expression may raise. *)
Fixpoint mapM_res {A B} (f : A → result B) (l : list A) : result (list B) :=
  match l with
  | [] => Ok []
  | x :: l => y ← f x; ys ← mapM_res f l; Ok (y :: ys)
  end.

(** [c.lower()] for an index label; only strings have the method. *)
Definition label_lower (l : label) : result string :=
  match l with
  | LStr s => Ok (lower s)
  | _ => Raise (AttributeError "object has no attribute 'lower'")
  end.

(** [s.name.lower()] for the name of a column. *)
Definition name_lower (k : list label) : result string :=
  match k with
  | [l] => label_lower l
  | _ => Raise (AttributeError "'tuple' object has no attribute 'lower'")
  end.

(** [self.df.loc[idx[cat, mask], :].index]: the keys of the rows whose first
    level is [cat] and whose position is set in [mask]; [KeyError] when no
    row has [cat] as its first level. *)
Definition level0_is (cat : string) (k : list label) : bool :=
  match k with
  | l :: _ => label_eqb l (LStr cat)
  | [] => false
  end.

Definition loc_index (df : DataFrame) (cat : string) (mask : list bool)
    : result (list (list label)) :=
  if existsb (level0_is cat) (index df)
  then Ok (select (zip_with andb (map (level0_is cat) (index df)) mask) (index df))
  else Raise (KeyError cat).

(** [s.name in lbls]. *)
Definition key_in (k : list label) (lbls : list (list label)) : bool :=
  existsb (key_eqb k) lbls.

Definition str_in (s : string) (l : list string) : bool := bool_decide (s ∈ l).

Definition deref (h : store) (l : option loc) : result DataFrame :=
  match l with
  | Some l => match h !! l with
              | Some d => Ok d
              | None => Raise (Exn "ReferenceError" "no such object")
              end
  | None => Raise (AttributeError "'NoneType' object has no attribute 'loc'")
  end.

(** The index keys of the rows of category [cat] whose measure name, in
    lower case, is in [names]. *)
Definition category_labels (h : store) (self : Flagger) (cat : string)
    (names : list string) : result (list (list label)) :=
  mask ← mapM_res (λ c, c' ← label_lower c; Ok (str_in c' names))
                  (default [] (self_labels self));
  df ← deref h (self_df self);
  loc_index df cat mask.

Definition is_index (self : Flagger) : bool :=
  match self_label_type self with
  | Some t => String.eqb t "index"
  | None => false
  end.

(** [color_diff]. *)
Definition color_diff (h : store) (self : Flagger) (s : Series) : result (list string) :=
  if is_index self then
    lbls ← category_labels h self "Group Fairness" diffs;
    mapM_res (λ i, if key_in (sname s) lbls
                   then b ← is_oor_diff i; Ok (if b : bool then flag_css self else "")
                   else Ok "") (svalues s)
  else
    let lbls := diffs in
    mapM_res (λ i, n ← name_lower (sname s);
                   if str_in n lbls
                   then b ← is_oor_diff i; Ok (if b : bool then flag_css self else "")
                   else Ok "") (svalues s).

(** [color_ratio]. *)
Definition color_ratio (h : store) (self : Flagger) (s : Series) : result (list string) :=
  if is_index self then
    lbls ← category_labels h self "Group Fairness" ratios;
    mapM_res (λ i, if key_in (sname s) lbls
                   then b ← is_oor_ratio i; Ok (if b : bool then flag_css self else "")
                   else Ok "") (svalues s)
  else
    let lbls := ratios in
    mapM_res (λ i, n ← name_lower (sname s);
                   if str_in n lbls
                   then b ← is_oor_ratio i; Ok (if b : bool then flag_css self else "")
                   else Ok "") (svalues s).

(** [color_st]. *)
Definition color_st (h : store) (self : Flagger) (s : Series) : result (list string) :=
  if is_index self then
    lb_high ← category_labels h self "Individual Fairness" stats_high;
    lb_low ← category_labels h self "Individual Fairness" stats_low;
    mapM_res (λ i, b ← is_oor_st (key_in (sname s) lb_low) (key_in (sname s) lb_high) i;
                   Ok (if b : bool then flag_css self else "")) (svalues s)
  else
    let lb_high := stats_high in
    let lb_low := stats_low in
    mapM_res (λ i, n ← name_lower (sname s);
                   b ← is_oor_st (str_in n lb_low) (str_in n lb_high) i;
                   Ok (if b : bool then flag_css self else "")) (svalues s).

(** *** The styler *)

(** The bound methods a styler is asked to apply. *)
Inductive color_fn := color_diff_fn | color_ratio_fn | color_st_fn.

(** A [pandas] [Styler]: the table it displays (by reference), caption and
    precision, and the [(function, axis)] pairs queued by [Styler.apply],
    which run when the styler is rendered.  The functions are bound methods
    of the flagger [owner]. *)
Record Styler := mkStyler {
  data : loc;
  caption : pyval;
  precision : option pyval;
  todo : list (color_fn * Z);
  owner : Flagger
}.

(** What rendering a styler yields: caption, precision, the table as
    displayed, and for every cell the style strings attached to it. *)
Record Rendered := mkRendered {
  r_caption : pyval;
  r_precision : option pyval;
  r_frame : DataFrame;
  ctx : list (list (list string))
}.

Definition is_unique {A} (eqb : A → A → bool) (l : list A) : bool :=
  (length (unique_by eqb l) =? length l)%nat.

(** [df.style]: pandas refuses a frame whose index or columns repeat a
    label. *)
Definition style (h : store) (df : option loc) (self : Flagger) : result Styler :=
  d ← deref h df;
  if is_unique key_eqb (index d) && is_unique String.eqb (columns d)
  then Ok (mkStyler (default 0%nat df) PNone None [] self)
  else Raise (ValueError "style is not supported for non-unique indices.").

Definition set_caption (s : Styler) (c : pyval) : Styler :=
  mkStyler (data s) c (precision s) (todo s) (owner s).
Definition set_precision (s : Styler) (p : pyval) : Styler :=
  mkStyler (data s) (caption s) (Some p) (todo s) (owner s).
(** [Styler.apply(fn, axis=ax)]. *)
Definition styler_apply (s : Styler) (fn : color_fn) (ax : Z) : Styler :=
  mkStyler (data s) (caption s) (precision s) (todo s ++ [(fn, ax)]) (owner s).

Definition run_color (fn : color_fn) : store → Flagger → Series → result (list string) :=
  match fn with
  | color_diff_fn => color_diff
  | color_ratio_fn => color_ratio
  | color_st_fn => color_st
  end.

Definition column (df : DataFrame) (j : nat) : list cell :=
  map (λ r, default nan (r !! j)) (values df).

(** One queued function run over the table: with [axis=0] it gets every
    column (named by its label), with [axis=1] every row (named by its index
    key).  The result is the grid of style strings, row by row. *)
Definition apply_axis (fn : Series → result (list string)) (ax : Z) (df : DataFrame)
    : result (list (list string)) :=
  if (ax =? 0)%Z then
    cols ← mapM_res (λ jc, fn (mkSeries [LStr jc.2] (index df) (column df jc.1)))
                    (imap pair (columns df));
    Ok (imap (λ i _, map (λ col, default "" (col !! i)) cols) (values df))
  else
    mapM_res (λ kr, fn (mkSeries kr.1 (map (λ c, [LStr c]) (columns df)) kr.2))
             (zip (index df) (values df)).

Definition grid_at (g : list (list string)) (i j : nat) : string :=
  default "" (g !! i ≫= (λ r, r !! j)).

Definition nonempty (s : string) : bool := negb (String.eqb s "").

(** [Styler.render]: run the queue, and give every cell the non-empty style
    strings the functions returned for it. *)
Definition render (h : store) (s : Styler) : result Rendered :=
  df ← deref h (Some (data s));
  grids ← mapM_res (λ t, apply_axis (run_color t.1 h (owner s)) t.2 df) (todo s);
  Ok (mkRendered (caption s) (precision s) df
        (imap (λ i r, imap (λ j _, List.filter nonempty (map (λ g, grid_at g i j) grids)) r)
              (values df))).

(** A cell is flagged when it carries a style. *)
Definition flagged (r : Rendered) (i j : nat) : bool :=
  match ctx r !! i ≫= (λ row, row !! j) with
  | Some (_ :: _) => true
  | _ => false
  end.

(** *** A state and exception monad *)

Definition M (S A : Type) : Type := S → S * result A.

#[global] Instance M_ret {S} : MRet (M S) := λ A a s, (s, Ok a).
#[global] Instance M_bind {S} : MBind (M S) := λ A B k m s,
  match m s with
  | (s', Ok a) => k a s'
  | (s', Raise e) => (s', Raise e)
  end.

Definition raise {S A} (e : exn) : M S A := λ s, (s, Raise e).
Definition modify {S} (f : S → S) : M S unit := λ s, (f s, Ok tt).
Definition reads {S A} (f : S → result A) : M S A := λ s, (s, f s).

(** *** [apply_flag] and [flag] *)

Inductive flag_out :=
  | Styled (s : Styler)      (* the pandas Styler *)
  | Html (r : Rendered).     (* [HTML(styled.render())] *)

(** The state [apply_flag] works on: the flagger [self] and the store. *)
Definition world : Type := (Flagger * store)%type.

Definition bind_df (df : loc) (w : world) : world :=
  (mkFlagger (Some df) (self_labels w.1) (self_label_type w.1)
             (self_flag_type w.1) (self_flag_color w.1), w.2).

Definition bind_labels (lt : list label * string) (w : world) : world :=
  (mkFlagger (self_df w.1) (Some lt.1) (Some lt.2)
             (self_flag_type w.1) (self_flag_color w.1), w.2).

(** [self.df.reset_index(inplace=True)]: the object [self.df] refers to is
    updated in the store. *)
Definition reset_index_inplace : M world unit := λ w,
  match deref w.2 (self_df w.1) ≫= reset_index with
  | Ok d' => ((w.1, <[default 0%nat (self_df w.1) := d']> w.2), Ok tt)
  | Raise e => (w, Raise e)
  end.

(** [self.df.style.set_caption(caption).apply(self.color_diff, axis=ax)
      .apply(self.color_ratio, axis=ax).apply(self.color_st, axis=ax)]. *)
Definition styled_with (cap : pyval) (ax : Z) : M world Styler :=
  reads (λ w, s ← style w.2 (self_df w.1) w.1;
              Ok (styler_apply (styler_apply (styler_apply (set_caption s cap)
                    color_diff_fn ax) color_ratio_fn ax) color_st_fn ax)).

(** The error of the validation.  Python ends the message with the value
    itself, [f"...: {sig_fig}"]; the text before it names the error. *)
Definition invalid_sig_fig : exn := ValueError "Invalid value of significant figure".

Definition apply_flag (df : loc) (cap sig_fig : pyval) (as_styler : bool)
    : M world flag_out :=
  let cap := match cap with PNone => PStr "Fairness Measures" | _ => cap end in
  (* bools are treated as a subclass of int, so must test for both *)
  if negb (isinstance_int sig_fig) || isinstance_bool sig_fig
  then raise invalid_sig_fig
  else
    _ ← modify (λ w : world, (reset w.1, w.2));
    _ ← modify (bind_df df);
    lt ← reads (λ w : world, set_measure_labels <$> deref w.2 (Some df));
    _ ← modify (bind_labels lt);
    index_layout ← reads (λ w : world, Ok (is_index w.1));
    styled ←
      (if index_layout : bool then styled_with cap 1
       else
         (* pd.Styler doesn't support non-unique indices *)
         dup ← reads (λ w : world,
                  d ← deref w.2 (self_df w.1);
                  Ok (length (unique_by key_eqb (index d)) <? len d)%nat);
         _ ← (if dup : bool then reset_index_inplace else mret tt);
         styled_with cap 0);
    (* Styler will reset precision to 6 sig figs *)
    let styled := set_precision styled sig_fig in
    if as_styler then mret (Styled styled)
    else r ← reads (λ w : world, render w.2 styled); mret (Html r).

(** [flag]: a fresh flagger for every call. *)
Definition flag (df : loc) (cap sig_fig : pyval) (as_styler : bool) : M store flag_out :=
  λ h, let '((_, h'), r) := apply_flag df cap sig_fig as_styler (Flagger_init, h) in
       (h', r).

(** ** [bias_report] *)

(** The result of a report: a flagged view, or the rounded table. *)
Inductive report_out :=
  | Flagged (o : flag_out)
  | Table (d : DataFrame).

(** [df = <a new table>] in a caller: the table becomes an object of its
    own. *)
Definition alloc (df : DataFrame) : M store loc := λ h,
  let l := fresh (dom h) in (<[l := df]> h, Ok l).

Section reports.
(** The collaborators of [reports.py] that live in other modules or
    libraries. *)
Variable num_repr : spec_float → string.
Variables yname yhname : string.
(** The array-like inputs [X], [y_true], [y_pred], as the caller gives them. *)
Variable raw : Type.
(** [stratified_preprocess(X, y_true, y_pred, features=features)]. *)
Variable stratified_preprocess :
  raw → option raw → option raw → option (list string) → result DataFrame.
(** [y_cols(df)['col_names'].values()]: the names of the true, predicted
    and probability columns of [df], [None] for one that is absent. *)
Variable y_cols : DataFrame → option string * option string * option string.
(** The metric functions of [aif360], [__fairness_metrics] and
    [sklearn], by the name under which their value is reported:
    [metric name y_true y_pred pa_name priv_grp]. *)
Variable metric : string → Series → Series → string → Z → outcome spec_float.
(** [numpy]'s rounding of a number to a given count of decimals. *)
Variable np_round : Z → spec_float → spec_float.
(** Row subsetting of an input and the merge of the tagged per-cohort tables,
    both from [utils.iterate_cohorts]. *)
Variable subset : raw → list bool → raw.
Variable combine_cohorts : list (cell * result DataFrame) → result DataFrame.

(** A dictionary of measures filled by one call per measure, in order; the
    first call that raises ends the evaluation. *)
Fixpoint eval_metrics (names : list string) (y_true y_pred : Series)
    (pa_name : string) (priv_grp : Z) : outcome record :=
  match names with
  | [] => ([], Ok [])
  | n :: names =>
      match metric n y_true y_pred pa_name priv_grp with
      | (w, Raise e) => (w, Raise e)
      | (w, Ok v) =>
          let '(w', r) := eval_metrics names y_true y_pred pa_name priv_grp in
          (w ++ w', cons (n, CNum v) <$> r)
      end
  end.

(** [__bias_rep], the local function of [__classification_bias_report]. *)
Definition __bias_rep : Series → Series → string → Z → outcome record :=
  eval_metrics ["Selection Ratio"; "PPV Ratio"; "TPR Ratio"; "FPR Ratio";
                "Selection Diff"; "PPV Diff"; "TPR Diff"; "FPR Diff"].

(** [__regression_bias]. *)
Definition __regression_bias : Series → Series → string → Z → outcome record :=
  eval_metrics ["Mean Prediction Ratio"; "MAE Ratio";
                "Mean Prediction Difference"; "MAE Difference"].

(** The keyword arguments [**kwargs]. *)
Definition kwargs_t : Type := gmap string pyval.

(** The common body of [__classification_bias_report] and
    [__regression_bias_report], which differ in the metric function they
    hand to the applier.  [limit_alert] only writes an advisory and is left
    out; [**kwargs] is accepted and never read. *)
Definition bias_report_body (rep : Series → Series → string → Z → outcome record)
    (X : raw) (y_true y_pred : option raw) (features : option (list string))
    (kwargs : kwargs_t) : result DataFrame :=
  match y_true, y_pred with
  | Some _, Some _ =>
      df ← stratified_preprocess X y_true y_pred features;
      let '(yt, yh, yp) := y_cols df in
      let pred_cols := omap id [yt; yh; yp] in
      let strat_feats :=
        List.filter (λ f, negb (bool_decide (f ∈ pred_cols))) (columns df) in
      match yt, yh with
      | Some yt, Some yh =>
          results ← format_errwarn
                      (snd <$> __apply_biasGroups num_repr rep yt yh strat_feats df);
          sort_report yname yhname results
      | _, _ =>
          Raise (Exn "ValidationError" "Cannot generate report with undefined targets")
      end
  | _, _ => Raise (ValueError "Cannot assess fairness without both y_true and y_pred")
  end.

(** Modelled from the spec: the decorator [iterate_cohorts] of [utils], the
    Cohort Iterator, is not part of [reports.py].  Without a cohort column it
    is a transparent passthrough; with one, the wrapped function runs once
    per distinct cohort value on the rows of that cohort, each run on its
    own, and the tagged tables are merged.  The decorator takes the keyword
    [cohorts] for itself and hands the other keywords on. *)
Definition iterate_cohorts
    (func : raw → option raw → option raw → option (list string) → kwargs_t
            → result DataFrame)
    (X : raw) (y_true y_pred : option raw) (features : option (list string))
    (kwargs : kwargs_t) : result DataFrame :=
  let rest := delete "cohorts" kwargs in
  match kwargs !! "cohorts" with
  | None | Some PNone => func X y_true y_pred features rest
  | Some (PColumn _ col) =>
      let keys := merge_sort cell_le (unique_by cell_eqb (List.filter notnull col)) in
      combine_cohorts
        (map (λ k, let rows := map (cell_eqb k) col in
                   (k, func (subset X rows) ((λ y, subset y rows) <$> y_true)
                            ((λ y, subset y rows) <$> y_pred) features rest)) keys)
  | Some _ => Raise (TypeError "cohorts must be array-like")
  end.

Definition __classification_bias_report := iterate_cohorts (bias_report_body __bias_rep).
Definition __regression_bias_report := iterate_cohorts (bias_report_body __regression_bias).

(** [df.round(sig_fig)]: numbers are rounded, other cells are left as they
    are; pandas wants an integer count of decimals. *)
Definition round_frame (sig_fig : pyval) (df : DataFrame) : result DataFrame :=
  let go (n : Z) :=
    Ok (mkDF (index df) (index_names df) (columns df)
             (map (map (λ c, match c with CNum x => CNum (np_round n x) | _ => c end))
                  (values df))) in
  match sig_fig with
  | PInt n => go n
  | PBool b => go (if b then 1 else 0)%Z
  | _ => Raise (TypeError "decimals must be an integer, a dict-like or a Series")
  end.

Definition bias_report (X : raw) (y_true y_pred : option raw)
    (features : option (list string)) (pred_type : string) (sig_fig : pyval)
    (flag_oor : bool) (kwargs : kwargs_t) : M store report_out :=
  let validtypes := ["classification"; "regression"] in
  if negb (str_in pred_type validtypes)
  then raise (ValueError "Summary report type must be one of ['classification', 'regression']")
  else
    df ← reads (λ _,
            if String.eqb pred_type "classification"
            then __classification_bias_report X y_true y_pred features kwargs
            else __regression_bias_report X y_true y_pred features kwargs);
    if flag_oor then
      l ← alloc df;
      o ← flag l (PStr "") sig_fig true;   (* flag(df, sig_fig=sig_fig) *)
      mret (Flagged o)
    else
      d ← reads (λ _, round_frame sig_fig df);
      mret (Table d).
End reports.

(** ** The performance reports *)

(** [d[k] = v] on a dictionary kept in insertion order: a key that is there
    keeps its place and takes the new value, a new key goes last. *)
Fixpoint dict_set (k : string) (v : cell) (d : record) : record :=
  match d with
  | [] => [(k, v)]
  | (k', v') :: d =>
      if String.eqb k k' then (k', v) :: d else (k', v') :: dict_set k v d
  end.

Section performance.
Variables yname yhname : string.
Variable raw : Type.
(** [stratified_preprocess(X, y_true, y_pred, y_prob, features=features)],
    and the call that gives no [y_prob]. *)
Variable stratified_preprocess_prob :
  raw → option raw → option raw → option raw → option (list string) → result DataFrame.
Variable stratified_preprocess :
  raw → option raw → option raw → option (list string) → result DataFrame.
Variable y_cols : DataFrame → option string * option string * option string.
(** The statistics of pandas, [sklearn] and [__performance_metrics], by the
    key under which [__perf_rep] reports their value; the argument is the
    list of the columns handed to the statistic, in the order in which the
    source reads them. *)
Variable statistic : string → list (list cell) → outcome spec_float.
Variable np_round : Z → spec_float → spec_float.

(** One [key: statistic(x[c1], x[c2])] of a dictionary. *)
Definition entry (x : DataFrame) (key : string) (cols : list string) : outcome cell :=
  match mapM_res (getcol x) cols with
  | Raise e => ([], Raise e)
  | Ok cs => let '(w, r) := statistic key cs in (w, CNum <$> r)
  end.

(** The entries of a dictionary, evaluated in order into [d]; the first one
    that raises ends the evaluation. *)
Fixpoint eval_entries (x : DataFrame) (es : list (string * list string)) (d : record)
    : outcome record :=
  match es with
  | [] => ([], Ok d)
  | (k, cols) :: es =>
      match entry x k cols with
      | (w, Raise e) => (w, Raise e)
      | (w, Ok v) =>
          let '(w', r) := eval_entries x es (dict_set k v d) in (w ++ w', r)
      end
  end.

(** [__perf_rep], the local function of
    [__classification_performance_report]. *)
Definition __classification_perf_rep (x : DataFrame)
    (a : string * string * option string) : outcome record :=
  let '(y, yh, yp) := a in
  eval_entries x
    ([((yname ++ " Mean")%string, [y]); ((yhname ++ " Mean")%string, [yh]);
      ("TPR", [y; yh]); ("FPR", [y; yh]); ("Accuracy", [y; yh]);
      ("Precision", [y; yh])]
     ++ match yp with
        | Some yp => [("ROC AUC", [y; yp]); ("PR AUC", [y; yp])]
        | None => []
        end)
    [("Obs.", num (Z.of_nat (len x)))].

(** [__perf_rep], the local function of [__regression_performance_report]. *)
Definition __regression_perf_rep (x : DataFrame) (a : string * string)
    : outcome record :=
  let '(y, yh) := a in
  eval_entries x
    [((yname ++ " Mean")%string, [y]); ((yhname ++ " Mean")%string, [yh]);
     ((yhname ++ " Median")%string, [yh]); ((yhname ++ " Std. Dev.")%string, [yh]);
     ("Error Mean", [yh; y]); ("Error Std. Dev.", [yh; y]);
     ("MAE", [y; yh]); ("MSE", [y; yh])]
    [("Obs.", num (Z.of_nat (len x)))].

(** [overview = {...}; for k, v in ov_dict.items(): overview[k] = v]. *)
Definition overview_of (ov_dict : record) : record :=
  fold_left (λ d kv, dict_set kv.1 kv.2 d) ov_dict
            [("Feature Name", CStr "ALL FEATURES"); ("Feature Value", CStr "ALL VALUES")].

(** The common body of the two performance reports, from the test of the
    targets on; they differ in the preprocessing call [pre], in [__perf_rep]
    and in the arguments they hand to it.  [limit_alert] only writes an
    advisory and is left out. *)
Definition performance_report_body {Args}
    (rep : DataFrame → Args → outcome record)
    (mkargs : string → string → option string → Args)
    (pre : result DataFrame) (y_true y_pred : option raw) (add_overview : bool)
    : result DataFrame :=
  match y_true, y_pred with
  | Some _, Some _ =>
      df ← pre;
      let '(yt, yh, yp) := y_cols df in
      let pred_cols := omap id [yt; yh; yp] in
      let strat_feats :=
        List.filter (λ f, negb (bool_decide (f ∈ pred_cols))) (columns df) in
      match yt, yh with
      | Some yt, Some yh =>
          results ← format_errwarn
                      (__apply_featureGroups rep (mkargs yt yh yp) strat_feats df);
          rprt ← (if add_overview : bool then
                    match rep df (mkargs yt yh yp) with
                    | (_, Raise e) => Raise e
                    | (_, Ok ov_dict) =>
                        let overview_df := frame_of_record (overview_of ov_dict) in
                        Ok (concat [overview_df; results])
                    end
                  else Ok results);
          sort_report yname yhname rprt
      | _, _ =>
          Raise (Exn "ValidationError" "Cannot generate report with undefined targets")
      end
  | _, _ => Raise (ValueError "Cannot assess performance without both y_true and y_pred")
  end.

Definition __classification_performance_report (X : raw)
    (y_true y_pred y_prob : option raw) (features : option (list string))
    (add_overview : bool) : result DataFrame :=
  performance_report_body __classification_perf_rep (λ yt yh yp, (yt, yh, yp))
    (stratified_preprocess_prob X y_true y_pred y_prob features)
    y_true y_pred add_overview.

Definition __regression_performance_report (X : raw)
    (y_true y_pred : option raw) (features : option (list string))
    (add_overview : bool) : result DataFrame :=
  performance_report_body __regression_perf_rep (λ yt yh _, (yt, yh))
    (stratified_preprocess X y_true y_pred features)
    y_true y_pred add_overview.

Definition performance_report (X : raw) (y_true y_pred y_prob : option raw)
    (features : option (list string)) (pred_type : string) (sig_fig : pyval)
    (add_overview : bool) : result DataFrame :=
  let validtypes := ["classification"; "regression"] in
  if negb (str_in pred_type validtypes)
  then Raise (ValueError "Summary report type must be one of ['classification', 'regression']")
  else
    df ← (if String.eqb pred_type "classification"
          then __classification_performance_report X y_true y_pred y_prob
                 features add_overview
          else __regression_performance_report X y_true y_pred features add_overview);
    round_frame np_round sig_fig df.
End performance.

(** * Properties *)

(** ** The error monad and the frame operations *)

Lemma bind_Ok {A B} (m : result A) (k : A → result B) b :
  m ≫= k = Ok b ↔ ∃ a, m = Ok a ∧ k a = Ok b.
Proof.
  destruct m as [a|e]; simpl; split.
  - intros H; exists a; auto.
  - intros (a' & [= <-] & H); exact H.
  - discriminate.
  - intros (a' & [=] & _).
Qed.

Lemma union_cols_prefix acc l : ∃ t, union_cols acc l = acc ++ t.
Proof.
  revert acc. induction l as [|c l IH]; intros acc; simpl.
  - exists []. by rewrite app_nil_r.
  - case_bool_decide; [apply IH|].
    destruct (IH (acc ++ [c])) as [t ->]. exists (c :: t). by rewrite <- app_assoc.
Qed.

Lemma fold_union_prefix (frames : list DataFrame) acc :
  ∃ t, fold_left (λ acc d, union_cols acc (columns d)) frames acc = acc ++ t.
Proof.
  revert acc. induction frames as [|d ds IH]; intros acc; simpl.
  - exists []. by rewrite app_nil_r.
  - destruct (union_cols_prefix acc (columns d)) as [t1 ->].
    destruct (IH (acc ++ t1)) as [t2 ->]. exists (t1 ++ t2). by rewrite app_assoc.
Qed.

(** The first column of the first frame is the first column of the
    concatenation. *)
Lemma concat_first_col d ds c cs :
  columns d = c :: cs → ∃ t, columns (concat (d :: ds)) = c :: t.
Proof.
  intros Hc. unfold concat. simpl. rewrite Hc. simpl.
  destruct (union_cols_prefix [c] cs) as [t1 ->].
  destruct (fold_union_prefix ds ([c] ++ t1)) as [t2 ->]. simpl. eauto.
Qed.

Lemma concat_rows_inv frames r' :
  r' ∈ values (concat frames) →
  ∃ d r, d ∈ frames ∧ r ∈ values d ∧
         r' = map (row_get (columns d) r) (columns (concat frames)).
Proof.
  unfold concat. simpl. rewrite list_elem_of_In, in_flat_map.
  intros (d & Hd & Hr). apply in_map_iff in Hr as (r & <- & Hr).
  exists d, r. by rewrite !list_elem_of_In.
Qed.

Lemma row_get_first c cs r : row_get (c :: cs) r c = default nan (r !! 0%nat).
Proof. unfold row_get. simpl. by rewrite String.eqb_refl. Qed.

(** ** [__apply_featureGroups] *)

Section featureGroups_facts.
Context {Args : Type}.
Variable func : DataFrame → Args → outcome record.
Variable args : Args.
Variable df : DataFrame.

Abbreviation body := (featureGroups_body func args df).

(** The metric function raises on one of the partitions. *)
Definition fails_in (grp : list (cell * DataFrame)) : Prop :=
  ∃ k x w e, (k, x) ∈ grp ∧ func x args = (w, Raise e).

Lemma grp_apply_fails grp :
  fails_in grp → ∃ w e, grp_apply func args grp = (w, Raise e).
Proof.
  intros (k & x & w & e & Hin & Hf).
  induction grp as [|[k' x'] grp IH]; [by apply elem_of_nil in Hin|].
  simpl. apply elem_of_cons in Hin as [[= <- <-]|Hin].
  - rewrite Hf. eauto.
  - destruct (func x' args) as [w1 [d|e1]]; [|eauto].
    destruct (IH Hin) as (w2 & e2 & ->). simpl. eauto.
Qed.

Lemma try_feature_fails f grp :
  groupby df f = Ok grp → fails_in grp →
  ∃ w e, try_feature func args df f = (w, Raise e).
Proof.
  intros Hg Hf. unfold try_feature. rewrite Hg.
  destruct (grp_apply_fails grp Hf) as (w & e & ->). simpl. eauto.
Qed.

Lemma body_failed st f w e :
  try_feature func args df f = (w, Raise e) →
  body st f = Ok (mkSweep (<[f := e]> (errs st)) (warns st) (res st)).
Proof. intros H. unfold featureGroups_body. by rewrite H. Qed.

(** What an iteration that gets past the [try] appends to [res]. *)
Definition feature_table (f : string) (grp_res : DataFrame) : result DataFrame :=
  grp_res ← reset_index grp_res;
  insert_col (rename grp_res f "Feature Value") 0 "Feature Name" (CStr f).

Lemma body_passed st f w d :
  try_feature func args df f = (w, Ok d) →
  body st f =
    (t ← feature_table f d;
     Ok (mkSweep (errs st)
           (if (0 <? length w)%nat then <[f := w]> (warns st) else warns st)
           (res st ++ [t]))).
Proof.
  intros H. unfold featureGroups_body, feature_table. rewrite H.
  destruct (reset_index d); simpl; [|done]. by destruct (insert_col _ _ _ _).
Qed.

Lemma body_errs_mono st st' g f :
  body st g = Ok st' → is_Some (errs st !! f) → is_Some (errs st' !! f).
Proof.
  destruct (try_feature func args df g) as [w [d|e]] eqn:Ht.
  - rewrite (body_passed _ _ _ _ Ht). intros (t & _ & [= <-])%bind_Ok. done.
  - rewrite (body_failed _ _ _ _ Ht). intros [= <-]. simpl. intros H.
    destruct (decide (g = f)) as [->|Hne].
    + rewrite lookup_insert_eq. eauto.
    + by rewrite lookup_insert_ne.
Qed.

Lemma foldM_errs_mono features st st' f :
  foldM body st features = Ok st' →
  is_Some (errs st !! f) → is_Some (errs st' !! f).
Proof.
  revert st. induction features as [|g l IH]; intros st; simpl.
  - by intros [= <-].
  - intros (st1 & H1 & H2)%bind_Ok H. eauto using body_errs_mono.
Qed.

Lemma foldM_errs_recorded features st st' f w e :
  try_feature func args df f = (w, Raise e) →
  f ∈ features → foldM body st features = Ok st' →
  is_Some (errs st' !! f).
Proof.
  intros Hf. revert st. induction features as [|g l IH]; intros st Hin; simpl.
  - by apply elem_of_nil in Hin.
  - intros (st1 & H1 & H2)%bind_Ok.
    destruct (decide (g = f)) as [->|Hne].
    + eapply foldM_errs_mono; [exact H2|].
      rewrite (body_failed _ _ _ _ Hf) in H1.
      injection H1 as <-. simpl. rewrite lookup_insert_eq. eauto.
    + apply elem_of_cons in Hin as [->|Hin]; [done|]. eauto.
Qed.

(** Dropping a feature whose [try] fails from the list changes neither
    [res] nor [warns], nor the exception a later iteration lets through. *)
Definition without (f : string) (features : list string) : list string :=
  List.filter (λ g, negb (String.eqb g f)) features.

Lemma foldM_without features st st' f w e :
  try_feature func args df f = (w, Raise e) →
  res st = res st' → warns st = warns st' →
  match foldM body st features, foldM body st' (without f features) with
  | Ok s, Ok s' => res s = res s' ∧ warns s = warns s'
  | Raise e1, Raise e2 => e1 = e2
  | _, _ => False
  end.
Proof.
  intros Hf. revert st st'.
  induction features as [|g l IH]; intros st st' Hr Hw; simpl; [done|].
  destruct (String.eqb_spec g f) as [->|Hne]; simpl.
  - rewrite (body_failed _ _ _ _ Hf). simpl. by apply IH.
  - destruct (try_feature func args df g) as [w' [d|e']] eqn:Ht.
    + rewrite !(body_passed _ _ _ _ Ht).
      destruct (feature_table g d) as [t|e1]; simpl; [|done].
      apply IH; simpl; [by rewrite Hr | by rewrite Hw].
    + rewrite !(body_failed _ _ _ _ Ht). simpl. by apply IH.
Qed.

(** Every table in [res] starts with the column [Feature Name], which holds
    the feature the table was computed for. *)
Definition names_feature (p : string → Prop) (d : DataFrame) : Prop :=
  (∃ cs, columns d = "Feature Name" :: cs) ∧
  ∀ r, r ∈ values d → ∃ g, p g ∧ r !! 0%nat = Some (CStr g).

Lemma feature_table_names g d t :
  feature_table g d = Ok t → names_feature (λ g', g' = g) t.
Proof.
  unfold feature_table. intros (d1 & _ & H)%bind_Ok.
  unfold insert_col in H. destruct (has_col _ _); [done|].
  injection H as <-. split; simpl; [eauto|].
  intros r (r0 & -> & _)%list_elem_of_fmap. eauto.
Qed.

Lemma foldM_names (p : string → Prop) features st st' :
  (∀ g w d, g ∈ features → try_feature func args df g = (w, Ok d) → p g) →
  Forall (names_feature p) (res st) →
  foldM body st features = Ok st' →
  Forall (names_feature p) (res st').
Proof.
  revert st. induction features as [|g l IH]; intros st Hp Hres; simpl.
  - by intros [= <-].
  - intros (st1 & H1 & H2)%bind_Ok.
    eapply (IH st1); [intros; eapply Hp; [by right|done]| |done].
    destruct (try_feature func args df g) as [w [d|e]] eqn:Ht.
    + rewrite (body_passed _ _ _ _ Ht) in H1.
      apply bind_Ok in H1 as (t & Htab & [= <-]). simpl.
      apply Forall_app; split; [done|]. constructor; [|done].
      destruct (feature_table_names _ _ _ Htab) as [Hc Hr]. split; [done|].
      intros r Hin. destruct (Hr r Hin) as (g' & -> & ?).
      exists g. split; [|done]. eapply Hp; [by left|done].
    + rewrite (body_failed _ _ _ _ Ht) in H1. by injection H1 as <-.
Qed.

Lemma collect_names (p : string → Prop) frames r :
  Forall (names_feature p) frames → r ∈ values (collect frames) →
  ∃ g, p g ∧ r !! 0%nat = Some (CStr g).
Proof.
  intros Hall. destruct frames as [|d ds].
  - intros []%elem_of_nil.
  - change (collect (d :: ds)) with (concat (d :: ds)).
    intros (d' & r0 & Hd & Hr0 & ->)%concat_rows_inv.
    apply Forall_cons in Hall as Hall'. destruct Hall' as [[[cs Hc] _] _].
    destruct (concat_first_col d ds _ _ Hc) as [t ->].
    rewrite Forall_forall in Hall. destruct (Hall d' Hd) as [[cs' Hc'] Hrows].
    destruct (Hrows r0 Hr0) as (g & Hg & Hr).
    exists g. split; [done|]. simpl. rewrite Hc'. rewrite row_get_first.
    by rewrite Hr.
Qed.
End featureGroups_facts.

(** The scenario of the region table: ten observations, five in the north
    and five in the south. *)
Definition f_one : spec_float := S754_finite false 4503599627370496 (-52).

Definition region_table : DataFrame :=
  mkDF (RangeIndex 10) [None] ["region"; "y"; "yh"]
    (replicate 5 [CStr "north"; num 1; num 1]
     ++ replicate 5 [CStr "south"; num 0; num 1]).

Definition division_by_zero : exn := Exn "ZeroDivisionError" "division by zero".

(** A metric function for [__apply_featureGroups] that counts the
    observations of a partition and raises on the partition of the south. *)
Definition count_north (x : DataFrame) (_ : unit) : outcome record :=
  match values x with
  | (CStr "south" :: _) :: _ => ([], Raise division_by_zero)
  | _ => ([], Ok [("Obs.", num (Z.of_nat (len x)))])
  end.

(** C1 as the specification states it: when the metric function raises on a
    partition of [f], the exception is recorded against [f] and every other
    partition of [f], on which it returns, still has its row in the returned
    table. *)
Definition isolates_partitions {Args} (func : DataFrame → Args → outcome record)
    (args : Args) (features : list string) (df : DataFrame) : Prop :=
  ∀ f grp k x w e,
    f ∈ features → groupby df f = Ok grp →
    (k, x) ∈ grp → func x args = (w, Raise e) →
    ∃ results errs warns,
      __apply_featureGroups func args features df = Ok (results, errs, warns) ∧
      is_Some (errs !! f) ∧
      ∀ k' x' w' d, (k', x') ∈ grp → func x' args = (w', Ok d) →
        ∃ r, r ∈ values results ∧ r !! 0%nat = Some (CStr f) ∧ r !! 1%nat = Some k'.

(** On the region table the metric function returns for the north and
    raises for the south, and the returned table has no row at all: the
    statement of C1 fails. *)
Lemma C1_partitions_not_isolated :
  ¬ isolates_partitions count_north tt ["region"] region_table.
Proof.
  intros H.
  pose (north := loc_rows region_table (replicate 5 true ++ replicate 5 false)).
  pose (south := loc_rows region_table (replicate 5 false ++ replicate 5 true)).
  assert (Hg : groupby region_table "region"
               = Ok [(CStr "north", north); (CStr "south", south)])
    by (vm_compute; reflexivity).
  destruct (H "region" [(CStr "north", north); (CStr "south", south)]
                (CStr "south") south [] division_by_zero)
    as (results & errs & warns & Hrun & _ & Hrows);
    [by left | exact Hg | by right; left | reflexivity |].
  vm_compute in Hrun. injection Hrun as <- _ _.
  destruct (Hrows (CStr "north") north [] [("Obs.", num 5)])
    as (r & Hin & _); [by left | reflexivity |].
  by apply elem_of_nil in Hin.
Qed.

(** C1, amended: a feature with a partition on which the metric function
    raises is recorded in the error ledger and contributes no row at all,
    and the returned table is the one the sweep over the other features
    returns. *)
Theorem C1_failing_feature_is_dropped {Args}
    (func : DataFrame → Args → outcome record) (args : Args)
    (features : list string) (df : DataFrame) (f : string)
    (grp : list (cell * DataFrame)) :
  f ∈ features → groupby df f = Ok grp → fails_in func args grp →
  (∀ results errs warns,
     __apply_featureGroups func args features df = Ok (results, errs, warns) →
     is_Some (errs !! f) ∧
     ∀ r, r ∈ values results → r !! 0%nat ≠ Some (CStr f)) ∧
  format_errwarn (__apply_featureGroups func args features df)
  = format_errwarn (__apply_featureGroups func args (without f features) df).
Proof.
  intros Hin Hg Hfail.
  destruct (try_feature_fails func args df f grp Hg Hfail) as (w & e & Hf).
  split.
  - intros results errs0 warns0 Hrun. unfold __apply_featureGroups in Hrun.
    apply bind_Ok in Hrun as (st & Hfold & [= <- <- <-]). split.
    + eapply foldM_errs_recorded; eauto.
    + intros r Hr.
      assert (Hnames : Forall (names_feature (λ g, g ≠ f)) (res st)).
      { apply (foldM_names func args df (λ g, g ≠ f) features sweep0 st);
          [|by apply Forall_nil|exact Hfold].
        intros g w' d _ Hg' ->. congruence. }
      destruct (collect_names _ _ _ Hnames Hr) as (g & Hne & ->). congruence.
  - pose proof (foldM_without func args df features sweep0 sweep0 f w e Hf
                  eq_refl eq_refl) as Hrel.
    unfold __apply_featureGroups.
    destruct (foldM _ sweep0 features) as [s|e1],
             (foldM _ sweep0 (without f features)) as [s'|e2]; simpl in *;
      try done.
    + destruct Hrel as [-> _]. done.
    + by rewrite Hrel.
Qed.

(** The theorem at the region table: the south makes [region] fail. *)
Lemma C1_failing_feature_is_dropped_witness :
  (∀ results errs warns,
     __apply_featureGroups count_north tt ["region"] region_table
       = Ok (results, errs, warns) →
     is_Some (errs !! "region") ∧
     ∀ r, r ∈ values results → r !! 0%nat ≠ Some (CStr "region")) ∧
  format_errwarn (__apply_featureGroups count_north tt ["region"] region_table)
  = format_errwarn
      (__apply_featureGroups count_north tt (without "region" ["region"]) region_table).
Proof.
  apply (C1_failing_feature_is_dropped count_north tt ["region"] region_table "region"
           [(CStr "north", loc_rows region_table (replicate 5 true ++ replicate 5 false));
            (CStr "south", loc_rows region_table (replicate 5 false ++ replicate 5 true))]).
  - by left.
  - vm_compute. reflexivity.
  - exists (CStr "south"), (loc_rows region_table (replicate 5 false ++ replicate 5 true)),
      [], division_by_zero.
    split; [by right; left | reflexivity].
Defined.

(** ** Sweeps that collect no row *)

Definition no_rows : DataFrame := empty_frame ["Feature Name"; "Feature Value"].

Lemma union_cols_absorb acc l : (∀ c, c ∈ l → c ∈ acc) → union_cols acc l = acc.
Proof.
  induction l as [|c l IH]; intros H; simpl; [done|].
  rewrite bool_decide_eq_true_2 by (apply H; left).
  apply IH. intros c' ?. apply H. by right.
Qed.

Lemma fold_union_no_rows ds :
  Forall (λ d, d = no_rows) ds →
  fold_left (λ acc d, union_cols acc (columns d)) ds (columns no_rows)
  = columns no_rows.
Proof.
  induction 1 as [|d' ds' -> _ IH]; cbn [fold_left]; [done|].
  by rewrite (union_cols_absorb (columns no_rows) (columns no_rows)).
Qed.

Lemma flat_map_no_rows ds cols :
  Forall (λ d, d = no_rows) ds →
  flat_map (λ d, map (λ r : list cell, map (row_get (columns d) r) cols) (values d)) ds
  = [].
Proof. induction 1 as [|d' ds' -> _ IH]; simpl; [done|exact IH]. Qed.

(** Concatenating copies of the empty table gives the empty table. *)
Lemma concat_no_rows frames :
  frames ≠ [] → Forall (λ d, d = no_rows) frames → concat frames = no_rows.
Proof.
  intros Hne Hall. destruct frames as [|d ds]; [done|].
  apply Forall_cons in Hall as [-> Hall].
  unfold concat. cbn [fold_left flat_map].
  change (union_cols [] (columns no_rows)) with (columns no_rows).
  rewrite fold_union_no_rows by done. rewrite flat_map_no_rows by done.
  reflexivity.
Qed.

Lemma collect_no_rows frames :
  Forall (λ d, d = no_rows) frames → collect frames = no_rows.
Proof.
  intros Hall. destruct frames as [|d ds]; [done|].
  change (collect (d :: ds)) with (concat (d :: ds)). by apply concat_no_rows.
Qed.

Section featureGroups_no_rows.
Context {Args : Type}.
Variable func : DataFrame → Args → outcome record.
Variable args : Args.
Variable df : DataFrame.

(** No partition of feature [f] gets a row: the column is missing, or it has
    no value to group by, or the metric function raises on a partition. *)
Definition no_successful_row (f : string) : Prop :=
  ∀ grp, groupby df f = Ok grp → grp = [] ∨ fails_in func args grp.

(** A feature without partitions yields the empty table. *)
Lemma feature_table_no_groups f :
  feature_table f (frame_of_groups f []) = Ok no_rows.
Proof.
  unfold feature_table, frame_of_groups, reset_index, insert_col, has_col. simpl.
  rewrite String.eqb_refl. reflexivity.
Qed.

Lemma body_no_rows st f :
  no_successful_row f → Forall (λ d, d = no_rows) (res st) →
  ∃ st', featureGroups_body func args df st f = Ok st' ∧
         Forall (λ d, d = no_rows) (res st').
Proof.
  intros Hno Hall. unfold no_successful_row in Hno.
  destruct (try_feature func args df f) as [w [d|e]] eqn:Ht.
  - unfold try_feature in Ht. destruct (groupby df f) as [grp|] eqn:Hg; [|done].
    destruct (Hno grp eq_refl) as [->|Hfail].
    + simpl in Ht. injection Ht as <- <-.
      rewrite (body_passed func args df st f [] _)
        by (unfold try_feature; by rewrite Hg).
      rewrite feature_table_no_groups. simpl. eexists. split; [done|]. simpl.
      apply Forall_app. split; [done|]. by constructor.
    + destruct (grp_apply_fails func args grp Hfail) as (w' & e' & Hr).
      rewrite Hr in Ht. done.
  - rewrite (body_failed func args df st f w e Ht). eauto.
Qed.

Lemma foldM_no_rows features st :
  (∀ f, f ∈ features → no_successful_row f) →
  Forall (λ d, d = no_rows) (res st) →
  ∃ st', foldM (featureGroups_body func args df) st features = Ok st' ∧
         Forall (λ d, d = no_rows) (res st').
Proof.
  revert st. induction features as [|f l IH]; intros st Hno Hall; simpl.
  - eauto.
  - destruct (body_no_rows st f) as (st1 & -> & Hall1); [apply Hno; by left|done|].
    simpl. apply IH; [|done]. intros f' ?. apply Hno. by right.
Qed.
End featureGroups_no_rows.

(** ** [__apply_biasGroups] *)

Lemma col_pos_Some c cols j : col_pos c cols = Some j → c ∈ cols.
Proof.
  revert j. induction cols as [|c' cols IH]; intros j; simpl; [done|].
  destruct (String.eqb_spec c c') as [->|Hne]; [by left|].
  destruct (col_pos c cols) as [j'|]; [|done]. intros _. right. by eapply IH.
Qed.

Lemma columns_setcol df c vals c' :
  c' ∈ columns df → c' ∈ columns (setcol df c vals).
Proof.
  intros H. unfold setcol. destruct (col_pos c (columns df)); simpl; [done|].
  apply elem_of_app. by left.
Qed.

Lemma columns_setcol_new df c vals : c ∈ columns (setcol df c vals).
Proof.
  unfold setcol. destruct (col_pos c (columns df)) eqn:H; simpl.
  - by eapply col_pos_Some.
  - apply elem_of_app. right. by left.
Qed.

Lemma getcol_Ok df c : c ∈ columns df → getcol df c = Ok (map (λ r, row_get (columns df) r c) (values df)).
Proof. intros H. unfold getcol, has_col. by rewrite bool_decide_eq_true_2. Qed.

Lemma getcol_inv df c col : getcol df c = Ok col → c ∈ columns df.
Proof.
  unfold getcol, has_col. case_bool_decide; [done|discriminate].
Qed.

Lemma setcol_where_inv df mask c v df' :
  setcol_where df mask c v = Ok df' →
  ∃ vals, df' = setcol df c vals.
Proof. unfold setcol_where. intros (col & _ & [= <-])%bind_Ok. eauto. Qed.

Lemma setcol_where_Ok df mask c v :
  c ∈ columns df → ∃ vals, setcol_where df mask c v = Ok (setcol df c vals).
Proof.
  intros H. unfold setcol_where. rewrite (getcol_Ok df c H). simpl. eauto.
Qed.

Lemma insert_col_values df loc c v t :
  insert_col df loc c v = Ok t →
  values t = map (λ r, take loc r ++ v :: drop loc r) (values df).
Proof. unfold insert_col. destruct (has_col df c); [done|]. by intros [= <-]. Qed.

Section biasGroups_facts.
Variable func : Series → Series → string → Z → outcome record.
Variables yt yh : string.

(** An iteration over a value either leaves [res] as it is, or appends a
    table of one row. *)
Lemma biasGroups_value_res f st v st' :
  biasGroups_value func yt yh f st v = Ok st' →
  res st'.2 = res st.2 ∨ ∃ t r, res st'.2 = res st.2 ++ [t] ∧ values t = [r].
Proof.
  destruct st as [df sw]. unfold biasGroups_value. intros H.
  apply bind_Ok in H as (colf & _ & H).
  apply bind_Ok in H as (df1 & _ & H).
  apply bind_Ok in H as (df2 & _ & H).
  apply bind_Ok in H as (pa & _ & H).
  destruct (nunique pa =? 1)%nat; [injection H as <-; by left|].
  apply bind_Ok in H as (coly & _ & H).
  apply bind_Ok in H as (colh & _ & H).
  destruct (func _ _ _ _) as [w [d|e]].
  - apply bind_Ok in H as (t1 & Ht1 & H).
    apply bind_Ok in H as (t2 & Ht2 & H). injection H as <-. right.
    exists t2. eexists. split; [done|].
    rewrite (insert_col_values _ _ _ _ _ Ht2), (insert_col_values _ _ _ _ _ Ht1).
    reflexivity.
  - injection H as <-. by left.
Qed.

Definition one_row (d : DataFrame) : Prop := ∃ r, values d = [r].

Lemma foldM_value_rows f vals st st' :
  foldM (biasGroups_value func yt yh f) st vals = Ok st' →
  Forall one_row (res st.2) → Forall one_row (res st'.2).
Proof.
  revert st. induction vals as [|v vals IH]; intros st; simpl.
  - by intros [= <-].
  - intros (st1 & H1 & H2)%bind_Ok Hall. apply (IH st1 H2).
    destruct (biasGroups_value_res _ _ _ _ H1) as [->|(t & r & -> & Ht)]; [done|].
    apply Forall_app. split; [done|]. constructor; [by exists r|done].
Qed.

Variable num_repr : spec_float → string.

Lemma foldM_body_rows features st st' :
  foldM (biasGroups_body num_repr func yt yh) st features = Ok st' →
  Forall one_row (res st.2) → Forall one_row (res st'.2).
Proof.
  revert st. induction features as [|f l IH]; intros st; simpl.
  - by intros [= <-].
  - intros (st1 & H1 & H2)%bind_Ok Hall. apply (IH st1 H2).
    destruct st as [df sw]. unfold biasGroups_body in H1.
    apply bind_Ok in H1 as (colf & _ & H1).
    apply bind_Ok in H1 as (colf' & _ & H1).
    by eapply foldM_value_rows.
Qed.

(** A concatenation of one-row tables has a row. *)
Lemma collect_one_rows frames :
  Forall one_row frames → values (collect frames) = [] → collect frames = no_rows.
Proof.
  intros Hall. destruct frames as [|d ds]; [done|].
  change (collect (d :: ds)) with (concat (d :: ds)).
  apply Forall_cons in Hall as [[r Hr] _].
  unfold concat. cbn [values flat_map]. rewrite Hr. simpl. done.
Qed.

(** The metric function raises whatever it is given. *)
Definition always_raises : Prop :=
  ∀ a b p g, ∃ w e, func a b p g = (w, Raise e).

Lemma biasGroups_value_raises f df sw v :
  always_raises → f ∈ columns df → yt ∈ columns df → yh ∈ columns df →
  ∃ df' sw', biasGroups_value func yt yh f (df, sw) v = Ok (df', sw') ∧
             res sw' = res sw ∧ (∀ c, c ∈ columns df → c ∈ columns df').
Proof.
  intros Hraise Hf Hyt Hyh. unfold biasGroups_value.
  set (df0 := setcol df pa_name _).
  assert (H0 : ∀ c, c ∈ columns df → c ∈ columns df0)
    by (intros; by apply columns_setcol).
  assert (Hpa0 : pa_name ∈ columns df0) by apply columns_setcol_new.
  rewrite (getcol_Ok df0 f) by auto. cbn [mbind result_bind].
  match goal with |- context [setcol_where df0 ?m pa_name ?x] =>
    destruct (setcol_where_Ok df0 m pa_name x Hpa0) as (vals1 & ->) end.
  cbn [mbind result_bind].
  set (df1 := setcol df0 pa_name vals1).
  assert (H1 : ∀ c, c ∈ columns df0 → c ∈ columns df1)
    by (intros; by apply columns_setcol).
  assert (∃ df2, (if negb (v =? "nan")%string
                  then colf ← getcol df1 f;
                       setcol_where df1 (map (λ c, cell_eqb c (CStr "nan")) colf)
                                    pa_name nan
                  else Ok df1) = Ok df2 ∧ ∀ c, c ∈ columns df1 → c ∈ columns df2)
    as (df2 & -> & H2).
  { destruct (negb _); [|eauto].
    rewrite (getcol_Ok df1 f) by auto. cbn [mbind result_bind].
    match goal with |- context [setcol_where df1 ?m pa_name ?x] =>
      destruct (setcol_where_Ok df1 m pa_name x) as (vals2 & ->) end; [auto|].
    eexists. split; [done|]. intros; by apply columns_setcol. }
  cbn [mbind result_bind].
  rewrite (getcol_Ok df2 pa_name) by auto. cbn [mbind result_bind].
  destruct (nunique _ =? 1)%nat; [by eauto 10|].
  rewrite (getcol_Ok df2 yt), (getcol_Ok df2 yh) by auto.
  cbn [mbind result_bind].
  match goal with |- context [func ?a ?b ?p ?g] =>
    destruct (Hraise a b p g) as (w & e & ->) end.
  eexists _, _. split; [done|]. split; [done|]. auto.
Qed.

Lemma foldM_value_raises f vals df sw :
  always_raises → f ∈ columns df → yt ∈ columns df → yh ∈ columns df →
  ∃ df' sw', foldM (biasGroups_value func yt yh f) (df, sw) vals = Ok (df', sw') ∧
             res sw' = res sw ∧ (∀ c, c ∈ columns df → c ∈ columns df').
Proof.
  intros Hraise. revert df sw.
  induction vals as [|v vals IH]; intros df sw Hf Hyt Hyh; cbn [foldM];
    [by eauto 10|].
  destruct (biasGroups_value_raises f df sw v) as (df1 & sw1 & -> & Hres & Hsub);
    try done.
  cbn [mbind result_bind].
  destruct (IH df1 sw1) as (df2 & sw2 & -> & Hres2 & Hsub2); auto.
  eexists _, _. split; [done|]. split; [congruence|auto].
Qed.

Lemma biasGroups_body_raises f df sw :
  always_raises → f ∈ columns df → yt ∈ columns df → yh ∈ columns df →
  ∃ df' sw', biasGroups_body num_repr func yt yh (df, sw) f = Ok (df', sw') ∧
             res sw' = res sw ∧ (∀ c, c ∈ columns df → c ∈ columns df').
Proof.
  intros Hraise Hf Hyt Hyh. unfold biasGroups_body.
  rewrite (getcol_Ok df f) by done. cbn [mbind result_bind].
  set (df0 := setcol df f _).
  assert (H0 : ∀ c, c ∈ columns df → c ∈ columns df0)
    by (intros; by apply columns_setcol).
  rewrite (getcol_Ok df0 f) by apply columns_setcol_new.
  cbn [mbind result_bind].
  match goal with |- context [foldM _ (df0, sw) ?vals] =>
    destruct (foldM_value_raises f vals df0 sw) as (df1 & sw1 & -> & Hres & Hsub)
  end; auto using columns_setcol_new.
  eexists _, _. split; [done|]. split; [done|auto].
Qed.

Lemma foldM_body_raises features df sw :
  always_raises → (∀ f, f ∈ features → f ∈ columns df) →
  yt ∈ columns df → yh ∈ columns df →
  ∃ df' sw', foldM (biasGroups_body num_repr func yt yh) (df, sw) features
             = Ok (df', sw') ∧ res sw' = res sw.
Proof.
  intros Hraise. revert df sw.
  induction features as [|f l IH]; intros df sw Hfs Hyt Hyh; cbn [foldM];
    [by eauto|].
  destruct (biasGroups_body_raises f df sw) as (df1 & sw1 & -> & Hres & Hsub);
    auto; [apply Hfs; by left|].
  cbn [mbind result_bind].
  destruct (IH df1 sw1) as (df2 & sw2 & -> & Hres2); auto.
  { intros f' ?. apply Hsub, Hfs. by right. }
  eexists _, _. split; [done|congruence].
Qed.
End biasGroups_facts.

(** ** The region scenario for [__apply_biasGroups] *)

(** A two-group metric function: the selection ratio needs an observed
    positive in the group marked [priv_grp], and divides by zero without
    one. *)
Definition selection_ratio (y_true y_pred : Series) (pa_name : string)
    (priv_grp : Z) : outcome record :=
  let marked :=
    select (map (key_eqb [LNum (Z2SF priv_grp)]) (sindex y_true)) (svalues y_true) in
  if existsb (cell_eqb (num 1)) marked
  then ([], Ok [("Selection Ratio", CNum f_one)])
  else ([], Raise division_by_zero).

(** The indicator partitions of the region table: the observations of the
    value are marked 1, the others 0. *)
Definition marks (north south : Z) : list (list label) :=
  replicate 5 [LNum (Z2SF north)] ++ replicate 5 [LNum (Z2SF south)].
Definition region_y (north south : Z) : Series :=
  mkSeries [LStr "y"] (marks north south) (replicate 5 (num 1) ++ replicate 5 (num 0)).
Definition region_yh (north south : Z) : Series :=
  mkSeries [LStr "yh"] (marks north south) (replicate 10 (num 1)).

(** C2: on the region table, with a metric function that returns
    [{"Selection Ratio": 1.0}] on the indicator partition of the north and
    raises on the one of the south, [__apply_biasGroups] returns the single
    row [("region", "north")] and an error ledger with the single key
    [region]; the warning ledger is empty. *)
Theorem C2_region_north_row_south_error (num_repr : spec_float → string) :
  selection_ratio (region_y 1 0) (region_yh 1 0) pa_name 1
    = ([], Ok [("Selection Ratio", CNum f_one)]) ∧
  selection_ratio (region_y 0 1) (region_yh 0 1) pa_name 1
    = ([], Raise division_by_zero) ∧
  ∃ df' results errs warns,
    __apply_biasGroups num_repr selection_ratio "y" "yh" ["region"] region_table
      = Ok (df', (results, errs, warns)) ∧
    columns results = ["Feature Name"; "Feature Value"; "Selection Ratio"] ∧
    values results = [[CStr "region"; CStr "north"; CNum f_one]] ∧
    errs = {["region" := division_by_zero]} ∧
    warns = ∅.
Proof.
  split; [reflexivity|]. split; [reflexivity|].
  eexists _, _, _, _. split; [vm_compute; reflexivity|].
  split; [reflexivity|]. split; [reflexivity|]. split; reflexivity.
Qed.

(** ** C6: the empty table *)


(** Metric functions that raise on every call. *)
Definition raise_always (x : DataFrame) (_ : unit) : outcome record :=
  ([], Raise division_by_zero).
Definition bias_raise_always (y_true y_pred : Series) (pa : string) (g : Z)
    : outcome record :=
  ([], Raise division_by_zero).


(** ** C7: the privileged-group marker *)

Section reports_facts.
Variable num_repr : spec_float → string.
Variables yname yhname : string.
Variable raw : Type.
Variable stratified_preprocess :
  raw → option raw → option raw → option (list string) → result DataFrame.
Variable y_cols : DataFrame → option string * option string * option string.
Variable metric : string → Series → Series → string → Z → outcome spec_float.
Variable np_round : Z → spec_float → spec_float.
Variable subset : raw → list bool → raw.
Variable combine_cohorts : list (cell * result DataFrame) → result DataFrame.

Abbreviation body rep :=
  (bias_report_body num_repr yname yhname raw stratified_preprocess y_cols rep).

(** The wrapped report functions never read their keyword arguments. *)
Lemma bias_report_body_kwargs rep X y_true y_pred features (kw1 kw2 : kwargs_t) :
  body rep X y_true y_pred features kw1 = body rep X y_true y_pred features kw2.
Proof. reflexivity. Qed.

(** The cohort iterator reads the keyword [cohorts] and no other. *)
Lemma iterate_cohorts_kwargs rep X y_true y_pred features (kw1 kw2 : kwargs_t) :
  kw1 !! "cohorts" = kw2 !! "cohorts" →
  iterate_cohorts raw subset combine_cohorts (body rep) X y_true y_pred features kw1
  = iterate_cohorts raw subset combine_cohorts (body rep) X y_true y_pred features kw2.
Proof.
  intros H. unfold iterate_cohorts. rewrite H.
  destruct (kw2 !! "cohorts") as [[]|]; try reflexivity.
Qed.

Lemma same_cohorts (kw1 kw2 : kwargs_t) :
  delete "priv_grp" kw1 = delete "priv_grp" kw2 →
  kw1 !! "cohorts" = kw2 !! "cohorts".
Proof.
  intros H.
  assert (H1 : delete "priv_grp" kw1 !! "cohorts" = kw1 !! "cohorts")
    by (by apply lookup_delete_ne).
  assert (H2 : delete "priv_grp" kw2 !! "cohorts" = kw2 !! "cohorts")
    by (by apply lookup_delete_ne).
  rewrite <- H1, <- H2. by f_equal.
Qed.
End reports_facts.



(** ** C5: the column order of [sort_report] *)

Lemma positions_notin c cols : c ∉ cols → positions c cols = [].
Proof.
  induction cols as [|c' cols IH]; intros Hn; simpl; [done|].
  apply not_elem_of_cons in Hn as [Hne Hn].
  destruct (String.eqb_spec c' c) as [->|_]; [done|]. by rewrite IH.
Qed.

(** Under distinct column labels, a label has one position, the one
    [col_pos] finds. *)
Lemma positions_NoDup c cols :
  NoDup cols → c ∈ cols →
  ∃ j, positions c cols = [j] ∧ col_pos c cols = Some j.
Proof.
  induction 1 as [|c' cols Hn Hnd IH]; intros Hin; [by apply elem_of_nil in Hin|].
  simpl. rewrite (String.eqb_sym c c').
  destruct (String.eqb_spec c' c) as [->|Hne].
  - exists 0%nat. by rewrite positions_notin.
  - apply elem_of_cons in Hin as [->|Hin]; [done|].
    destruct (IH Hin) as (j & -> & ->). by exists (S j).
Qed.

Lemma col_pos_lookup c cols j : col_pos c cols = Some j → cols !! j = Some c.
Proof.
  revert j. induction cols as [|c' cols IH]; intros j; simpl; [done|].
  destruct (String.eqb_spec c c') as [->|Hne]; [by intros [= <-]|].
  destruct (col_pos c cols) as [j'|]; [|done]. intros [= <-]. by apply IH.
Qed.

Lemma col_pos_is_Some c cols : c ∈ cols → is_Some (col_pos c cols).
Proof.
  induction cols as [|c' cols IH]; intros Hin; simpl;
    [by apply elem_of_nil in Hin|].
  destruct (String.eqb_spec c c') as [->|Hne]; [eauto|].
  apply elem_of_cons in Hin as [->|Hin]; [done|].
  destruct (IH Hin) as [j ->]. simpl. eauto.
Qed.

(** Selecting present, distinct labels gives the columns asked for, and
    every column keeps its cells. *)
Lemma getitem_cols_Ok report cols :
  NoDup (columns report) → (∀ c, c ∈ cols → c ∈ columns report) →
  ∃ js, getitem_cols report cols
        = Ok (mkDF (index report) (index_names report) cols
                   (map (λ r, map (λ j, default nan (r !! j)) js) (values report))) ∧
        Forall2 (λ c j, col_pos c (columns report) = Some j) cols js.
Proof.
  intros Hnd Hin. unfold getitem_cols.
  assert (List.filter (λ c, negb (has_col report c)) cols = []) as ->.
  { induction cols as [|c cols IH]; simpl; [done|].
    unfold has_col at 1. rewrite bool_decide_eq_true_2 by (apply Hin; by left).
    simpl. apply IH. intros c' ?. apply Hin. by right. }
  assert (Hjs : ∃ js, flat_map (λ c, positions c (columns report)) cols = js ∧
                 Forall2 (λ c j, col_pos c (columns report) = Some j) cols js ∧
                 map (λ j, default "" (columns report !! j)) js = cols).
  { induction cols as [|c cols IH]; simpl; [by exists []|].
    destruct (positions_NoDup c (columns report) Hnd) as (j & -> & Hj);
      [apply Hin; by left|].
    destruct IH as (js & -> & Hall & Hmap); [intros c' ?; apply Hin; by right|].
    exists (j :: js). split; [done|]. split; [by constructor|].
    simpl. by rewrite (col_pos_lookup _ _ _ Hj), Hmap. }
  destruct Hjs as (js & -> & Hall & ->). eauto.
Qed.

Lemma row_get_reorder cols0 cols js r c :
  Forall2 (λ c j, col_pos c cols0 = Some j) cols js → c ∈ cols →
  row_get cols (map (λ j, default nan (r !! j)) js) c = row_get cols0 r c.
Proof.
  intros Hall Hin. unfold row_get.
  destruct (col_pos_is_Some c cols Hin) as [p Hp]. rewrite Hp.
  apply col_pos_lookup in Hp as Hcp.
  destruct (Forall2_lookup_l _ _ _ _ _ Hall Hcp) as (j & Hj & Hpos).
  rewrite Hpos. rewrite list_lookup_fmap, Hj. done.
Qed.

Lemma filter_sublist {A} (p : A → bool) (l : list A) : sublist (List.filter p l) l.
Proof.
  induction l as [|x l IH]; simpl; [constructor|].
  destruct (p x); by constructor.
Qed.

Lemma filter_split_Permutation {A} (p : A → bool) (l : list A) :
  List.filter p l ++ List.filter (λ x, negb (p x)) l ≡ₚ l.
Proof.
  induction l as [|x l IH]; simpl; [done|].
  destruct (p x); simpl; [by constructor|].
  rewrite <- Permutation_middle. by constructor.
Qed.

Lemma elem_of_filter_bool {A} (p : A → bool) (l : list A) x :
  x ∈ List.filter p l ↔ x ∈ l ∧ p x = true.
Proof. rewrite !list_elem_of_In. apply filter_In. Qed.

(** No name of the form [s ++ " Mean"] is one of the three fixed head
    labels, and the form determines [s]. *)
Lemma length_append (s t : string) :
  String.length (s ++ t)%string = (String.length s + String.length t)%nat.
Proof. induction s as [|a s IH]; simpl; [done|by rewrite IH]. Qed.

Lemma append_inj_l (s1 s2 t : string) : (s1 ++ t = s2 ++ t)%string → s1 = s2.
Proof.
  revert s2. induction s1 as [|a s1 IH]; intros [|b s2] H; simpl in H.
  - done.
  - apply (f_equal String.length) in H.
    rewrite ?length_append in H. simpl in H. rewrite ?length_append in H. lia.
  - apply (f_equal String.length) in H.
    rewrite ?length_append in H. simpl in H. rewrite ?length_append in H. lia.
  - injection H as -> H. f_equal. by apply IH.
Qed.

Lemma mean_not_fixed (s : string) :
  (s ++ " Mean")%string ∉ ["Feature Name"; "Feature Value"; "Obs."].
Proof.
  intros H. repeat (apply elem_of_cons in H as [H|H]);
    [| | |by apply elem_of_nil in H];
    repeat (destruct s as [|? s]; simpl in H;
            [discriminate H | first [discriminate H | injection H as _ H]]).
Qed.

Lemma head_names_NoDup yname yhname :
  yname ≠ yhname → NoDup (head_names yname yhname).
Proof.
  intros Hne. unfold head_names.
  assert (H1 := mean_not_fixed yname). assert (H2 := mean_not_fixed yhname).
  repeat constructor.
  - intros H. repeat (apply elem_of_cons in H as [H|H]); try discriminate H.
    + apply H1. rewrite <- H. by left.
    + apply H2. rewrite <- H. by left.
    + by apply elem_of_nil in H.
  - intros H. repeat (apply elem_of_cons in H as [H|H]); try discriminate H.
    + apply H1. rewrite <- H. right. by left.
    + apply H2. rewrite <- H. right. by left.
    + by apply elem_of_nil in H.
  - intros H. repeat (apply elem_of_cons in H as [H|H]); try discriminate H.
    + apply H1. rewrite <- H. right. right. by left.
    + apply H2. rewrite <- H. right. right. by left.
    + by apply elem_of_nil in H.
  - intros H. apply list_elem_of_singleton in H. by apply append_inj_l in H.
  - by intros H%elem_of_nil.
Qed.


(** A performance report whose columns come in no particular order. *)
Definition unsorted_report : DataFrame :=
  mkDF [[LInt 0]] [None]
       ["TPR"; "Obs."; "Feature Value"; "Accuracy"; "Feature Name"; "Target Mean"]
       [[CNum f_one; num 10; CStr "ALL VALUES"; CNum f_one; CStr "ALL FEATURES";
         CNum f_one]].


Example sort_report_unsorted :
  columns <$> sort_report "Target" "Pred." unsorted_report
  = Ok ["Feature Name"; "Feature Value"; "Obs."; "Target Mean"; "Accuracy"; "TPR"].
Proof. vm_compute. reflexivity. Qed.

(** ** C9: the validation of [sig_fig] *)

(** A computation that does not raise the error of the validation. *)
Definition res_safe {A} (r : result A) : Prop := r ≠ Raise invalid_sig_fig.
Definition m_safe {S A} (m : M S A) : Prop := ∀ s, res_safe (m s).2.

Lemma res_safe_bind {A B} (m : result A) (k : A → result B) :
  res_safe m → (∀ a, res_safe (k a)) → res_safe (m ≫= k).
Proof.
  intros Hm Hk. destruct m as [a|e]; [apply Hk|].
  intros H. apply Hm. injection H as ->. reflexivity.
Qed.

Lemma res_safe_fmap {A B} (f : A → B) (m : result A) :
  res_safe m → res_safe (f <$> m).
Proof.
  intros Hm. destruct m as [a|e]; [discriminate|].
  intros H. apply Hm. injection H as ->. reflexivity.
Qed.

Lemma res_safe_mapM {A B} (f : A → result B) (l : list A) :
  (∀ x, res_safe (f x)) → res_safe (mapM_res f l).
Proof.
  intros Hf. induction l as [|x l IH]; simpl; [done|].
  apply res_safe_bind; [done|]. intros y.
  apply res_safe_bind; [done|]. done.
Qed.

Create HintDb safe.

Ltac res_safe :=
  repeat match goal with
  | |- res_safe _ => solve [auto with safe]
  | |- res_safe (Ok _) => discriminate
  | |- res_safe (Raise _) => discriminate
  | |- res_safe (_ ≫= _) => apply res_safe_bind; [|intros ?]
  | |- res_safe (_ <$> _) => apply res_safe_fmap
  | |- res_safe (mapM_res _ _) => apply res_safe_mapM; intros ?
  | |- res_safe (if ?b then _ else _) => destruct b
  | |- res_safe (match ?x with _ => _ end) => destruct x
  end.

Lemma deref_safe h l : res_safe (deref h l).
Proof. unfold deref. res_safe. Qed.
#[local] Hint Resolve deref_safe : safe.

Lemma reset_index_safe d : res_safe (reset_index d).
Proof. unfold reset_index. res_safe. Qed.
#[local] Hint Resolve reset_index_safe : safe.

Lemma style_safe h l self : res_safe (style h l self).
Proof. unfold style. res_safe. Qed.
#[local] Hint Resolve style_safe : safe.

Lemma num_of_safe i : res_safe (num_of i).
Proof. unfold num_of. res_safe. Qed.
#[local] Hint Resolve num_of_safe : safe.

Lemma category_labels_safe h self cat names :
  res_safe (category_labels h self cat names).
Proof.
  unfold category_labels, loc_index, label_lower. res_safe.
Qed.
#[local] Hint Resolve category_labels_safe : safe.

Lemma run_color_safe fn h self s : res_safe (run_color fn h self s).
Proof.
  destruct fn; simpl;
    unfold color_diff, color_ratio, color_st, is_oor_diff, is_oor_ratio,
      is_oor_st, name_lower, label_lower;
    res_safe.
Qed.
#[local] Hint Resolve run_color_safe : safe.

Lemma render_safe h s : res_safe (render h s).
Proof.
  unfold render, apply_axis. res_safe.
Qed.
#[local] Hint Resolve render_safe : safe.

Lemma m_safe_bind {S A B} (m : M S A) (k : A → M S B) :
  m_safe m → (∀ a, m_safe (k a)) → m_safe (m ≫= k).
Proof.
  intros Hm Hk s. unfold mbind, M_bind. specialize (Hm s).
  destruct (m s) as [s' [a|e]]; simpl in *; [apply Hk|].
  intros H. apply Hm. injection H as ->. reflexivity.
Qed.

Lemma m_safe_reads {S A} (f : S → result A) :
  (∀ s, res_safe (f s)) → m_safe (reads f).
Proof. intros H s. apply H. Qed.

Lemma m_safe_ret {S A} (a : A) : m_safe (mret a : M S A).
Proof. intros s. discriminate. Qed.

Lemma m_safe_modify {S} (f : S → S) : m_safe (modify f).
Proof. intros s. discriminate. Qed.

Lemma reset_index_inplace_safe : m_safe reset_index_inplace.
Proof.
  intros w. unfold reset_index_inplace.
  assert (res_safe (deref w.2 (self_df w.1) ≫= reset_index)) as Hs by res_safe.
  destruct (deref w.2 (self_df w.1) ≫= reset_index) as [d'|e]; simpl;
    [discriminate|].
  intros H. apply Hs. injection H as ->. reflexivity.
Qed.

Lemma styled_with_safe cap ax : m_safe (styled_with cap ax).
Proof. apply m_safe_reads. intros w. res_safe. Qed.

Ltac m_safe :=
  repeat match goal with
  | |- m_safe (_ ≫= _) => apply m_safe_bind; [|intros ?]
  | |- m_safe (mret _) => apply m_safe_ret
  | |- m_safe (modify _) => apply m_safe_modify
  | |- m_safe (reads _) => apply m_safe_reads; intros ?; res_safe
  | |- m_safe reset_index_inplace => apply reset_index_inplace_safe
  | |- m_safe (styled_with _ _) => apply styled_with_safe
  | |- m_safe (if ?b then _ else _) => destruct b
  end.

Lemma apply_flag_safe df cap z as_styler :
  m_safe (apply_flag df cap (PInt z) as_styler).
Proof. unfold apply_flag. simpl. m_safe. Qed.

Definition plain_int (v : pyval) : bool :=
  match v with PInt _ => true | _ => false end.

(** C9: for a [sig_fig] that is not an integer, or is a boolean,
    [apply_flag] raises the [ValueError] of its validation and has touched
    neither the flagger nor the store: no report is bound and nothing is
    styled.  For an integer that is not a boolean no run of [apply_flag]
    raises that error. *)
Theorem C9_sig_fig_validation (self : Flagger) (h : store) (df : loc)
    (cap sig_fig : pyval) (as_styler : bool) :
  if plain_int sig_fig
  then ∀ w, apply_flag df cap sig_fig as_styler (self, h) ≠ (w, Raise invalid_sig_fig)
  else apply_flag df cap sig_fig as_styler (self, h)
       = ((self, h), Raise invalid_sig_fig).
Proof.
  destruct sig_fig as [|b|z|x|s|n col]; simpl; try reflexivity.
  intros w Heq. apply (apply_flag_safe df cap z as_styler (self, h)).
  by rewrite Heq.
Qed.

Example sig_fig_True h :
  flag 0%nat (PStr "") (PBool true) true h = (h, Raise invalid_sig_fig).
Proof. reflexivity. Qed.

(** ** C8: the caller's table *)

(** A computation that leaves the store as it found it. *)
Definition keeps_store {A} (m : M world A) : Prop := ∀ w, (m w).1.2 = w.2.

Lemma keeps_store_bind {A B} (m : M world A) (k : A → M world B) :
  keeps_store m → (∀ a, keeps_store (k a)) → keeps_store (m ≫= k).
Proof.
  intros Hm Hk w. unfold mbind, M_bind. specialize (Hm w).
  destruct (m w) as [w' [a|e]]; simpl in *; [|done].
  rewrite <- Hm. apply Hk.
Qed.

Lemma keeps_store_reads {A} (f : world → result A) : keeps_store (reads f).
Proof. done. Qed.

Lemma keeps_store_ret {A} (a : A) : keeps_store (mret a).
Proof. done. Qed.

Lemma styled_with_keeps cap ax : keeps_store (styled_with cap ax).
Proof. apply keeps_store_reads. Qed.

(** [apply_flag] resets the caller's table exactly when [sig_fig] is valid,
    the measures label the columns and an index key repeats. *)
Definition resets (d : DataFrame) (sig_fig : pyval) : bool :=
  plain_int sig_fig
  && negb (String.eqb (set_measure_labels d).2 "index")
  && (length (unique_by key_eqb (index d)) <? len d)%nat.

Lemma apply_flag_store (self : Flagger) (h : store) (df : loc) (d : DataFrame)
    (cap sig_fig : pyval) (as_styler : bool) :
  h !! df = Some d →
  (apply_flag df cap sig_fig as_styler (self, h)).1.2
  = if resets d sig_fig
    then match reset_index d with Ok d' => <[df := d']> h | Raise _ => h end
    else h.
Proof.
  intros Hd. unfold resets.
  destruct sig_fig as [|b|z|x|s|n col]; try reflexivity.
  unfold apply_flag.
  change (negb (isinstance_int (PInt z)) || isinstance_bool (PInt z)) with false.
  cbv iota. unfold mbind at 1 2 3 4 5, M_bind, modify, reads.
  unfold bind_df at 1. cbn [fst snd deref]. rewrite Hd. cbn [fmap result_fmap].
  unfold is_index, bind_labels. cbn [fst snd self_label_type]. cbn [plain_int andb].
  unfold bind_df. cbn [fst snd self_df self_flag_type self_flag_color].
  set (tl := λ styled : Styler, _).
  assert (∀ st, keeps_store (tl st)) as Htl.
  { intros st. unfold tl. destruct as_styler; [apply keeps_store_ret|].
    apply keeps_store_bind; [by intros w|]. intros r. apply keeps_store_ret. }
  destruct (String.eqb (set_measure_labels d).2 "index") eqn:Hix; cbn [negb andb].
  - apply (keeps_store_bind _ _ (styled_with_keeps _ _) Htl (_, h)).
  - unfold mbind at 1. unfold mbind at 1.
    cbn [fst snd self_df deref]. rewrite Hd. cbn [mbind result_bind].
    destruct (length (unique_by key_eqb (index d)) <? len d)%nat eqn:Hdup.
    + unfold mbind at 1. unfold reset_index_inplace at 1.
      cbn [fst snd self_df deref]. rewrite Hd.
      cbn [mbind result_bind default].
      destruct (reset_index d) as [d'|e]; [|reflexivity].
      exact (keeps_store_bind _ _ (styled_with_keeps _ _) Htl (_, <[df:=d']> h)).
    + unfold mbind at 1. unfold mret at 1, M_ret at 1.
      exact (keeps_store_bind _ _ (styled_with_keeps _ _) Htl (_, h)).
Qed.

Lemma flag_store (h : store) (df : loc) (cap sig_fig : pyval) (as_styler : bool) :
  (flag df cap sig_fig as_styler h).1
  = (apply_flag df cap sig_fig as_styler (Flagger_init, h)).1.2.
Proof.
  unfold flag.
  by destruct (apply_flag df cap sig_fig as_styler (Flagger_init, h)) as [[f h'] r].
Qed.

Definition f_half : spec_float := S754_finite false 4503599627370496 (-53).

(** A report with the measures in its columns and one index key for both
    rows, as a concatenation of one-row tables has. *)
Definition stacked_report : DataFrame :=
  mkDF [[LInt 0]; [LInt 0]] [None] ["Feature Value"; "PPV Ratio"]
       [[CStr "north"; CNum f_half]; [CStr "south"; CNum f_one]].

(** The same report with a key per row. *)
Definition ranged_report : DataFrame :=
  mkDF (RangeIndex 2) [None] ["Feature Value"; "PPV Ratio"]
       [[CStr "north"; CNum f_half]; [CStr "south"; CNum f_one]].

(** The table the caller passed is the table the caller still has. *)
Definition leaves_table (h : store) (df : loc) (cap sig_fig : pyval)
    (as_styler : bool) : Prop :=
  (flag df cap sig_fig as_styler h).1 !! df = h !! df.




Example ranged_report_is_kept :
  resets ranged_report (PInt 4) = false ∧ resets stacked_report (PInt 4) = true.
Proof. split; vm_compute; reflexivity. Qed.

Example stacked_report_after_flag :
  (flag 0%nat (PStr "") (PInt 4) true {[0%nat := stacked_report]}).1 !! 0%nat
  = Some (mkDF (RangeIndex 2) [None] ["index"; "Feature Value"; "PPV Ratio"]
            [[num 0; CStr "north"; CNum f_half]; [num 0; CStr "south"; CNum f_one]]).
Proof. vm_compute. reflexivity. Qed.

(** ** C3 and C4: the cells the three passes flag *)

Lemma mapM_res_Forall2 {A B} (f : A → result B) (l : list A) (ys : list B) :
  mapM_res f l = Ok ys → Forall2 (λ x y, f x = Ok y) l ys.
Proof.
  revert ys. induction l as [|a l IH]; intros ys Hm; simpl in Hm.
  - injection Hm as <-. constructor.
  - destruct (f a) as [y|e] eqn:Hfa; [|discriminate Hm]. cbn [mbind result_bind] in Hm.
    destruct (mapM_res f l) as [ys'|e] eqn:Hl; [|discriminate Hm].
    cbn [mbind result_bind] in Hm. injection Hm as <-. constructor; auto.
Qed.

Lemma mapM_res_lookup {A B} (f : A → result B) (l : list A) (ys : list B) k x :
  mapM_res f l = Ok ys → l !! k = Some x → ∃ y, ys !! k = Some y ∧ f x = Ok y.
Proof.
  intros Hm Hk. apply mapM_res_Forall2 in Hm.
  destruct (Forall2_lookup_l _ _ _ _ _ Hm Hk) as (y & Hy & Hf). eauto.
Qed.

(** The membership test of a pass: by name when the measures label the
    columns, by index key within a category when they label the rows. *)
Definition member (h : store) (self : Flagger) (k : list label) (cat : string)
    (names : list string) : result bool :=
  if is_index self
  then lbls ← category_labels h self cat names; Ok (key_in k lbls)
  else n ← name_lower k; Ok (str_in n names).

Lemma color_diff_cell h self s clr k c :
  color_diff h self s = Ok clr → svalues s !! k = Some c →
  ∃ m b, member h self (sname s) "Group Fairness" diffs = Ok m ∧
         (if m : bool then is_oor_diff c = Ok b else b = false) ∧
         clr !! k = Some (if b : bool then flag_css self else "").
Proof.
  unfold color_diff, member. destruct (is_index self).
  - destruct (category_labels h self "Group Fairness" diffs) as [lbls|e];
      cbn [mbind result_bind]; [|discriminate].
    intros Hm Hk. destruct (mapM_res_lookup _ _ _ _ _ Hm Hk) as (y & Hy & Hf).
    exists (key_in (sname s) lbls). destruct (key_in (sname s) lbls).
    + destruct (is_oor_diff c) as [b|e]; cbn [mbind result_bind] in Hf;
        [|discriminate Hf].
      injection Hf as <-. by exists b.
    + injection Hf as <-. by exists false.
  - intros Hm Hk. destruct (mapM_res_lookup _ _ _ _ _ Hm Hk) as (y & Hy & Hf).
    destruct (name_lower (sname s)) as [n|e]; cbn [mbind result_bind] in *;
      [|discriminate Hf].
    exists (str_in n diffs). destruct (str_in n diffs).
    + destruct (is_oor_diff c) as [b|e]; cbn [mbind result_bind] in Hf;
        [|discriminate Hf].
      injection Hf as <-. by exists b.
    + injection Hf as <-. by exists false.
Qed.

Lemma color_ratio_cell h self s clr k c :
  color_ratio h self s = Ok clr → svalues s !! k = Some c →
  ∃ m b, member h self (sname s) "Group Fairness" ratios = Ok m ∧
         (if m : bool then is_oor_ratio c = Ok b else b = false) ∧
         clr !! k = Some (if b : bool then flag_css self else "").
Proof.
  unfold color_ratio, member. destruct (is_index self).
  - destruct (category_labels h self "Group Fairness" ratios) as [lbls|e];
      cbn [mbind result_bind]; [|discriminate].
    intros Hm Hk. destruct (mapM_res_lookup _ _ _ _ _ Hm Hk) as (y & Hy & Hf).
    exists (key_in (sname s) lbls). destruct (key_in (sname s) lbls).
    + destruct (is_oor_ratio c) as [b|e]; cbn [mbind result_bind] in Hf;
        [|discriminate Hf].
      injection Hf as <-. by exists b.
    + injection Hf as <-. by exists false.
  - intros Hm Hk. destruct (mapM_res_lookup _ _ _ _ _ Hm Hk) as (y & Hy & Hf).
    destruct (name_lower (sname s)) as [n|e]; cbn [mbind result_bind] in *;
      [|discriminate Hf].
    exists (str_in n ratios). destruct (str_in n ratios).
    + destruct (is_oor_ratio c) as [b|e]; cbn [mbind result_bind] in Hf;
        [|discriminate Hf].
      injection Hf as <-. by exists b.
    + injection Hf as <-. by exists false.
Qed.

Lemma color_st_cell h self s clr k c :
  color_st h self s = Ok clr → svalues s !! k = Some c →
  ∃ ml mh b, member h self (sname s) "Individual Fairness" stats_low = Ok ml ∧
             member h self (sname s) "Individual Fairness" stats_high = Ok mh ∧
             is_oor_st ml mh c = Ok b ∧
             clr !! k = Some (if b : bool then flag_css self else "").
Proof.
  unfold color_st, member. destruct (is_index self).
  - destruct (category_labels h self "Individual Fairness" stats_high) as [lh|e];
      cbn [mbind result_bind]; [|discriminate].
    destruct (category_labels h self "Individual Fairness" stats_low) as [ll|e];
      cbn [mbind result_bind]; [|discriminate].
    intros Hm Hk. destruct (mapM_res_lookup _ _ _ _ _ Hm Hk) as (y & Hy & Hf).
    exists (key_in (sname s) ll), (key_in (sname s) lh).
    destruct (is_oor_st (key_in (sname s) ll) (key_in (sname s) lh) c) as [b|e];
      cbn [mbind result_bind] in Hf; [|discriminate Hf].
    injection Hf as <-. by exists b.
  - intros Hm Hk. destruct (mapM_res_lookup _ _ _ _ _ Hm Hk) as (y & Hy & Hf).
    destruct (name_lower (sname s)) as [n|e]; cbn [mbind result_bind] in *;
      [|discriminate Hf].
    exists (str_in n stats_low), (str_in n stats_high).
    destruct (is_oor_st (str_in n stats_low) (str_in n stats_high) c) as [b|e];
      cbn [mbind result_bind] in Hf; [|discriminate Hf].
    injection Hf as <-. by exists b.
Qed.

(** *** Membership, by layout *)

Lemma lookup_map {A B} (f : A → B) (l : list A) (i : nat) :
  map f l !! i = f <$> (l !! i).
Proof. exact (list_lookup_fmap f l i). Qed.

Lemma member_columns h self nm cat names :
  is_index self = false →
  member h self [LStr nm] cat names = Ok (str_in (lower nm) names).
Proof. intros Hix. unfold member. by rewrite Hix. Qed.

Lemma label_eqb_LStr s a : label_eqb (LStr s) a = true → a = LStr s.
Proof. destruct a; simpl; try discriminate. by intros ->%String.eqb_eq. Qed.

Lemma key_eqb_pair c nm k :
  key_eqb [LStr c; LStr nm] k = true → k = [LStr c; LStr nm].
Proof.
  destruct k as [|a [|b [|? ?]]]; simpl; try discriminate.
  - by rewrite andb_false_r.
  - rewrite andb_true_r. intros [Ha Hb]%andb_true_iff.
    by rewrite (label_eqb_LStr _ _ Ha), (label_eqb_LStr _ _ Hb).
  - by rewrite !andb_false_r.
Qed.

Lemma key_eqb_pair_refl c nm : key_eqb [LStr c; LStr nm] [LStr c; LStr nm] = true.
Proof. simpl. by rewrite !String.eqb_refl. Qed.

Lemma elem_of_select {A} (mask : list bool) (l : list A) (x : A) :
  x ∈ select mask l ↔ ∃ i, l !! i = Some x ∧ mask !! i = Some true.
Proof.
  revert l. induction mask as [|b mask IH]; intros [|y l]; simpl.
  - rewrite elem_of_nil. split; [done|]. by intros (i & ? & ?).
  - rewrite elem_of_nil. split; [done|]. by intros (i & ? & ?).
  - rewrite elem_of_nil. split; [done|]. by intros (i & ? & ?).
  - destruct b.
    + rewrite elem_of_cons, IH. split.
      * intros [->|(i & ? & ?)]; [by exists 0%nat|by exists (S i)].
      * intros ([|i] & Hl & Hm); simpl in *; [left; congruence|right; eauto].
    + rewrite IH. split.
      * intros (i & ? & ?). by exists (S i).
      * intros ([|i] & Hl & Hm); simpl in *; [congruence|eauto].
Qed.

Lemma key_in_true k lbls :
  key_in k lbls = true ↔ ∃ k', k' ∈ lbls ∧ key_eqb k k' = true.
Proof.
  unfold key_in. rewrite existsb_exists.
  split; intros (k' & Hin & He); exists k'; split; try done;
    by apply list_elem_of_In.
Qed.

(** The flagger [apply_flag] works with once the report is bound. *)
Definition bound_flagger (df : loc) (d : DataFrame) : Flagger :=
  mkFlagger (Some df) (Some (set_measure_labels d).1)
            (Some (set_measure_labels d).2) (Some "background-color")
            (Some "magenta").

Lemma set_measure_labels_index d :
  (set_measure_labels d).2 = "index" →
  (set_measure_labels d).1 = map (λ k, default (LStr "") (k !! 1%nat)) (index d).
Proof.
  unfold set_measure_labels, get_level_values.
  destruct (1 <? length (index_names d))%nat; [|discriminate].
  destruct (forallb is_int_label _); [discriminate|]. done.
Qed.

Lemma member_index h df d i c nm cat names m :
  h !! df = Some d →
  (set_measure_labels d).2 = "index" →
  index d !! i = Some [LStr c; LStr nm] →
  member h (bound_flagger df d) [LStr c; LStr nm] cat names = Ok m →
  m = String.eqb c cat && str_in (lower nm) names.
Proof.
  intros Hd Hix Hi. unfold member, is_index, category_labels.
  cbn [bound_flagger self_label_type self_labels self_df default deref].
  rewrite Hix, Hd, (set_measure_labels_index d Hix). cbn [String.eqb Ascii.eqb].
  change ("index" =? "index") with true. cbv iota.
  destruct (mapM_res _ _) as [mask|e] eqn:Hmask; cbn [mbind result_bind];
    [|discriminate].
  unfold loc_index. destruct (existsb _ _); cbn [mbind result_bind]; [|discriminate].
  intros [= <-]. apply mapM_res_Forall2 in Hmask. unfold id in Hmask.
  apply Bool.eq_iff_eq_true. rewrite key_in_true, andb_true_iff. split.
  - intros (k' & Hin & He). apply key_eqb_pair in He as ->.
    apply elem_of_select in Hin as (i' & Hi' & Hm).
    apply lookup_zip_with_Some in Hm as (a & b & Hab & Ha & Hb).
    symmetry in Hab. apply andb_true_iff in Hab as [-> ->].
    rewrite lookup_map, Hi' in Ha. simpl in Ha.
    destruct (Forall2_lookup_r _ _ _ _ _ Hmask Hb) as (lab & Hlab & Hf).
    rewrite lookup_map, Hi' in Hlab. simpl in Hlab.
    injection Hlab as <-. simpl in Hf. split; congruence.
  - intros [Hc Hn]. exists [LStr c; LStr nm]. split; [|apply key_eqb_pair_refl].
    apply elem_of_select. exists i. split; [done|].
    assert (map (λ k, default (LStr "") (k !! 1%nat)) (index d) !! i = Some (LStr nm))
      as Hlab by by rewrite lookup_map, Hi.
    destruct (Forall2_lookup_l _ _ _ _ _ Hmask Hlab) as (b & Hb & Hf).
    simpl in Hf. injection Hf as <-.
    apply lookup_zip_with_Some. exists true, true.
    rewrite lookup_map, Hi. simpl. rewrite Hc, <- Hn. done.
Qed.

(** *** From the styles of a row or column to the cells of the view *)

Lemma flag_css_nonempty self : nonempty (flag_css self) = true.
Proof.
  unfold flag_css, nonempty.
  by destruct (default "None" (self_flag_type self)).
Qed.

Lemma nonempty_mark self (b : bool) :
  nonempty (if b then flag_css self else "") = b.
Proof. destruct b; [apply flag_css_nonempty|done]. Qed.

Lemma apply_axis_rows fn t g i j key row :
  apply_axis fn 1 t = Ok g →
  index t !! i = Some key → values t !! i = Some row →
  ∃ clr, fn (mkSeries key (map (λ c, [LStr c]) (columns t)) row) = Ok clr ∧
         grid_at g i j = default "" (clr !! j).
Proof.
  unfold apply_axis. change (1 =? 0)%Z with false. cbv iota.
  intros Hg Hk Hr.
  assert (zip (index t) (values t) !! i = Some (key, row)) as Hz.
  { apply lookup_zip_with_Some. eauto. }
  destruct (mapM_res_lookup _ _ _ _ _ Hg Hz) as (clr & Hclr & Hfn).
  exists clr. split; [exact Hfn|]. unfold grid_at. by rewrite Hclr.
Qed.

Lemma apply_axis_cols fn t g i j nm row :
  apply_axis fn 0 t = Ok g →
  columns t !! j = Some nm → values t !! i = Some row →
  ∃ clr, fn (mkSeries [LStr nm] (index t) (column t j)) = Ok clr ∧
         grid_at g i j = default "" (clr !! i).
Proof.
  unfold apply_axis. change (0 =? 0)%Z with true. cbv iota.
  intros Hg Hc Hr.
  destruct (mapM_res _ _) as [cols|e] eqn:Hcols; cbn [mbind result_bind] in Hg;
    [|discriminate Hg].
  injection Hg as <-.
  assert (imap pair (columns t) !! j = Some (j, nm)) as Hj
    by by rewrite list_lookup_imap, Hc.
  destruct (mapM_res_lookup _ _ _ _ _ Hcols Hj) as (clr & Hclr & Hfn).
  exists clr. split; [exact Hfn|]. unfold grid_at.
  rewrite list_lookup_imap, Hr. simpl. by rewrite lookup_map, Hclr.
Qed.

Definition passes (ax : Z) : list (color_fn * Z) :=
  [(color_diff_fn, ax); (color_ratio_fn, ax); (color_st_fn, ax)].

Lemma render_flagged h S r ax :
  todo S = passes ax → render h S = Ok r →
  ∃ gd gr gs,
    h !! data S = Some (r_frame r) ∧
    apply_axis (color_diff h (owner S)) ax (r_frame r) = Ok gd ∧
    apply_axis (color_ratio h (owner S)) ax (r_frame r) = Ok gr ∧
    apply_axis (color_st h (owner S)) ax (r_frame r) = Ok gs ∧
    ∀ i j row c, values (r_frame r) !! i = Some row → row !! j = Some c →
      flagged r i j
      = nonempty (grid_at gd i j) || nonempty (grid_at gr i j)
        || nonempty (grid_at gs i j).
Proof.
  intros Htodo. unfold render, deref. rewrite Htodo.
  destruct (h !! data S) as [t|]; cbn [mbind result_bind]; [|discriminate].
  unfold passes. cbn [mapM_res fst snd run_color].
  destruct (apply_axis (color_diff h (owner S)) ax t) as [gd|e] eqn:Hgd;
    cbn [mbind result_bind]; [|discriminate].
  destruct (apply_axis (color_ratio h (owner S)) ax t) as [gr|e] eqn:Hgr;
    cbn [mbind result_bind]; [|discriminate].
  destruct (apply_axis (color_st h (owner S)) ax t) as [gs|e] eqn:Hgs;
    cbn [mbind result_bind]; [|discriminate].
  intros [= <-]. exists gd, gr, gs. cbn [r_frame].
  do 4 (split; [done|]).
  intros i j row c Hrow Hc. unfold flagged. cbn [ctx].
  rewrite list_lookup_imap, Hrow. cbn [fmap option_fmap option_map mbind option_bind].
  rewrite list_lookup_imap, Hc. cbn [fmap option_fmap option_map map List.filter].
  by destruct (nonempty (grid_at gd i j)), (nonempty (grid_at gr i j)),
    (nonempty (grid_at gs i j)).
Qed.

(** *** The view [flag] returns *)

(** What a caller sees of the result: a styler is rendered on display. *)
Definition view (h : store) (o : flag_out) : result Rendered :=
  match o with
  | Styled s => render h s
  | Html r => Ok r
  end.

(** The last steps of [apply_flag]. *)
Definition finish (sig_fig : pyval) (as_styler : bool) (styled : Styler)
    : M world flag_out :=
  let styled := set_precision styled sig_fig in
  if as_styler then mret (Styled styled)
  else r ← reads (λ w : world, render w.2 styled); mret (Html r).

Lemma styled_finish cap ax sig_fig as_styler b h1 w o df :
  (styled_with cap ax ≫= finish sig_fig as_styler) (b, h1) = (w, Ok o) →
  self_df b = Some df →
  w.2 = h1 ∧
  view w.2 o = render w.2 (mkStyler df cap (Some sig_fig) (passes ax) b).
Proof.
  intros Hrun Hdf. unfold mbind at 1, M_bind at 1, styled_with, reads in Hrun.
  cbn [fst snd] in Hrun. rewrite Hdf in Hrun. unfold style in Hrun.
  destruct (deref h1 (Some df)) as [d1|e]; cbn [mbind result_bind] in Hrun;
    [|discriminate Hrun].
  destruct (is_unique key_eqb (index d1) && is_unique String.eqb (columns d1));
    cbn [mbind result_bind] in Hrun; [|discriminate Hrun].
  unfold finish in Hrun. destruct as_styler.
  - injection Hrun as <- <-. split; [done|]. reflexivity.
  - unfold mbind, M_bind, reads in Hrun. cbn [fst snd] in Hrun.
    match type of Hrun with context [render h1 ?S] =>
      change (render h1 S) with
        (render h1 (mkStyler df cap (Some sig_fig) (passes ax) b)) in Hrun end.
    destruct (render h1 _) as [r0|e] eqn:Hr; [|discriminate Hrun].
    injection Hrun as <- <-. split; [done|]. cbn [snd view]. by rewrite Hr.
Qed.

Lemma M_assoc {S A B C} (m : M S A) (k : A → M S B) (f : B → M S C) (s : S) :
  ((m ≫= k) ≫= f) s = (m ≫= (λ a, k a ≫= f)) s.
Proof. unfold mbind, M_bind. by destruct (m s) as [s' [a|e]]. Qed.

Lemma M_reads_bind {S A B} (f : S → result A) (k : A → M S B) (s : S) :
  (reads f ≫= k) s = match f s with Ok a => k a s | Raise e => (s, Raise e) end.
Proof. reflexivity. Qed.

Lemma M_ret_bind {S A B} (a : A) (k : A → M S B) (s : S) : (mret a ≫= k) s = k a s.
Proof. reflexivity. Qed.

Lemma flag_view h h' df d cap sig_fig as_styler o r :
  h !! df = Some d →
  flag df cap sig_fig as_styler h = (h', Ok o) →
  view h' o = Ok r →
  ∃ S ax, render h' S = Ok r ∧ data S = df ∧ owner S = bound_flagger df d ∧
          todo S = passes ax ∧
          ax = (if String.eqb (set_measure_labels d).2 "index" then 1 else 0)%Z ∧
          (String.eqb (set_measure_labels d).2 "index" = true → h' = h).
Proof.
  intros Hd Hflag Hview. unfold flag in Hflag.
  destruct (apply_flag df cap sig_fig as_styler (Flagger_init, h))
    as [[f h1] res] eqn:Hrun.
  injection Hflag as -> ->.
  destruct sig_fig as [|b|z|x|s|n col]; try discriminate Hrun.
  unfold apply_flag in Hrun.
  change (negb (isinstance_int (PInt z)) || isinstance_bool (PInt z)) with false in Hrun.
  cbv iota in Hrun. unfold mbind at 1 2 3 4 5, M_bind at 1 2 3 4 5, modify in Hrun.
  unfold reads at 1 2 in Hrun.
  unfold bind_df at 1 in Hrun. cbn [fst snd deref] in Hrun. rewrite Hd in Hrun.
  cbn [fmap result_fmap] in Hrun.
  unfold is_index, bind_labels in Hrun. cbn [fst snd self_label_type] in Hrun.
  unfold bind_df in Hrun.
  cbn [fst snd self_df reset Flagger_init self_flag_type self_flag_color] in Hrun.
  change (λ styled : Styler, _) with (finish (PInt z) as_styler) in Hrun.
  change (mkFlagger _ _ _ _ _) with (bound_flagger df d) in Hrun.
  set (cap' := match cap with PNone => PStr "Fairness Measures" | _ => cap end) in Hrun.
  destruct (String.eqb (set_measure_labels d).2 "index") eqn:Hix.
  - apply (styled_finish _ _ _ _ _ _ _ _ df) in Hrun as [Hh Hv]; [|done].
    cbn [snd] in Hh, Hv. rewrite Hv in Hview.
    by eexists _, _.
  - rewrite M_assoc, M_reads_bind in Hrun. cbn [fst snd bound_flagger self_df deref] in Hrun.
    rewrite Hd in Hrun. cbn [mbind result_bind] in Hrun. rewrite M_assoc in Hrun.
    destruct (length (unique_by key_eqb (index d)) <? len d)%nat.
    + unfold mbind at 1, M_bind at 1, reset_index_inplace in Hrun.
      cbn [fst snd bound_flagger self_df deref] in Hrun. rewrite Hd in Hrun.
      cbn [mbind result_bind] in Hrun.
      destruct (reset_index d) as [d'|e]; [|discriminate Hrun].
      apply (styled_finish _ _ _ _ _ _ _ _ df) in Hrun as [Hh Hv]; [|done].
      cbn [snd] in Hv. rewrite Hv in Hview.
      by eexists _, _.
    + rewrite M_ret_bind in Hrun.
      apply (styled_finish _ _ _ _ _ _ _ _ df) in Hrun as [Hh Hv]; [|done].
      cbn [snd] in Hv. rewrite Hv in Hview.
      by eexists _, _.
Qed.

(** *** The flag of a cell *)

(** The measure a cell belongs to: the second level of its index key, with
    the first level as category, when the measures label the rows; its
    column label otherwise. *)
Definition measure_name (layout : string) (t : DataFrame) (i j : nat)
    : option (option string * string) :=
  if String.eqb layout "index" then
    match index t !! i with
    | Some [LStr cat; LStr nm] => Some (Some cat, nm)
    | _ => None
    end
  else (λ nm, (None, nm)) <$> columns t !! j.

Definition cell_at (t : DataFrame) (i j : nat) : option cell :=
  values t !! i ≫= (λ row, row !! j).

(** A pass looks at a cell when the lower-cased name is in its list and, for
    measures that label the rows, the row is of its category. *)
Definition gate (cat : option string) (nm category : string) (names : list string)
    : bool :=
  match cat with Some c => String.eqb c category | None => true end
  && str_in (lower nm) names.

Lemma is_index_bound df d :
  is_index (bound_flagger df d) = String.eqb (set_measure_labels d).2 "index".
Proof. reflexivity. Qed.

Lemma flagged_cell h h' df d cap sig_fig as_styler o r i j cat nm c :
  h !! df = Some d →
  flag df cap sig_fig as_styler h = (h', Ok o) →
  view h' o = Ok r →
  measure_name (set_measure_labels d).2 (r_frame r) i j = Some (cat, nm) →
  cell_at (r_frame r) i j = Some c →
  ∃ bd br bs : bool,
    (if gate cat nm "Group Fairness" diffs then is_oor_diff c = Ok bd
     else bd = false) ∧
    (if gate cat nm "Group Fairness" ratios then is_oor_ratio c = Ok br
     else br = false) ∧
    is_oor_st (gate cat nm "Individual Fairness" stats_low)
              (gate cat nm "Individual Fairness" stats_high) c = Ok bs ∧
    flagged r i j = bd || br || bs.
Proof.
  intros Hd Hflag Hview Hname Hcell.
  destruct (flag_view _ _ _ _ _ _ _ _ _ Hd Hflag Hview)
    as (S & ax & Hrender & Hdata & Hown & Htodo & Hax & Hh).
  destruct (render_flagged _ _ _ _ Htodo Hrender)
    as (gd & gr & gs & Ht & Hgd & Hgr & Hgs & Hfl).
  rewrite Hown in Hgd, Hgr, Hgs. rewrite Hdata in Ht.
  unfold cell_at in Hcell.
  destruct (values (r_frame r) !! i) as [row|] eqn:Hrow; [|discriminate Hcell].
  cbn [mbind option_bind] in Hcell.
  rewrite (Hfl i j row c Hrow Hcell). clear Hfl.
  unfold measure_name in Hname.
  destruct (String.eqb (set_measure_labels d).2 "index") eqn:Hix.
  - (* the measures label the rows *)
    apply String.eqb_eq in Hix as Hlayout.
    rewrite (Hh eq_refl) in Ht. rewrite Hd in Ht. injection Ht as Ht.
    destruct (index (r_frame r) !! i) as [[|[| |c0] [|[| |n0] [|]]]|] eqn:Hkey;
      try discriminate Hname.
    injection Hname as <- <-. subst ax.
    destruct (apply_axis_rows _ _ _ i j _ row Hgd Hkey Hrow) as (cd & Hcd & ->).
    destruct (apply_axis_rows _ _ _ i j _ row Hgr Hkey Hrow) as (cr & Hcr & ->).
    destruct (apply_axis_rows _ _ _ i j _ row Hgs Hkey Hrow) as (cs & Hcs & ->).
    rewrite <- Ht in Hkey.
    destruct (color_diff_cell _ _ _ _ j c Hcd Hcell) as (md & bd & Hmd & Hbd & ->).
    destruct (color_ratio_cell _ _ _ _ j c Hcr Hcell) as (mr & br & Hmr & Hbr & ->).
    destruct (color_st_cell _ _ _ _ j c Hcs Hcell)
      as (ml & mh & bs & Hml & Hmh & Hbs & ->).
    cbn [sname] in Hmd, Hmr, Hml, Hmh. rewrite (Hh eq_refl) in Hmd, Hmr, Hml, Hmh.
    apply (member_index _ _ _ i _ _ _ _ _ Hd Hlayout Hkey) in Hmd, Hmr, Hml, Hmh.
    subst md mr ml mh. cbn [default from_option id]. rewrite !nonempty_mark.
    exists bd, br, bs. unfold gate. done.
  - (* the measures label the columns *)
    destruct (columns (r_frame r) !! j) as [n0|] eqn:Hcol; [|discriminate Hname].
    injection Hname as <- <-. subst ax.
    destruct (apply_axis_cols _ _ _ i j _ row Hgd Hcol Hrow) as (cd & Hcd & ->).
    destruct (apply_axis_cols _ _ _ i j _ row Hgr Hcol Hrow) as (cr & Hcr & ->).
    destruct (apply_axis_cols _ _ _ i j _ row Hgs Hcol Hrow) as (cs & Hcs & ->).
    assert (column (r_frame r) j !! i = Some c) as Hc.
    { unfold column. by rewrite lookup_map, Hrow; simpl; rewrite Hcell. }
    destruct (color_diff_cell _ _ _ _ i c Hcd Hc) as (md & bd & Hmd & Hbd & ->).
    destruct (color_ratio_cell _ _ _ _ i c Hcr Hc) as (mr & br & Hmr & Hbr & ->).
    destruct (color_st_cell _ _ _ _ i c Hcs Hc)
      as (ml & mh & bs & Hml & Hmh & Hbs & ->).
    cbn [sname] in Hmd, Hmr, Hml, Hmh.
    rewrite member_columns in Hmd, Hmr, Hml, Hmh by by rewrite is_index_bound.
    injection Hmd as <-. injection Hmr as <-. injection Hml as <-. injection Hmh as <-.
    cbn [default from_option id]. rewrite !nonempty_mark.
    exists bd, br, bs. unfold gate. done.
Qed.

(** *** The lists and the predicates *)

Lemma str_in_true n names : str_in n names = true ↔ n ∈ names.
Proof. unfold str_in. by rewrite bool_decide_eq_true. Qed.

Lemma str_in_false n names : str_in n names = false ↔ n ∉ names.
Proof. unfold str_in. by rewrite bool_decide_eq_false. Qed.

(** No name is in two lists. *)
Definition in_lists (n : string) : list bool :=
  [str_in n diffs; str_in n ratios; str_in n stats_low; str_in n stats_high].

Lemma lists_disjoint n :
  (n ∈ diffs → in_lists n = [true; false; false; false]) ∧
  (n ∈ ratios → in_lists n = [false; true; false; false]) ∧
  (n ∈ stats_low → in_lists n = [false; false; true; false]) ∧
  (n ∈ stats_high → in_lists n = [false; false; false; true]).
Proof.
  split; [|split; [|split]]; intros Hn;
    repeat (apply elem_of_cons in Hn as [->|Hn]);
    try (by apply elem_of_nil in Hn); vm_compute; reflexivity.
Qed.

(** A lower-cased name has no capital letter. *)
Fixpoint has_upper (s : string) : bool :=
  match s with
  | EmptyString => false
  | String a s =>
      ((65 <=? nat_of_ascii a)%nat && (nat_of_ascii a <=? 90)%nat) || has_upper s
  end.

Lemma lower_ascii_not_upper a :
  ((65 <=? nat_of_ascii (lower_ascii a))%nat
   && (nat_of_ascii (lower_ascii a) <=? 90)%nat) = false.
Proof.
  unfold lower_ascii.
  destruct ((65 <=? nat_of_ascii a)%nat && (nat_of_ascii a <=? 90)%nat) eqn:Hup;
    [|exact Hup].
  apply andb_true_iff in Hup as [H1%Nat.leb_le H2%Nat.leb_le].
  rewrite nat_ascii_embedding by lia.
  apply andb_false_iff. right. apply Nat.leb_gt. lia.
Qed.

Lemma lower_has_no_upper s : has_upper (lower s) = false.
Proof.
  induction s as [|a s IH]; [done|]. cbn [lower has_upper].
  by rewrite lower_ascii_not_upper, IH.
Qed.

Lemma SFltb_not_nan_l x y : SFltb x y = true → is_nan x = false.
Proof. by destruct x. Qed.

Lemma SFltb_not_nan_r x y : SFltb x y = true → is_nan y = false.
Proof. by destruct x, y. Qed.

Lemma is_oor_st_none c : is_oor_st false false c = Ok false.
Proof. reflexivity. Qed.

Lemma is_oor_st_high v : is_oor_st false true (CNum v) = Ok (SFltb v f_0_8).
Proof.
  unfold is_oor_st. cbn [mbind result_bind num_of].
  destruct (SFltb v f_0_8) eqn:Hlt; [|done].
  by rewrite (SFltb_not_nan_l _ _ Hlt).
Qed.

Lemma is_oor_st_low v : is_oor_st true false (CNum v) = Ok (SFltb f_0_2 v).
Proof.
  unfold is_oor_st. cbn [mbind result_bind num_of].
  by destruct (SFltb f_0_2 v).
Qed.

Lemma gate_in cat nm category names :
  gate cat nm category names = true → lower nm ∈ names.
Proof. unfold gate. intros [_ H]%andb_true_iff. by apply str_in_true. Qed.

Lemma gate_out cat nm category names :
  str_in (lower nm) names = false → gate cat nm category names = false.
Proof. unfold gate. intros ->. apply andb_false_r. Qed.

(** A report with the measures in its columns, every value [0.5]. *)
Definition group_measures : DataFrame :=
  mkDF (RangeIndex 1) [None]
       ["Statistical Parity Difference"; "Disparate Impact Ratio"; "PPV Ratio"]
       [[CNum f_half; CNum f_half; CNum f_half]].

Definition group_styler : Styler :=
  mkStyler 0 (PStr "Fairness Measures") (Some (PInt 4)) (passes 0)
           (bound_flagger 0 group_measures).

(** What [flag] shows of it: of the three cells the last is flagged. *)
Definition group_view : Rendered :=
  mkRendered (PStr "Fairness Measures") (Some (PInt 4)) group_measures
             [[[]; []; ["background-color:magenta"]]].

(** C3: in a view that [flag] returns, a cell of a measure that the
    difference pass looks at is flagged exactly when its value is outside
    (-0.1, 0.1) and not NaN, and a cell of a measure that the ratio pass looks
    at exactly when its value is outside (0.8, 1.2) and not NaN.  But the
    passes look at neither Statistical Parity Difference nor Disparate Impact
    Ratio: their cells are flagged for no value, since the difference list has
    the first name with capitals, which no lower-cased name equals, and the
    ratio list has the second with a space after it. *)
Theorem C3_parity_and_impact_are_not_flagged (h h' : store) (df : loc)
    (d : DataFrame) (cap sig_fig : pyval) (as_styler : bool) (o : flag_out)
    (r : Rendered) (i j : nat) (cat : option string) (nm : string)
    (v : spec_float) :
  h !! df = Some d →
  flag df cap sig_fig as_styler h = (h', Ok o) →
  view h' o = Ok r →
  measure_name (set_measure_labels d).2 (r_frame r) i j = Some (cat, nm) →
  cell_at (r_frame r) i j = Some (CNum v) →
  (gate cat nm "Group Fairness" diffs = true →
     flagged r i j = negb (SFltb f_m0_1 v && SFltb v f_0_1) && negb (is_nan v)) ∧
  (gate cat nm "Group Fairness" ratios = true →
     flagged r i j = negb (SFltb f_0_8 v && SFltb v f_1_2) && negb (is_nan v)) ∧
  (nm = "Statistical Parity Difference" ∨ nm = "Disparate Impact Ratio" →
     flagged r i j = false) ∧
  lower nm ≠ "Statistical Parity Difference".
Proof.
  intros Hd Hflag Hview Hname Hcell.
  destruct (flagged_cell _ _ _ _ _ _ _ _ _ _ _ _ _ _ Hd Hflag Hview Hname Hcell)
    as (bd & br & bs & Hbd & Hbr & Hbs & ->).
  split; [|split; [|split]].
  - intros Hg. rewrite Hg in Hbd.
    destruct (lists_disjoint (lower nm)) as (Hl & _).
    specialize (Hl (gate_in _ _ _ _ Hg)). injection Hl as _ Hr Hlo Hhi.
    rewrite (gate_out _ _ _ _ Hr) in Hbr.
    rewrite (gate_out _ _ _ _ Hlo), (gate_out _ _ _ _ Hhi) in Hbs.
    injection Hbd as <-. injection Hbs as <-. subst br.
    by rewrite !orb_false_r.
  - intros Hg. rewrite Hg in Hbr.
    destruct (lists_disjoint (lower nm)) as (_ & Hl & _).
    specialize (Hl (gate_in _ _ _ _ Hg)). injection Hl as Hdf _ Hlo Hhi.
    rewrite (gate_out _ _ _ _ Hdf) in Hbd.
    rewrite (gate_out _ _ _ _ Hlo), (gate_out _ _ _ _ Hhi) in Hbs.
    injection Hbr as <-. injection Hbs as <-. subst bd.
    by rewrite !orb_false_r.
  - intros Hnm.
    assert (in_lists (lower nm) = [false; false; false; false]) as Hl
      by (destruct Hnm as [-> | ->]; vm_compute; reflexivity).
    injection Hl as Hdf Hr Hlo Hhi.
    rewrite (gate_out _ _ _ _ Hdf) in Hbd. rewrite (gate_out _ _ _ _ Hr) in Hbr.
    rewrite (gate_out _ _ _ _ Hlo), (gate_out _ _ _ _ Hhi) in Hbs.
    injection Hbs as <-. by subst bd br.
  - intros Heq. pose proof (lower_has_no_upper nm) as Hup.
    rewrite Heq in Hup. vm_compute in Hup. discriminate Hup.
Qed.

Lemma C3_parity_and_impact_are_not_flagged_witness :
  (gate None "Statistical Parity Difference" "Group Fairness" diffs = true →
     flagged group_view 0 0
     = negb (SFltb f_m0_1 f_half && SFltb f_half f_0_1) && negb (is_nan f_half)) ∧
  (gate None "Statistical Parity Difference" "Group Fairness" ratios = true →
     flagged group_view 0 0
     = negb (SFltb f_0_8 f_half && SFltb f_half f_1_2) && negb (is_nan f_half)) ∧
  ("Statistical Parity Difference" = "Statistical Parity Difference"
   ∨ "Statistical Parity Difference" = "Disparate Impact Ratio" →
     flagged group_view 0 0 = false) ∧
  lower "Statistical Parity Difference" ≠ "Statistical Parity Difference".
Proof.
  refine (C3_parity_and_impact_are_not_flagged
            {[0%nat := group_measures]} {[0%nat := group_measures]} 0%nat
            group_measures PNone (PInt 4) true (Styled group_styler) group_view
            0 0 None "Statistical Parity Difference" f_half _ _ _ _ _);
    vm_compute; reflexivity.
Defined.

(** With the value [0.5], out of both ranges, the cells of the two measures
    are not flagged and the cell of PPV Ratio is. *)
Example group_measures_flags :
  flag 0%nat PNone (PInt 4) false {[0%nat := group_measures]}
    = ({[0%nat := group_measures]}, Ok (Html group_view)) ∧
  is_oor_diff (CNum f_half) = Ok true ∧ is_oor_ratio (CNum f_half) = Ok true ∧
  flagged group_view 0 0 = false ∧ flagged group_view 0 1 = false ∧
  flagged group_view 0 2 = true.
Proof. repeat split; vm_compute; reflexivity. Qed.

(** The same measures as the rows of a summary, under their categories. *)
Definition summary : DataFrame :=
  mkDF [[LStr "Group Fairness"; LStr "Statistical Parity Difference"];
        [LStr "Group Fairness"; LStr "Disparate Impact Ratio"];
        [LStr "Group Fairness"; LStr "PPV Ratio"];
        [LStr "Individual Fairness"; LStr "Consistency Score"]]
       [Some "Metric"; Some "Measure"] ["Value"]
       [[CNum f_half]; [CNum f_half]; [CNum f_half]; [CNum f_half]].

Definition summary_view : Rendered :=
  mkRendered (PStr "Fairness Measures") (Some (PInt 4)) summary
             [[[]]; [[]]; [["background-color:magenta"]];
              [["background-color:magenta"]]].

Example summary_flags :
  flag 0%nat PNone (PInt 4) false {[0%nat := summary]}
    = ({[0%nat := summary]}, Ok (Html summary_view)) ∧
  flagged summary_view 0 0 = false ∧ flagged summary_view 1 0 = false ∧
  flagged summary_view 2 0 = true ∧ flagged summary_view 3 0 = true.
Proof. repeat split; vm_compute; reflexivity. Qed.

(** The scenario of a PPV Ratio column with the values 0.7, 1.0 and 1.3. *)
Definition f_0_7 : spec_float := S754_finite false 6305039478318694 (-53).
Definition f_1_3 : spec_float := S754_finite false 5854679515581645 (-52).

Definition ppv_report : DataFrame :=
  mkDF (RangeIndex 3) [None] ["PPV Ratio"]
       [[CNum f_0_7]; [CNum f_one]; [CNum f_1_3]].

Example ppv_report_flags :
  ∃ r, flag 0%nat PNone (PInt 4) false {[0%nat := ppv_report]}
         = ({[0%nat := ppv_report]}, Ok (Html r)) ∧
       flagged r 0 0 = true ∧ flagged r 1 0 = false ∧ flagged r 2 0 = true.
Proof. eexists. repeat split; vm_compute; reflexivity. Qed.

(** ** C4: the statistics *)

(** The law of the high-is-good statistics by the name of the measure alone:
    a cell of such a measure is flagged exactly when its value is below
    0.8. *)
Definition high_is_good_by_name (layout : string) (r : Rendered) : Prop :=
  ∀ i j cat nm v,
    measure_name layout (r_frame r) i j = Some (cat, nm) →
    lower nm ∈ stats_high →
    cell_at (r_frame r) i j = Some (CNum v) →
    flagged r i j = SFltb v f_0_8.

(** A summary that has a consistency score under both categories. *)
Definition two_scores : DataFrame :=
  mkDF [[LStr "Group Fairness"; LStr "Consistency Score"];
        [LStr "Individual Fairness"; LStr "Consistency Score"]]
       [Some "Metric"; Some "Measure"] ["Value"]
       [[CNum f_half]; [CNum f_half]].

Definition two_scores_view : Rendered :=
  mkRendered (PStr "Fairness Measures") (Some (PInt 4)) two_scores
             [[[]]; [["background-color:magenta"]]].

(** C4, as stated, fails: the consistency score of the Group Fairness row
    is 0.5, below 0.8, and its cell is not flagged. *)
Lemma C4_score_of_another_category_is_not_flagged :
  flag 0%nat PNone (PInt 4) false {[0%nat := two_scores]}
    = ({[0%nat := two_scores]}, Ok (Html two_scores_view)) ∧
  (set_measure_labels two_scores).2 = "index" ∧
  ¬ high_is_good_by_name "index" two_scores_view.
Proof.
  split; [vm_compute; reflexivity|]. split; [vm_compute; reflexivity|].
  intros Hlaw.
  assert (flagged two_scores_view 0 0 = SFltb f_half f_0_8) as Hflagged.
  { apply (Hlaw 0%nat 0%nat (Some "Group Fairness") "Consistency Score" f_half).
    - reflexivity.
    - apply (bool_decide_unpack _). vm_compute. exact I.
    - reflexivity. }
  vm_compute in Hflagged. discriminate Hflagged.
Qed.

(** C4, amended: in a view that [flag] returns, a cell of a high-is-good
    statistic is flagged exactly when its value is below 0.8 and a cell of a
    low-is-good statistic exactly when its value is above 0.2, provided that,
    where the measures label the rows, the row is of the category Individual
    Fairness; the cell of a statistic in a row of another category is not
    flagged, and neither is the cell of a measure whose lower-cased name is in
    none of the four lists. *)
Theorem C4_statistics_are_flagged_within_their_category (h h' : store)
    (df : loc) (d : DataFrame) (cap sig_fig : pyval) (as_styler : bool)
    (o : flag_out) (r : Rendered) (i j : nat) (cat : option string)
    (nm : string) (c : cell) :
  h !! df = Some d →
  flag df cap sig_fig as_styler h = (h', Ok o) →
  view h' o = Ok r →
  measure_name (set_measure_labels d).2 (r_frame r) i j = Some (cat, nm) →
  cell_at (r_frame r) i j = Some c →
  (gate cat nm "Individual Fairness" stats_high = true →
     ∀ v, c = CNum v → flagged r i j = SFltb v f_0_8) ∧
  (gate cat nm "Individual Fairness" stats_low = true →
     ∀ v, c = CNum v → flagged r i j = SFltb f_0_2 v) ∧
  (∀ c0, cat = Some c0 → c0 ≠ "Individual Fairness" →
     lower nm ∈ stats_high ++ stats_low → flagged r i j = false) ∧
  (lower nm ∉ diffs ++ ratios ++ stats_high ++ stats_low → flagged r i j = false).
Proof.
  intros Hd Hflag Hview Hname Hcell.
  destruct (flagged_cell _ _ _ _ _ _ _ _ _ _ _ _ _ _ Hd Hflag Hview Hname Hcell)
    as (bd & br & bs & Hbd & Hbr & Hbs & ->).
  split; [|split; [|split]].
  - intros Hg v ->. rewrite Hg in Hbs.
    destruct (lists_disjoint (lower nm)) as (_ & _ & _ & Hl).
    specialize (Hl (gate_in _ _ _ _ Hg)). injection Hl as Hdf Hr Hlo _.
    rewrite (gate_out _ _ _ _ Hdf) in Hbd. rewrite (gate_out _ _ _ _ Hr) in Hbr.
    rewrite (gate_out _ _ _ _ Hlo), is_oor_st_high in Hbs.
    injection Hbs as <-. by subst bd br.
  - intros Hg v ->. rewrite Hg in Hbs.
    destruct (lists_disjoint (lower nm)) as (_ & _ & Hl & _).
    specialize (Hl (gate_in _ _ _ _ Hg)). injection Hl as Hdf Hr _ Hhi.
    rewrite (gate_out _ _ _ _ Hdf) in Hbd. rewrite (gate_out _ _ _ _ Hr) in Hbr.
    rewrite (gate_out _ _ _ _ Hhi), is_oor_st_low in Hbs.
    injection Hbs as <-. by subst bd br.
  - intros c0 -> Hc0 Hin.
    assert (str_in (lower nm) diffs = false ∧ str_in (lower nm) ratios = false)
      as [Hdf Hr].
    { destruct (lists_disjoint (lower nm)) as (_ & _ & Hlo & Hhi).
      apply elem_of_app in Hin as [Hin|Hin];
        [specialize (Hhi Hin); by injection Hhi
        |specialize (Hlo Hin); by injection Hlo]. }
    rewrite (gate_out _ _ _ _ Hdf) in Hbd. rewrite (gate_out _ _ _ _ Hr) in Hbr.
    unfold gate in Hbs. apply String.eqb_neq in Hc0. rewrite Hc0 in Hbs.
    cbn [andb] in Hbs. rewrite is_oor_st_none in Hbs.
    injection Hbs as <-. by subst bd br.
  - intros Hout. rewrite !elem_of_app in Hout.
    assert (in_lists (lower nm) = [false; false; false; false]) as Hl.
    { unfold in_lists. repeat f_equal; apply str_in_false; tauto. }
    injection Hl as Hdf Hr Hlo Hhi.
    rewrite (gate_out _ _ _ _ Hdf) in Hbd. rewrite (gate_out _ _ _ _ Hr) in Hbr.
    rewrite (gate_out _ _ _ _ Hlo), (gate_out _ _ _ _ Hhi), is_oor_st_none in Hbs.
    injection Hbs as <-. by subst bd br.
Qed.

Definition two_scores_styler : Styler :=
  mkStyler 0 (PStr "Fairness Measures") (Some (PInt 4)) (passes 1)
           (bound_flagger 0 two_scores).

Lemma C4_statistics_are_flagged_within_their_category_witness :
  (gate (Some "Individual Fairness") "Consistency Score" "Individual Fairness"
        stats_high = true →
     ∀ v, CNum f_half = CNum v → flagged two_scores_view 1 0 = SFltb v f_0_8) ∧
  (gate (Some "Individual Fairness") "Consistency Score" "Individual Fairness"
        stats_low = true →
     ∀ v, CNum f_half = CNum v → flagged two_scores_view 1 0 = SFltb f_0_2 v) ∧
  (∀ c0, Some "Individual Fairness" = Some c0 → c0 ≠ "Individual Fairness" →
     lower "Consistency Score" ∈ stats_high ++ stats_low →
     flagged two_scores_view 1 0 = false) ∧
  (lower "Consistency Score" ∉ diffs ++ ratios ++ stats_high ++ stats_low →
     flagged two_scores_view 1 0 = false).
Proof.
  refine (C4_statistics_are_flagged_within_their_category
            {[0%nat := two_scores]} {[0%nat := two_scores]} 0%nat two_scores
            PNone (PInt 4) true (Styled two_scores_styler) two_scores_view
            1 0 (Some "Individual Fairness") "Consistency Score" (CNum f_half)
            _ _ _ _ _);
    vm_compute; reflexivity.
Defined.

Example two_scores_flags :
  gate (Some "Individual Fairness") "Consistency Score" "Individual Fairness"
       stats_high = true ∧
  SFltb f_half f_0_8 = true ∧
  flagged two_scores_view 0 0 = false ∧ flagged two_scores_view 1 0 = true.
Proof. repeat split; vm_compute; reflexivity. Qed.

(** * Further properties *)

(** ** The flagger, stage by stage *)

Definition not_unique : exn :=
  ValueError "style is not supported for non-unique indices.".

(** The styler [apply_flag] builds for the table [d] stored at [df]. *)
Definition flag_styler (df : loc) (d : DataFrame) (cap sig_fig : pyval) : Styler :=
  mkStyler df (match cap with PNone => PStr "Fairness Measures" | _ => cap end)
           (Some sig_fig)
           (passes (if String.eqb (set_measure_labels d).2 "index" then 1 else 0))
           (bound_flagger df d).

(** Styling the table [t] that the store [h1] holds at [df], and rendering
    the styler unless the caller wants the styler itself. *)
Definition style_and_show (h1 : store) (t : DataFrame) (S : Styler)
    (as_styler : bool) : store * result flag_out :=
  if is_unique key_eqb (index t) && is_unique String.eqb (columns t)
  then if as_styler then (h1, Ok (Styled S))
       else (h1, Html <$> render h1 S)
  else (h1, Raise not_unique).

Lemma styled_finish_run cap ax sig_fig as_styler b h1 df t :
  self_df b = Some df → h1 !! df = Some t →
  let '(w, res) := (styled_with cap ax ≫= finish sig_fig as_styler) (b, h1) in
  (w.2, res)
  = style_and_show h1 t (mkStyler df cap (Some sig_fig) (passes ax) b) as_styler.
Proof.
  intros Hdf Ht. unfold mbind at 1, M_bind at 1, styled_with, reads.
  cbn [fst snd]. rewrite Hdf. unfold style, deref. rewrite Ht.
  cbn [mbind result_bind]. unfold style_and_show.
  destruct (is_unique key_eqb (index t) && is_unique String.eqb (columns t));
    cbn [mbind result_bind]; [|reflexivity].
  unfold finish. destruct as_styler; [reflexivity|].
  unfold mbind, M_bind, reads. cbn [fst snd].
  match goal with |- context [render h1 ?S] =>
    change (render h1 S) with
      (render h1 (mkStyler df cap (Some sig_fig) (passes ax) b)) end.
  by destruct (render h1 _).
Qed.

(** [flag] on a stored table, for a valid [sig_fig]. *)
Lemma flag_run h df d cap z as_styler :
  h !! df = Some d →
  flag df cap (PInt z) as_styler h
  = let S := flag_styler df d cap (PInt z) in
    if String.eqb (set_measure_labels d).2 "index"
    then style_and_show h d S as_styler
    else if (length (unique_by key_eqb (index d)) <? len d)%nat
    then match reset_index d with
         | Ok d' => style_and_show (<[df := d']> h) d' S as_styler
         | Raise e => (h, Raise e)
         end
    else style_and_show h d S as_styler.
Proof.
  intros Hd. unfold flag, apply_flag.
  change (negb (isinstance_int (PInt z)) || isinstance_bool (PInt z)) with false.
  cbv iota. unfold mbind at 1 2 3 4 5, M_bind at 1 2 3 4 5, modify.
  unfold reads at 1 2.
  unfold bind_df at 1. cbn [fst snd deref]. rewrite Hd.
  cbn [fmap result_fmap].
  unfold is_index, bind_labels. cbn [fst snd self_label_type].
  unfold bind_df.
  cbn [fst snd self_df reset Flagger_init self_flag_type self_flag_color].
  change (λ styled : Styler, _) with (finish (PInt z) as_styler).
  change (mkFlagger _ _ _ _ _) with (bound_flagger df d).
  unfold flag_styler.
  set (cap' := match cap with PNone => PStr "Fairness Measures" | _ => cap end).
  destruct (String.eqb (set_measure_labels d).2 "index") eqn:Hix.
  - pose proof (styled_finish_run cap' 1 (PInt z) as_styler (bound_flagger df d)
                  h df d eq_refl Hd) as Hrun.
    destruct ((styled_with cap' 1 ≫= finish (PInt z) as_styler) _) as [[f h1] res].
    exact Hrun.
  - rewrite M_assoc, M_reads_bind. cbn [fst snd bound_flagger self_df deref].
    rewrite Hd. cbn [mbind result_bind]. rewrite M_assoc.
    destruct (length (unique_by key_eqb (index d)) <? len d)%nat.
    + unfold mbind at 1, M_bind at 1, reset_index_inplace.
      cbn [fst snd bound_flagger self_df deref]. rewrite Hd.
      cbn [mbind result_bind].
      destruct (reset_index d) as [d'|e]; [|reflexivity].
      pose proof (styled_finish_run cap' 0 (PInt z) as_styler (bound_flagger df d)
                    (<[df := d']> h) df d' eq_refl (lookup_insert_eq _ _ _)) as Hrun.
      cbn [default from_option id].
      destruct ((styled_with cap' 0 ≫= finish (PInt z) as_styler) _) as [[f h1] res].
      exact Hrun.
    + rewrite M_ret_bind.
      pose proof (styled_finish_run cap' 0 (PInt z) as_styler (bound_flagger df d)
                    h df d eq_refl Hd) as Hrun.
      destruct ((styled_with cap' 0 ≫= finish (PInt z) as_styler) _) as [[f h1] res].
      exact Hrun.
Qed.

Lemma style_and_show_view h1 t S as_styler h' o r :
  style_and_show h1 t S as_styler = (h', Ok o) → view h' o = Ok r →
  h' = h1 ∧ render h1 S = Ok r ∧
  is_unique key_eqb (index t) && is_unique String.eqb (columns t) = true.
Proof.
  unfold style_and_show.
  destruct (is_unique key_eqb (index t) && is_unique String.eqb (columns t));
    [|discriminate].
  destruct as_styler.
  - intros [= <- <-] Hv. done.
  - destruct (render h1 S) as [r0|e]; [|discriminate].
    intros [= <- <-] [= <-]. done.
Qed.

(** What a successful call of [flag] has done: the store it leaves, the
    table it shows and the styler whose rendering is the view. *)
Lemma flag_shows h h' df d cap sig_fig as_styler o r :
  h !! df = Some d →
  flag df cap sig_fig as_styler h = (h', Ok o) →
  view h' o = Ok r →
  ∃ t, h' = (if resets d sig_fig then <[df := t]> h else h) ∧
       (if resets d sig_fig then reset_index d = Ok t else t = d) ∧
       h' !! df = Some t ∧
       render h' (flag_styler df d cap sig_fig) = Ok r.
Proof.
  intros Hd Hflag Hview.
  destruct sig_fig as [|b|z|x|s|n col]; try discriminate Hflag.
  rewrite (flag_run _ _ _ _ _ _ Hd) in Hflag. cbv zeta in Hflag.
  unfold resets. cbn [plain_int andb].
  destruct (String.eqb (set_measure_labels d).2 "index"); cbn [negb andb].
  - destruct (style_and_show_view _ _ _ _ _ _ _ Hflag Hview) as (-> & Hr & _).
    by exists d.
  - destruct (length (unique_by key_eqb (index d)) <? len d)%nat.
    + destruct (reset_index d) as [d'|e]; [|discriminate Hflag].
      destruct (style_and_show_view _ _ _ _ _ _ _ Hflag Hview) as (-> & Hr & _).
      exists d'. split; [done|]. split; [done|]. split; [|done].
      apply lookup_insert_eq.
    + destruct (style_and_show_view _ _ _ _ _ _ _ Hflag Hview) as (-> & Hr & _).
      by exists d.
Qed.

Lemma render_meta h S r :
  render h S = Ok r →
  r_caption r = caption S ∧ r_precision r = precision S ∧
  h !! data S = Some (r_frame r).
Proof.
  unfold render, deref. destruct (h !! data S) as [t|]; [|discriminate].
  cbn [mbind result_bind]. destruct (mapM_res _ _); [|discriminate].
  cbn [mbind result_bind]. by intros [= <-].
Qed.

(** The styles of the cells hang on the table, the queue and the flagger,
    not on the caption or the precision. *)
Lemma render_cells h S1 S2 r1 r2 :
  data S1 = data S2 → todo S1 = todo S2 → owner S1 = owner S2 →
  render h S1 = Ok r1 → render h S2 = Ok r2 →
  r_frame r1 = r_frame r2 ∧ ctx r1 = ctx r2.
Proof.
  unfold render. intros -> -> ->.
  destruct (deref h (Some (data S2))) as [t|]; [|discriminate].
  cbn [mbind result_bind]. destruct (mapM_res _ _); [|discriminate].
  cbn [mbind result_bind]. by intros [= <-] [= <-].
Qed.

(** ** The flagger keeps nothing from one call to the next *)

(** X1: [apply_flag] starts with [self.reset()], so what it returns and the
    store it leaves do not depend on what the flagger was bound to before,
    and for a valid [sig_fig] neither does the state it leaves the flagger
    in. *)
Theorem apply_flag_forgets_state (self1 self2 : Flagger) (h : store) (df : loc)
    (cap sig_fig : pyval) (as_styler : bool) :
  (apply_flag df cap sig_fig as_styler (self1, h)).2
    = (apply_flag df cap sig_fig as_styler (self2, h)).2 ∧
  (apply_flag df cap sig_fig as_styler (self1, h)).1.2
    = (apply_flag df cap sig_fig as_styler (self2, h)).1.2 ∧
  if plain_int sig_fig
  then apply_flag df cap sig_fig as_styler (self1, h)
       = apply_flag df cap sig_fig as_styler (self2, h)
  else (apply_flag df cap sig_fig as_styler (self1, h)).1.1 = self1.
Proof.
  destruct sig_fig as [|b|z|x|s|n col]; cbn [plain_int];
    split; [|split| |split| |split| |split| |split| |split]; reflexivity.
Qed.

(** ** Missing values *)

Definition nan_report : DataFrame :=
  mkDF (RangeIndex 2) [None] ["PPV Ratio"; "Consistency Score"]
       [[nan; nan]; [CNum f_half; CNum f_half]].

Definition nan_view : Rendered :=
  mkRendered (PStr "") (Some (PInt 4)) nan_report
             [[[]; []];
              [["background-color:magenta"]; ["background-color:magenta"]]].

(** X2: a cell that holds NaN is not flagged, whatever its measure and
    wherever the measures are written. *)
Theorem nan_is_not_flagged (h h' : store) (df : loc) (d : DataFrame)
    (cap sig_fig : pyval) (as_styler : bool) (o : flag_out) (r : Rendered)
    (i j : nat) (cat : option string) (nm : string) :
  h !! df = Some d →
  flag df cap sig_fig as_styler h = (h', Ok o) →
  view h' o = Ok r →
  measure_name (set_measure_labels d).2 (r_frame r) i j = Some (cat, nm) →
  cell_at (r_frame r) i j = Some nan →
  flagged r i j = false.
Proof.
  intros Hd Hflag Hview Hname Hcell.
  destruct (flagged_cell _ _ _ _ _ _ _ _ _ _ _ _ _ _ Hd Hflag Hview Hname Hcell)
    as (bd & br & bs & Hbd & Hbr & Hbs & ->).
  assert (bd = false) as ->.
  { destruct (gate cat nm "Group Fairness" diffs); [|done].
    vm_compute in Hbd. by injection Hbd. }
  assert (br = false) as ->.
  { destruct (gate cat nm "Group Fairness" ratios); [|done].
    vm_compute in Hbr. by injection Hbr. }
  destruct (gate cat nm "Individual Fairness" stats_low),
    (gate cat nm "Individual Fairness" stats_high);
    vm_compute in Hbs; by injection Hbs as <-.
Qed.

Lemma nan_is_not_flagged_witness : flagged nan_view 0 0 = false.
Proof.
  refine (nan_is_not_flagged {[0%nat := nan_report]} {[0%nat := nan_report]}
            0%nat nan_report (PStr "") (PInt 4) false (Html nan_view) nan_view
            0 0 None "PPV Ratio" _ _ _ _ _);
    vm_compute; reflexivity.
Defined.

(** ** The style of a flagged cell *)

(** The styles the view attaches to a cell. *)
Definition styles_at (r : Rendered) (i j : nat) : option (list string) :=
  ctx r !! i ≫= (λ row, row !! j).

Definition magenta : string := "background-color:magenta".

Lemma render_styles h S r ax :
  todo S = passes ax → render h S = Ok r →
  ∃ gd gr gs,
    apply_axis (color_diff h (owner S)) ax (r_frame r) = Ok gd ∧
    apply_axis (color_ratio h (owner S)) ax (r_frame r) = Ok gr ∧
    apply_axis (color_st h (owner S)) ax (r_frame r) = Ok gs ∧
    ∀ i j row c, values (r_frame r) !! i = Some row → row !! j = Some c →
      styles_at r i j
      = Some (List.filter nonempty [grid_at gd i j; grid_at gr i j; grid_at gs i j]).
Proof.
  intros Htodo. unfold render, deref. rewrite Htodo.
  destruct (h !! data S) as [t|]; cbn [mbind result_bind]; [|discriminate].
  unfold passes. cbn [mapM_res fst snd run_color].
  destruct (apply_axis (color_diff h (owner S)) ax t) as [gd|e] eqn:Hgd;
    cbn [mbind result_bind]; [|discriminate].
  destruct (apply_axis (color_ratio h (owner S)) ax t) as [gr|e] eqn:Hgr;
    cbn [mbind result_bind]; [|discriminate].
  destruct (apply_axis (color_st h (owner S)) ax t) as [gs|e] eqn:Hgs;
    cbn [mbind result_bind]; [|discriminate].
  intros [= <-]. exists gd, gr, gs. cbn [r_frame].
  do 3 (split; [done|]).
  intros i j row c Hrow Hc. unfold styles_at. cbn [ctx].
  rewrite list_lookup_imap, Hrow. cbn [fmap option_fmap option_map mbind option_bind].
  rewrite list_lookup_imap, Hc. reflexivity.
Qed.

Lemma flag_css_bound df d : flag_css (bound_flagger df d) = magenta.
Proof. reflexivity. Qed.

(** The styles of a cell, pass by pass. *)
Lemma cell_styles h h' df d cap sig_fig as_styler o r i j cat nm c :
  h !! df = Some d →
  flag df cap sig_fig as_styler h = (h', Ok o) →
  view h' o = Ok r →
  measure_name (set_measure_labels d).2 (r_frame r) i j = Some (cat, nm) →
  cell_at (r_frame r) i j = Some c →
  ∃ bd br bs : bool,
    (if gate cat nm "Group Fairness" diffs then is_oor_diff c = Ok bd
     else bd = false) ∧
    (if gate cat nm "Group Fairness" ratios then is_oor_ratio c = Ok br
     else br = false) ∧
    is_oor_st (gate cat nm "Individual Fairness" stats_low)
              (gate cat nm "Individual Fairness" stats_high) c = Ok bs ∧
    styles_at r i j
    = Some (List.filter nonempty
              [if bd then magenta else ""; if br then magenta else "";
               if bs then magenta else ""]).
Proof.
  intros Hd Hflag Hview Hname Hcell.
  destruct (flag_view _ _ _ _ _ _ _ _ _ Hd Hflag Hview)
    as (S & ax & Hrender & Hdata & Hown & Htodo & Hax & Hh).
  destruct (render_meta _ _ _ Hrender) as (_ & _ & Ht).
  destruct (render_styles _ _ _ _ Htodo Hrender)
    as (gd & gr & gs & Hgd & Hgr & Hgs & Hfl).
  rewrite Hown in Hgd, Hgr, Hgs. rewrite Hdata in Ht.
  unfold cell_at in Hcell.
  destruct (values (r_frame r) !! i) as [row|] eqn:Hrow; [|discriminate Hcell].
  cbn [mbind option_bind] in Hcell.
  rewrite (Hfl i j row c Hrow Hcell). clear Hfl.
  unfold measure_name in Hname.
  destruct (String.eqb (set_measure_labels d).2 "index") eqn:Hix.
  - apply String.eqb_eq in Hix as Hlayout.
    rewrite (Hh eq_refl) in Ht. rewrite Hd in Ht. injection Ht as Ht.
    destruct (index (r_frame r) !! i) as [[|[| |c0] [|[| |n0] [|]]]|] eqn:Hkey;
      try discriminate Hname.
    injection Hname as <- <-. subst ax.
    destruct (apply_axis_rows _ _ _ i j _ row Hgd Hkey Hrow) as (cd & Hcd & ->).
    destruct (apply_axis_rows _ _ _ i j _ row Hgr Hkey Hrow) as (cr & Hcr & ->).
    destruct (apply_axis_rows _ _ _ i j _ row Hgs Hkey Hrow) as (cs & Hcs & ->).
    rewrite <- Ht in Hkey.
    destruct (color_diff_cell _ _ _ _ j c Hcd Hcell) as (md & bd & Hmd & Hbd & ->).
    destruct (color_ratio_cell _ _ _ _ j c Hcr Hcell) as (mr & br & Hmr & Hbr & ->).
    destruct (color_st_cell _ _ _ _ j c Hcs Hcell)
      as (ml & mh & bs & Hml & Hmh & Hbs & ->).
    cbn [sname] in Hmd, Hmr, Hml, Hmh. rewrite (Hh eq_refl) in Hmd, Hmr, Hml, Hmh.
    apply (member_index _ _ _ i _ _ _ _ _ Hd Hlayout Hkey) in Hmd, Hmr, Hml, Hmh.
    subst md mr ml mh. cbn [default from_option id]. rewrite flag_css_bound.
    exists bd, br, bs. unfold gate. done.
  - destruct (columns (r_frame r) !! j) as [n0|] eqn:Hcol; [|discriminate Hname].
    injection Hname as <- <-. subst ax.
    destruct (apply_axis_cols _ _ _ i j _ row Hgd Hcol Hrow) as (cd & Hcd & ->).
    destruct (apply_axis_cols _ _ _ i j _ row Hgr Hcol Hrow) as (cr & Hcr & ->).
    destruct (apply_axis_cols _ _ _ i j _ row Hgs Hcol Hrow) as (cs & Hcs & ->).
    assert (column (r_frame r) j !! i = Some c) as Hc.
    { unfold column. by rewrite lookup_map, Hrow; simpl; rewrite Hcell. }
    destruct (color_diff_cell _ _ _ _ i c Hcd Hc) as (md & bd & Hmd & Hbd & ->).
    destruct (color_ratio_cell _ _ _ _ i c Hcr Hc) as (mr & br & Hmr & Hbr & ->).
    destruct (color_st_cell _ _ _ _ i c Hcs Hc)
      as (ml & mh & bs & Hml & Hmh & Hbs & ->).
    cbn [sname] in Hmd, Hmr, Hml, Hmh.
    rewrite member_columns in Hmd, Hmr, Hml, Hmh by by rewrite is_index_bound.
    injection Hmd as <-. injection Hmr as <-. injection Hml as <-. injection Hmh as <-.
    cbn [default from_option id]. rewrite flag_css_bound.
    exists bd, br, bs. unfold gate. done.
Qed.

Lemma is_oor_st_true ml mh c : is_oor_st ml mh c = Ok true → ml || mh = true.
Proof.
  destruct ml; [done|]. destruct mh; [done|]. by rewrite is_oor_st_none.
Qed.

(** X3: the view attaches to a cell either nothing or the one style
    [background-color:magenta]; no cell is marked by two passes, and a cell is
    flagged exactly when it carries that style. *)
Theorem a_cell_has_at_most_one_style (h h' : store) (df : loc) (d : DataFrame)
    (cap sig_fig : pyval) (as_styler : bool) (o : flag_out) (r : Rendered)
    (i j : nat) (cat : option string) (nm : string) (c : cell) :
  h !! df = Some d →
  flag df cap sig_fig as_styler h = (h', Ok o) →
  view h' o = Ok r →
  measure_name (set_measure_labels d).2 (r_frame r) i j = Some (cat, nm) →
  cell_at (r_frame r) i j = Some c →
  styles_at r i j = Some (if flagged r i j then [magenta] else []).
Proof.
  intros Hd Hflag Hview Hname Hcell.
  destruct (cell_styles _ _ _ _ _ _ _ _ _ _ _ _ _ _ Hd Hflag Hview Hname Hcell)
    as (bd & br & bs & Hbd & Hbr & Hbs & Hst).
  assert (flagged r i j
          = match styles_at r i j with Some (_ :: _) => true | _ => false end)
    as -> by reflexivity.
  rewrite Hst.
  assert (bd && br = false ∧ bd && bs = false ∧ br && bs = false) as (H1 & H2 & H3).
  { destruct (lists_disjoint (lower nm)) as (Hd1 & Hd2 & Hd3 & Hd4).
    destruct (gate cat nm "Group Fairness" diffs) eqn:Hg1.
    - specialize (Hd1 (gate_in _ _ _ _ Hg1)). injection Hd1 as _ Hr Hlo Hhi.
      rewrite (gate_out _ _ _ _ Hr) in Hbr.
      rewrite (gate_out _ _ _ _ Hlo), (gate_out _ _ _ _ Hhi), is_oor_st_none in Hbs.
      injection Hbs as <-. subst br. by rewrite !andb_false_r.
    - subst bd. cbn [andb]. split; [done|]. split; [done|].
      destruct (gate cat nm "Group Fairness" ratios) eqn:Hg2.
      + specialize (Hd2 (gate_in _ _ _ _ Hg2)). injection Hd2 as _ _ Hlo Hhi.
        rewrite (gate_out _ _ _ _ Hlo), (gate_out _ _ _ _ Hhi), is_oor_st_none in Hbs.
        injection Hbs as <-. by rewrite andb_false_r.
      + by subst br. }
  destruct bd, br, bs; try discriminate; reflexivity.
Qed.

Lemma a_cell_has_at_most_one_style_witness :
  styles_at nan_view 1 0 = Some (if flagged nan_view 1 0 then [magenta] else []).
Proof.
  refine (a_cell_has_at_most_one_style {[0%nat := nan_report]}
            {[0%nat := nan_report]} 0%nat nan_report (PStr "") (PInt 4) false
            (Html nan_view) nan_view 1 0 None "PPV Ratio" (CNum f_half)
            _ _ _ _ _);
    vm_compute; reflexivity.
Defined.

(** ** Caption and precision *)

(** X4: which cells are flagged hangs on the unrounded values alone: with
    another caption, another valid number of significant figures, or the
    styler asked for instead of its rendering, [flag] leaves the same store
    and shows the same table with the same styles on the same cells. *)
Theorem flags_do_not_depend_on_caption_or_precision (h h1 h2 : store) (df : loc)
    (d : DataFrame) (cap1 cap2 sig_fig1 sig_fig2 : pyval) (as1 as2 : bool)
    (o1 o2 : flag_out) (r1 r2 : Rendered) :
  h !! df = Some d →
  flag df cap1 sig_fig1 as1 h = (h1, Ok o1) → view h1 o1 = Ok r1 →
  flag df cap2 sig_fig2 as2 h = (h2, Ok o2) → view h2 o2 = Ok r2 →
  h1 = h2 ∧ r_frame r1 = r_frame r2 ∧ ctx r1 = ctx r2 ∧
  ∀ i j, flagged r1 i j = flagged r2 i j.
Proof.
  intros Hd Hf1 Hv1 Hf2 Hv2.
  destruct (flag_shows _ _ _ _ _ _ _ _ _ Hd Hf1 Hv1) as (t1 & Hh1 & Ht1 & _ & Hr1).
  destruct (flag_shows _ _ _ _ _ _ _ _ _ Hd Hf2 Hv2) as (t2 & Hh2 & Ht2 & _ & Hr2).
  destruct sig_fig1 as [|b1|z1|x1|s1|n1 col1]; try discriminate Hf1.
  destruct sig_fig2 as [|b2|z2|x2|s2|n2 col2]; try discriminate Hf2.
  assert (resets d (PInt z1) = resets d (PInt z2)) as Hres by reflexivity.
  rewrite Hres in Hh1, Ht1.
  assert (t1 = t2) as ->.
  { destruct (resets d (PInt z2)); congruence. }
  assert (h1 = h2) as -> by congruence.
  destruct (render_cells h2 (flag_styler df d cap1 (PInt z1))
              (flag_styler df d cap2 (PInt z2)) r1 r2 eq_refl eq_refl eq_refl
              Hr1 Hr2) as [Hfr Hctx].
  do 3 (split; [done|]). intros i j. unfold flagged. by rewrite Hctx.
Qed.

Definition nan_view_2 : Rendered :=
  mkRendered (PStr "Fairness Measures") (Some (PInt 2)) nan_report (ctx nan_view).

Lemma flags_do_not_depend_on_caption_or_precision_witness :
  ({[0%nat := nan_report]} : store) = {[0%nat := nan_report]} ∧
  r_frame nan_view = r_frame nan_view_2 ∧ ctx nan_view = ctx nan_view_2 ∧
  ∀ i j, flagged nan_view i j = flagged nan_view_2 i j.
Proof.
  refine (flags_do_not_depend_on_caption_or_precision
            {[0%nat := nan_report]} _ _ 0%nat nan_report (PStr "") PNone
            (PInt 4) (PInt 2) false true (Html nan_view)
            (Styled (flag_styler 0 nan_report PNone (PInt 2))) nan_view nan_view_2
            _ _ _ _ _);
    vm_compute; reflexivity.
Defined.



(** ** Tables the flagger refuses *)

(** A summary with the same key on two rows. *)
Definition repeated_summary : DataFrame :=
  mkDF [[LStr "Group Fairness"; LStr "PPV Ratio"];
        [LStr "Group Fairness"; LStr "PPV Ratio"];
        [LStr "Individual Fairness"; LStr "Consistency Score"]]
       [Some "Metric"; Some "Measure"] ["Value"]
       [[CNum f_half]; [CNum f_one]; [CNum f_half]].



(** ** Categories the passes look for *)

Lemma mapM_res_total {A B} (f : A → result B) (g : A → B) (l : list A) :
  Forall (λ x, f x = Ok (g x)) l → mapM_res f l = Ok (map g l).
Proof.
  induction 1 as [|x l Hx _ IH]; [done|]. cbn [mapM_res map].
  rewrite Hx. cbn [mbind result_bind]. rewrite IH. done.
Qed.

Lemma mapM_res_raises {A B} (f : A → result B) (x : A) (l : list A) e :
  f x = Raise e → mapM_res f (x :: l) = Raise e.
Proof. intros H. cbn [mapM_res]. by rewrite H. Qed.

(** The second level of a key is a string. *)
Definition named (k : list label) : Prop := ∃ s, k !! 1%nat = Some (LStr s).

(** The masks of a table whose keys are all named. *)
Definition name_mask (names : list string) (idx : list (list label)) : list bool :=
  map (λ k, match k !! 1%nat with
            | Some (LStr s) => str_in (lower s) names
            | _ => false
            end) idx.

Lemma category_labels_index h df d cat names :
  h !! df = Some d → (set_measure_labels d).2 = "index" →
  Forall named (index d) →
  category_labels h (bound_flagger df d) cat names
  = loc_index d cat (name_mask names (index d)).
Proof.
  intros Hd Hix Hnamed. unfold category_labels.
  cbn [bound_flagger self_labels self_df default from_option id deref].
  rewrite Hd, (set_measure_labels_index d Hix).
  rewrite (mapM_res_total _ (λ l, match l with
                                  | LStr s => str_in (lower s) names
                                  | _ => false
                                  end)).
  - cbn [mbind result_bind]. f_equal. unfold name_mask. rewrite map_map.
    apply map_ext_Forall. eapply Forall_impl; [exact Hnamed|].
    intros k (s & ->). reflexivity.
  - apply Forall_forall. intros l (k & -> & Hk)%list_elem_of_fmap.
    rewrite Forall_forall in Hnamed. destruct (Hnamed k Hk) as (s & ->).
    reflexivity.
Qed.

Definition is_num (c : cell) : Prop := ∃ x, c = CNum x.

(** The category whose rows the passes look for first and do not find. *)
Definition first_missing (idx : list (list label)) : option string :=
  if negb (existsb (level0_is "Group Fairness") idx) then Some "Group Fairness"
  else if negb (existsb (level0_is "Individual Fairness") idx)
       then Some "Individual Fairness"
       else None.

Lemma Forall_zip_r {A B} (P : B → Prop) (l : list A) (k : list B) :
  Forall P k → Forall (λ x, P x.2) (zip l k).
Proof.
  intros H. revert l. induction H as [|y k Hy _ IH]; intros [|x l]; simpl;
    constructor; auto.
Qed.

Lemma color_diff_numbers h df d s :
  h !! df = Some d → (set_measure_labels d).2 = "index" →
  Forall named (index d) → existsb (level0_is "Group Fairness") (index d) = true →
  Forall is_num (svalues s) →
  ∃ clr, color_diff h (bound_flagger df d) s = Ok clr.
Proof.
  intros Hd Hix Hnamed Hgf Hnum. unfold color_diff.
  rewrite is_index_bound, Hix. change ("index" =? "index") with true. cbv iota.
  rewrite (category_labels_index _ _ _ _ _ Hd Hix Hnamed). unfold loc_index.
  rewrite Hgf. cbn [mbind result_bind].
  induction Hnum as [|c cs [x ->] _ [clr IH]]; [by eexists|].
  cbn [mapM_res]. rewrite IH.
  destruct (key_in _ _); cbn [is_oor_diff num_of mbind result_bind]; by eexists.
Qed.

Lemma color_ratio_numbers h df d s :
  h !! df = Some d → (set_measure_labels d).2 = "index" →
  Forall named (index d) → existsb (level0_is "Group Fairness") (index d) = true →
  Forall is_num (svalues s) →
  ∃ clr, color_ratio h (bound_flagger df d) s = Ok clr.
Proof.
  intros Hd Hix Hnamed Hgf Hnum. unfold color_ratio.
  rewrite is_index_bound, Hix. change ("index" =? "index") with true. cbv iota.
  rewrite (category_labels_index _ _ _ _ _ Hd Hix Hnamed). unfold loc_index.
  rewrite Hgf. cbn [mbind result_bind].
  induction Hnum as [|c cs [x ->] _ [clr IH]]; [by eexists|].
  cbn [mapM_res]. rewrite IH.
  destruct (key_in _ _); cbn [is_oor_ratio num_of mbind result_bind]; by eexists.
Qed.

Lemma mapM_res_exists {A B} (f : A → result B) (l : list A) :
  Forall (λ x, ∃ y, f x = Ok y) l → ∃ ys, mapM_res f l = Ok ys.
Proof.
  induction 1 as [|x l [y Hy] _ [ys IH]]; [by eexists|].
  cbn [mapM_res]. rewrite Hy, IH. by eexists.
Qed.

Lemma apply_axis_rows_Ok fn d :
  (∀ k row, row ∈ values d →
            ∃ clr, fn (mkSeries k (map (λ c, [LStr c]) (columns d)) row) = Ok clr) →
  ∃ g, apply_axis fn 1 d = Ok g.
Proof.
  intros Hfn. unfold apply_axis. change (1 =? 0)%Z with false. cbv iota.
  apply mapM_res_exists.
  eapply Forall_impl.
  - apply (Forall_zip_r (λ row, ∀ k, ∃ y,
             fn (mkSeries k (map (λ c, [LStr c]) (columns d)) row) = Ok y)
             (index d) (values d)).
    apply Forall_forall. intros row Hrow k. by apply Hfn.
  - intros [k row] H. apply H.
Qed.

Lemma apply_axis_rows_raises fn d k ks row rows e :
  index d = k :: ks → values d = row :: rows →
  fn (mkSeries k (map (λ c, [LStr c]) (columns d)) row) = Raise e →
  apply_axis fn 1 d = Raise e.
Proof.
  intros Hi Hv Hfn. unfold apply_axis. change (1 =? 0)%Z with false. cbv iota.
  rewrite Hi, Hv. cbn [zip zip_with mapM_res fst snd]. by rewrite Hfn.
Qed.

(** X7: where the measures label the rows, every pass selects the rows of
    its category, and a table without a row of the category is a [KeyError]
    as soon as the passes run: [flag] with [as_styler=False] raises it, and
    with [as_styler=True] it returns a styler that raises it when it is
    rendered.  The difference and ratio passes look for Group Fairness, the
    statistics pass, which runs last, for Individual Fairness. *)
Theorem a_missing_category_is_a_KeyError (h : store) (df : loc) (d : DataFrame)
    (cap : pyval) (z : Z) (cat : string) :
  h !! df = Some d →
  (set_measure_labels d).2 = "index" →
  is_unique key_eqb (index d) && is_unique String.eqb (columns d) = true →
  index d ≠ [] → values d ≠ [] →
  Forall named (index d) → Forall (Forall is_num) (values d) →
  first_missing (index d) = Some cat →
  flag df cap (PInt z) false h = (h, Raise (KeyError cat)) ∧
  flag df cap (PInt z) true h = (h, Ok (Styled (flag_styler df d cap (PInt z)))) ∧
  render h (flag_styler df d cap (PInt z)) = Raise (KeyError cat).
Proof.
  intros Hd Hix Hu Hidx Hvals Hnamed Hnum Hmiss.
  rewrite !(flag_run _ _ _ _ _ _ Hd). cbv zeta.
  rewrite Hix. change ("index" =? "index") with true. cbv iota.
  unfold style_and_show. rewrite Hu.
  assert (render h (flag_styler df d cap (PInt z)) = Raise (KeyError cat)) as Hr.
  { unfold render, deref. cbn [flag_styler data todo owner]. rewrite Hd.
    cbn [mbind result_bind]. rewrite Hix. change ("index" =? "index") with true.
    cbv iota. unfold passes. cbn [mapM_res fst snd run_color].
    destruct (index d) as [|k ks] eqn:Hi; [done|].
    destruct (values d) as [|row rows] eqn:Hv; [done|].
    rewrite <- Hi in Hnamed, Hmiss. rewrite <- Hv in Hnum.
    unfold first_missing in Hmiss.
    destruct (existsb (level0_is "Group Fairness") (index d)) eqn:Hgf;
      cbn [negb] in Hmiss.
    - destruct (existsb (level0_is "Individual Fairness") (index d)) eqn:Hif;
        cbn [negb] in Hmiss; [discriminate Hmiss|]. injection Hmiss as <-.
      destruct (apply_axis_rows_Ok (color_diff h (bound_flagger df d)) d)
        as [gd ->].
      { intros k' row' Hrow. apply (color_diff_numbers _ _ _ _ Hd Hix Hnamed Hgf).
        rewrite Forall_forall in Hnum. by apply Hnum. }
      cbn [mbind result_bind].
      destruct (apply_axis_rows_Ok (color_ratio h (bound_flagger df d)) d)
        as [gr ->].
      { intros k' row' Hrow. apply (color_ratio_numbers _ _ _ _ Hd Hix Hnamed Hgf).
        rewrite Forall_forall in Hnum. by apply Hnum. }
      cbn [mbind result_bind].
      rewrite (apply_axis_rows_raises _ d k ks row rows
                 (KeyError "Individual Fairness") Hi Hv); [reflexivity|].
      unfold color_st. rewrite is_index_bound, Hix.
      change ("index" =? "index") with true. cbv iota.
      rewrite !(category_labels_index _ _ _ _ _ Hd Hix Hnamed). unfold loc_index.
      by rewrite Hif.
    - injection Hmiss as <-.
      rewrite (apply_axis_rows_raises (color_diff h (bound_flagger df d)) d k ks
                 row rows (KeyError "Group Fairness") Hi Hv); [reflexivity|].
      unfold color_diff. rewrite is_index_bound, Hix.
      change ("index" =? "index") with true. cbv iota.
      rewrite (category_labels_index _ _ _ _ _ Hd Hix Hnamed). unfold loc_index.
      by rewrite Hgf. }
  rewrite Hr. done.
Qed.

(** A summary without the measures of individual fairness. *)
Definition group_summary : DataFrame :=
  mkDF [[LStr "Group Fairness"; LStr "PPV Ratio"];
        [LStr "Model Performance"; LStr "Accuracy"]]
       [Some "Metric"; Some "Measure"] ["Value"]
       [[CNum f_half]; [CNum f_one]].

Lemma a_missing_category_is_a_KeyError_witness :
  flag 0%nat PNone (PInt 4) false {[0%nat := group_summary]}
    = ({[0%nat := group_summary]}, Raise (KeyError "Individual Fairness")) ∧
  flag 0%nat PNone (PInt 4) true {[0%nat := group_summary]}
    = ({[0%nat := group_summary]},
       Ok (Styled (flag_styler 0%nat group_summary PNone (PInt 4)))) ∧
  render {[0%nat := group_summary]} (flag_styler 0%nat group_summary PNone (PInt 4))
    = Raise (KeyError "Individual Fairness").
Proof.
  apply (a_missing_category_is_a_KeyError {[0%nat := group_summary]} 0%nat
           group_summary PNone 4 "Individual Fairness");
    try (vm_compute; reflexivity); try discriminate.
  - repeat constructor; by eexists.
  - repeat constructor; by eexists.
Defined.

(** ** [sort_report], again *)

Lemma merge_sort_sorted (l : list string) :
  StronglySorted String.le l → merge_sort String.le l = l.
Proof.
  intros Hs. apply (StronglySorted_unique String.le); [|done|].
  - apply StronglySorted_merge_sort; apply _.
  - apply merge_sort_Permutation.
Qed.

Lemma filter_ext_in {A} (p q : A → bool) (l : list A) :
  (∀ x, x ∈ l → p x = q x) → List.filter p l = List.filter q l.
Proof.
  induction l as [|x l IH]; intros H; simpl; [done|].
  rewrite (H x) by by left. rewrite IH; [done|]. intros y ?. apply H. by right.
Qed.

Lemma filter_all {A} (p : A → bool) (l : list A) :
  (∀ x, x ∈ l → p x = true) → List.filter p l = l.
Proof.
  induction l as [|x l IH]; intros H; simpl; [done|].
  rewrite (H x) by by left. f_equal. apply IH. intros y ?. apply H. by right.
Qed.

Lemma filter_none {A} (p : A → bool) (l : list A) :
  (∀ x, x ∈ l → p x = false) → List.filter p l = [].
Proof.
  induction l as [|x l IH]; intros H; simpl; [done|].
  rewrite (H x) by by left. apply IH. intros y ?. apply H. by right.
Qed.

Lemma col_pos_app_r c l1 l2 :
  c ∉ l1 → col_pos c (l1 ++ l2) = (λ j, length l1 + j)%nat <$> col_pos c l2.
Proof.
  induction l1 as [|c' l1 IH]; intros Hn; simpl.
  - by destruct (col_pos c l2).
  - destruct (String.eqb_spec c c') as [->|Hne]; [exfalso; apply Hn; by left|].
    rewrite IH by (intros ?; apply Hn; by right).
    by destruct (col_pos c l2).
Qed.

(** In a list of distinct labels the position [col_pos] finds for the
    label at [i] is [i]. *)
Lemma col_pos_self cols :
  NoDup cols →
  Forall2 (λ c j, col_pos c cols = Some j) cols (seq 0 (length cols)).
Proof.
  intros Hnd. apply Forall2_same_length_lookup. split; [by rewrite length_seq|].
  intros i c j Hc Hj. apply lookup_seq in Hj as [-> _]. simpl.
  revert i Hc. induction Hnd as [|c' cols Hn Hnd IH]; intros i Hc; [done|].
  simpl. destruct i as [|i]; simpl in Hc.
  - injection Hc as ->. by rewrite String.eqb_refl.
  - destruct (String.eqb_spec c c') as [->|Hne].
    + exfalso. apply Hn. by eapply list_elem_of_lookup_2.
    + by rewrite (IH i Hc).
Qed.

Lemma Forall2_col_pos_unique cols0 cols js js' :
  Forall2 (λ c j, col_pos c cols0 = Some j) cols js →
  Forall2 (λ c j, col_pos c cols0 = Some j) cols js' → js = js'.
Proof.
  intros H. revert js'. induction H as [|c j cols js Hc _ IH]; intros js' H';
    inversion H' as [|? j' ? js'' Hc' Htl]; subst; [done|].
  f_equal; [congruence|by apply IH].
Qed.

Lemma map_lookup_seq (r : list cell) :
  map (λ j, default nan (r !! j)) (seq 0 (length r)) = r.
Proof.
  apply list_eq. intros i. rewrite lookup_map.
  destruct (decide (i < length r)%nat) as [Hlt|Hge].
  - rewrite lookup_seq_lt by done. simpl.
    destruct (lookup_lt_is_Some_2 r i Hlt) as [x ->]. done.
  - rewrite lookup_seq_ge by lia. simpl. symmetry. apply lookup_ge_None. lia.
Qed.

(** X8: sorting a sorted report changes nothing. *)
Theorem sort_report_is_idempotent (yname yhname : string) (report sorted : DataFrame) :
  yname ≠ yhname → NoDup (columns report) →
  sort_report yname yhname report = Ok sorted →
  sort_report yname yhname sorted = Ok sorted.
Proof.
  intros Hne Hnd Hsort. unfold sort_report in Hsort.
  set (head := head_cols yname yhname report) in *.
  set (tail := tail_cols yname yhname report) in *.
  assert (Hhead : ∀ c, c ∈ head ↔ c ∈ head_names yname yhname ∧ c ∈ columns report).
  { intros c. unfold head, head_cols, has_col.
    rewrite elem_of_filter_bool, bool_decide_eq_true. done. }
  assert (Htail : ∀ c, c ∈ tail ↔ c ∈ columns report ∧ c ∉ head).
  { intros c. unfold tail, tail_cols. rewrite merge_sort_Permutation.
    rewrite elem_of_filter_bool, negb_true_iff, bool_decide_eq_false. done. }
  assert (Hnd_head : NoDup head).
  { unfold head, head_cols.
    eapply sublist_NoDup; [by apply head_names_NoDup | apply filter_sublist]. }
  assert (Hnd_tail : NoDup tail).
  { unfold tail, tail_cols. rewrite merge_sort_Permutation.
    eapply sublist_NoDup; [exact Hnd | apply filter_sublist]. }
  assert (Hnd' : NoDup (head ++ tail)).
  { apply NoDup_app. split; [done|]. split; [|done].
    intros c Hc Ht. apply Htail in Ht as [_ Ht]. done. }
  assert (Hin : ∀ c, c ∈ head ++ tail → c ∈ columns report).
  { intros c [Hc|Hc]%elem_of_app; [by apply Hhead in Hc as [_ ?]
                                  |by apply Htail in Hc as [? _]]. }
  destruct (getitem_cols_Ok report (head ++ tail) Hnd Hin) as (js & Hsel & Hjs).
  rewrite Hsel in Hsort. injection Hsort as <-.
  unfold sort_report.
  assert (head_cols yname yhname
            {| index := index report; index_names := index_names report;
               columns := head ++ tail;
               values := map (λ r, map (λ j, default nan (r !! j)) js)
                             (values report) |} = head) as Hh2.
  { unfold head_cols, has_col. cbn [columns]. unfold head, head_cols, has_col.
    apply filter_ext_in. intros c Hc.
    apply bool_decide_ext. rewrite elem_of_app. split.
    - intros [Hc'|Hc']; [by apply Hhead in Hc' as [_ ?]|by apply Htail in Hc' as [? _]].
    - intros Hc'. left. by apply Hhead. }
  assert (tail_cols yname yhname
            {| index := index report; index_names := index_names report;
               columns := head ++ tail;
               values := map (λ r, map (λ j, default nan (r !! j)) js)
                             (values report) |} = tail) as Ht2.
  { unfold tail_cols. rewrite Hh2. cbn [columns]. rewrite List.filter_app.
    rewrite (filter_none _ head), (filter_all _ tail); cbn [app].
    - apply merge_sort_sorted. unfold tail, tail_cols.
      apply StronglySorted_merge_sort; apply _.
    - intros c Hc. apply negb_true_iff, bool_decide_eq_false.
      by apply Htail in Hc as [_ ?].
    - intros c Hc. by apply negb_false_iff, bool_decide_eq_true. }
  rewrite Hh2, Ht2.
  set (mid := mkDF _ _ _ _).
  destruct (getitem_cols_Ok mid (head ++ tail) Hnd') as (js2 & Hsel2 & Hjs2);
    [done|].
  rewrite Hsel2. unfold mid. cbn [index index_names columns values].
  f_equal. f_equal.
  pose proof (Forall2_col_pos_unique _ _ _ _ Hjs2 (col_pos_self _ Hnd')) as ->.
  rewrite map_map. apply map_ext. intros r.
  assert (length (head ++ tail) = length js) as Hlen
    by by eapply Forall2_length.
  rewrite Hlen.
  rewrite <- (length_map (λ j, default nan (r !! j)) js) at 1.
  apply map_lookup_seq.
Qed.

Lemma sort_report_is_idempotent_witness :
  sort_report "Target" "Pred."
    (mkDF [[LInt 0]] [None]
       ["Feature Name"; "Feature Value"; "Obs."; "Target Mean"; "Accuracy"; "TPR"]
       [[CStr "ALL FEATURES"; CStr "ALL VALUES"; num 10; CNum f_one; CNum f_one;
         CNum f_one]])
  = Ok (mkDF [[LInt 0]] [None]
       ["Feature Name"; "Feature Value"; "Obs."; "Target Mean"; "Accuracy"; "TPR"]
       [[CStr "ALL FEATURES"; CStr "ALL VALUES"; num 10; CNum f_one; CNum f_one;
         CNum f_one]]).
Proof.
  apply (sort_report_is_idempotent "Target" "Pred." unsorted_report).
  - discriminate.
  - apply (bool_decide_unpack _). vm_compute. exact I.
  - vm_compute. reflexivity.
Defined.


(** ** The ledgers of [__apply_featureGroups] *)

Section featureGroups_ledgers.
Context {Args : Type}.
Variable func : DataFrame → Args → outcome record.
Variable args : Args.
Variable df : DataFrame.

(** The ledgers after the features [seen] have been swept: [errs] holds, for
    every feature whose [try] block raised, the exception it raised, and
    [warns], for every feature whose block returned with warnings, those
    warnings. *)
Definition ledgers_of (seen : list string) (st : sweep) : Prop :=
  (∀ f e, errs st !! f = Some e ↔
          f ∈ seen ∧ ∃ w, try_feature func args df f = (w, Raise e)) ∧
  (∀ f w, warns st !! f = Some w ↔
          f ∈ seen ∧ w ≠ [] ∧ ∃ d, try_feature func args df f = (w, Ok d)).

Lemma body_ledgers seen st g st' :
  featureGroups_body func args df st g = Ok st' →
  ledgers_of seen st → ledgers_of (seen ++ [g]) st'.
Proof.
  intros Hbody [He Hw].
  destruct (try_feature func args df g) as [w0 [d0|e0]] eqn:Ht.
  - rewrite (body_passed _ _ _ _ _ _ _ Ht) in Hbody.
    apply bind_Ok in Hbody as (t & _ & [= <-]). unfold ledgers_of.
    cbn [errs warns]. split.
    + intros f e. rewrite He, elem_of_app, list_elem_of_singleton. split.
      * intros [Hin Hr]. split; [by left|done].
      * intros [[Hin| ->] [w Hr]]; [by eauto|]. rewrite Ht in Hr. discriminate Hr.
    + intros f w. rewrite elem_of_app, list_elem_of_singleton.
      destruct (0 <? length w0)%nat eqn:Hlen; cbv iota; cbn [errs warns].
      * destruct (decide (f = g)) as [->|Hne].
        -- rewrite lookup_insert_eq. split.
           ++ intros [= <-]. split; [by right|]. split; [|eauto].
              intros ->. simpl in Hlen. discriminate Hlen.
           ++ intros (_ & _ & d & Hr). rewrite Ht in Hr. by injection Hr as -> _.
        -- rewrite lookup_insert_ne by done. rewrite Hw. split.
           ++ intros (? & ? & ?). split; [by left|done].
           ++ intros ([?|?] & ? & ?); done.
      * rewrite Hw. split.
        -- intros (? & ? & ?). split; [by left|done].
        -- intros ([Hin| ->] & Hne & d & Hr); [by eauto|].
           rewrite Ht in Hr. injection Hr as -> _.
           destruct w; [done|]. simpl in Hlen. discriminate Hlen.
  - rewrite (body_failed _ _ _ _ _ _ _ Ht) in Hbody. injection Hbody as <-.
    unfold ledgers_of. cbn [errs warns]. split.
    + intros f e. rewrite elem_of_app, list_elem_of_singleton.
      destruct (decide (f = g)) as [->|Hne].
      * rewrite lookup_insert_eq. split.
        -- intros [= <-]. split; [by right|eauto].
        -- intros (_ & w & Hr). rewrite Ht in Hr. by injection Hr as _ ->.
      * rewrite lookup_insert_ne by done. rewrite He. split.
        -- intros [? ?]. split; [by left|done].
        -- intros [[?|?] ?]; done.
    + intros f w. rewrite Hw, elem_of_app, list_elem_of_singleton. split.
      * intros (? & ? & ?). split; [by left|done].
      * intros ([Hin| ->] & Hne & d & Hr); [by eauto|].
        rewrite Ht in Hr. discriminate Hr.
Qed.

Lemma foldM_ledgers features seen st st' :
  foldM (featureGroups_body func args df) st features = Ok st' →
  ledgers_of seen st → ledgers_of (seen ++ features) st'.
Proof.
  revert seen st. induction features as [|g l IH]; intros seen st; simpl.
  - intros [= <-]. by rewrite app_nil_r.
  - intros (st1 & H1 & H2)%bind_Ok Hl.
    rewrite (cons_middle g seen l), app_assoc.
    apply (IH _ st1 H2). by eapply body_ledgers.
Qed.

Lemma ledgers_of_start : ledgers_of [] sweep0.
Proof.
  split; intros f x; cbn [errs warns sweep0]; rewrite lookup_empty; split;
    try done; by intros [?%elem_of_nil _].
Qed.
End featureGroups_ledgers.

(** X10: when [__apply_featureGroups] returns, the error ledger holds
    exactly the features whose [try] block, the grouping and the visit of the
    partitions, raised, each with the exception raised, and the warning
    ledger exactly the features whose block returned after warnings, each with
    those warnings; so no feature is in both, and only features of the list
    are in either. *)
Theorem featureGroups_ledgers_are_exact {Args}
    (func : DataFrame → Args → outcome record) (args : Args)
    (features : list string) (df results : DataFrame)
    (errs : gmap string exn) (warns : gmap string (list warning)) :
  __apply_featureGroups func args features df = Ok (results, errs, warns) →
  (∀ f e, errs !! f = Some e ↔
          f ∈ features ∧ ∃ w, try_feature func args df f = (w, Raise e)) ∧
  (∀ f w, warns !! f = Some w ↔
          f ∈ features ∧ w ≠ [] ∧ ∃ d, try_feature func args df f = (w, Ok d)) ∧
  (∀ f, errs !! f = None ∨ warns !! f = None).
Proof.
  unfold __apply_featureGroups.
  intros (st & Hfold & [= <- <- <-])%bind_Ok.
  destruct (foldM_ledgers func args df features [] sweep0 st Hfold
              (ledgers_of_start func args df)) as [He Hw].
  cbn [app] in He, Hw. split; [done|]. split; [done|].
  intros f. destruct (errs st !! f) as [e|] eqn:Hef; [|by left].
  right. destruct (warns st !! f) as [w|] eqn:Hwf; [|done].
  apply He in Hef as (_ & w' & Hr). apply Hw in Hwf as (_ & _ & d & Hr').
  rewrite Hr in Hr'. discriminate Hr'.
Qed.

Lemma featureGroups_ledgers_are_exact_witness :
  (∀ f e, ({["region" := division_by_zero]} : gmap string exn) !! f = Some e ↔
          f ∈ ["region"] ∧ ∃ w, try_feature count_north tt region_table f = (w, Raise e)) ∧
  (∀ f w, (∅ : gmap string (list warning)) !! f = Some w ↔
          f ∈ ["region"] ∧ w ≠ [] ∧
          ∃ d, try_feature count_north tt region_table f = (w, Ok d)) ∧
  (∀ f, ({["region" := division_by_zero]} : gmap string exn) !! f = None
        ∨ (∅ : gmap string (list warning)) !! f = None).
Proof.
  apply (featureGroups_ledgers_are_exact count_north tt ["region"] region_table
           no_rows).
  vm_compute. reflexivity.
Defined.

(** ** A feature that is no column *)

Lemma try_feature_missing {Args} (func : DataFrame → Args → outcome record)
    (args : Args) (df : DataFrame) (f : string) :
  f ∉ columns df → try_feature func args df f = ([], Raise (KeyError f)).
Proof.
  intros Hf. unfold try_feature, groupby, getcol, has_col.
  by rewrite bool_decide_eq_false_2.
Qed.

Lemma getcol_missing df f : f ∉ columns df → getcol df f = Raise (KeyError f).
Proof. intros Hf. unfold getcol, has_col. by rewrite bool_decide_eq_false_2. Qed.

Lemma columns_setcol_inv df c vals c' :
  c' ∈ columns (setcol df c vals) → c' ∈ columns df ∨ c' = c.
Proof.
  unfold setcol. destruct (col_pos c (columns df)); simpl; [by left|].
  rewrite elem_of_app, list_elem_of_singleton. done.
Qed.

Section biasGroups_columns.
Variable num_repr : spec_float → string.
Variable func : Series → Series → string → Z → outcome record.
Variables yt yh : string.

(** The sweep adds no column but [prtc_attr]. *)
Lemma biasGroups_value_columns f st v st' :
  biasGroups_value func yt yh f st v = Ok st' →
  ∀ c, c ∈ columns st'.1 → c ∈ columns st.1 ∨ c = pa_name.
Proof.
  destruct st as [df sw]. unfold biasGroups_value. intros H.
  apply bind_Ok in H as (colf & _ & H).
  apply bind_Ok in H as (df1 & (vals1 & ->)%setcol_where_inv & H).
  apply bind_Ok in H as (df2 & Hdf2 & H).
  assert (∀ c, c ∈ columns df2 → c ∈ columns df ∨ c = pa_name) as Hcols.
  { intros c Hc.
    assert (c ∈ columns (setcol (setcol df pa_name (map (λ _, num 0) (values df)))
                           pa_name vals1) ∨ c = pa_name) as [Hc'|?]; [| |by right].
    - destruct (negb (v =? "nan")%string).
      + apply bind_Ok in Hdf2 as (colf2 & _ & (vals2 & ->)%setcol_where_inv).
        by apply columns_setcol_inv in Hc.
      + injection Hdf2 as <-. by left.
    - apply columns_setcol_inv in Hc' as [Hc'|?]; [|by right].
      by apply columns_setcol_inv in Hc'. }
  apply bind_Ok in H as (pa & _ & H).
  destruct (nunique pa =? 1)%nat; [by injection H as <-|].
  apply bind_Ok in H as (coly & _ & H).
  apply bind_Ok in H as (colh & _ & H).
  destruct (func _ _ _ _) as [w [d|e]].
  - apply bind_Ok in H as (t1 & _ & H). apply bind_Ok in H as (t2 & _ & H).
    by injection H as <-.
  - by injection H as <-.
Qed.

Lemma foldM_value_columns f vals st st' :
  foldM (biasGroups_value func yt yh f) st vals = Ok st' →
  ∀ c, c ∈ columns st'.1 → c ∈ columns st.1 ∨ c = pa_name.
Proof.
  revert st. induction vals as [|v vals IH]; intros st; simpl.
  - intros [= <-]. by left.
  - intros (st1 & H1 & H2)%bind_Ok c Hc.
    destruct (IH st1 H2 c Hc) as [Hc1|?]; [|by right].
    by eapply biasGroups_value_columns.
Qed.

Lemma biasGroups_body_columns st f st' :
  biasGroups_body num_repr func yt yh st f = Ok st' →
  ∀ c, c ∈ columns st'.1 → c ∈ columns st.1 ∨ c = pa_name.
Proof.
  destruct st as [df sw]. unfold biasGroups_body. intros H.
  apply bind_Ok in H as (colf & Hf%getcol_inv & H).
  apply bind_Ok in H as (colf' & _ & H).
  intros c Hc. destruct (foldM_value_columns _ _ _ _ H c Hc) as [Hc1|?]; [|by right].
  cbn [fst] in Hc1. apply columns_setcol_inv in Hc1 as [?| ->]; by left.
Qed.

Lemma foldM_body_missing features st f :
  f ∈ features → f ∉ columns st.1 → f ≠ pa_name →
  ∃ e, foldM (biasGroups_body num_repr func yt yh) st features = Raise e.
Proof.
  revert st. induction features as [|g l IH]; intros st Hin Hf Hpa;
    [by apply elem_of_nil in Hin|].
  cbn [foldM].
  destruct (biasGroups_body num_repr func yt yh st g) as [st1|e] eqn:Hbody;
    cbn [mbind result_bind]; [|by eexists].
  apply IH; [|by intros [?|?]%(biasGroups_body_columns _ _ _ Hbody)|done].
  apply elem_of_cons in Hin as [->|Hin]; [|done].
  exfalso. destruct st as [df sw]. unfold biasGroups_body in Hbody.
  cbn [fst] in Hf. rewrite (getcol_missing df g Hf) in Hbody. discriminate Hbody.
Qed.
End biasGroups_columns.



(** ** The rows of [__apply_featureGroups] *)

(** The keys of the partitions of a feature: its distinct values that are
    not missing, in sorted order. *)
Definition group_keys (df : DataFrame) (f : string) : list cell :=
  match getcol df f with
  | Ok col => merge_sort cell_le (unique_by cell_eqb (List.filter notnull col))
  | Raise _ => []
  end.

Lemma groupby_keys df f grp : groupby df f = Ok grp → map fst grp = group_keys df f.
Proof.
  unfold groupby, group_keys. destruct (getcol df f) as [col|e]; [|discriminate].
  cbn [mbind result_bind]. intros [= <-]. rewrite map_map. cbn [fst].
  apply map_id.
Qed.

Lemma cell_of_label_of_cell k : cell_of_label (label_of_cell k) = k.
Proof. by destruct k. Qed.

Lemma zip_with_map_same {A B C D} (f : B → C → D) (g : A → B) (h : A → C)
    (l : list A) :
  zip_with f (map g l) (map h l) = map (λ x, f (g x) (h x)) l.
Proof. induction l as [|x l IH]; simpl; [done|by rewrite IH]. Qed.

(** The first two cells of the rows of a table. *)
Definition heads (d : DataFrame) : list (list cell) := map (take 2) (values d).

(** A table that starts with the columns [Feature Name] and [Feature Value]
    and has a cell under both in every row. *)
Definition two_head (d : DataFrame) : Prop :=
  (∃ cs, columns d = "Feature Name" :: "Feature Value" :: cs) ∧
  Forall (λ r, 2 ≤ length r)%nat (values d).

Section featureGroups_rows.
Context {Args : Type}.
Variable func : DataFrame → Args → outcome record.
Variable args : Args.
Variable df : DataFrame.

Lemma grp_apply_keys grp w rs :
  grp_apply func args grp = (w, Ok rs) → map fst rs = map fst grp.
Proof.
  revert w rs. induction grp as [|[k x] grp IH]; intros w rs; simpl.
  - by intros [= <- <-].
  - destruct (func x args) as [w1 [d|e]]; [|discriminate].
    destruct (grp_apply func args grp) as [w2 [rs2|e]]; [|discriminate].
    intros [= <- <-]. simpl. f_equal. by eapply IH.
Qed.

Lemma feature_table_rows f rs t :
  feature_table f (frame_of_groups f rs) = Ok t →
  two_head t ∧ heads t = map (λ kr, [CStr f; kr.1]) rs.
Proof.
  unfold feature_table, reset_index. cbn [frame_of_groups index_names length imap].
  destruct (bool_decide _); cbn [mbind result_bind]; [|discriminate].
  unfold insert_col. destruct (has_col _ _); [discriminate|]. intros [= <-].
  unfold two_head, heads.
  cbn [columns values rename take drop app level_name index frame_of_groups map].
  rewrite String.eqb_refl, zip_with_map_same, !map_map.
  split; [split; [by eexists|]|].
  - apply Forall_forall. intros r (kr & -> & _)%list_elem_of_fmap. simpl. lia.
  - apply map_ext. intros [k d]. simpl. by rewrite cell_of_label_of_cell.
Qed.

(** The iteration of a feature whose [try] block returns appends its table;
    the one of a feature whose block raises appends nothing. *)
Definition passes_try (f : string) : bool :=
  match try_feature func args df f with (_, Ok _) => true | _ => false end.

Lemma body_rows st f st' :
  featureGroups_body func args df st f = Ok st' →
  Forall two_head (res st) →
  Forall two_head (res st') ∧
  flat_map heads (res st')
  = flat_map heads (res st)
    ++ (if passes_try f then map (λ k, [CStr f; k]) (group_keys df f) else []).
Proof.
  intros Hbody Hall. unfold passes_try.
  destruct (try_feature func args df f) as [w [d|e]] eqn:Ht.
  - rewrite (body_passed _ _ _ _ _ _ _ Ht) in Hbody.
    apply bind_Ok in Hbody as (t & Htab & [= <-]). cbn [res].
    unfold try_feature in Ht.
    destruct (groupby df f) as [grp|] eqn:Hg; [|discriminate Ht].
    destruct (grp_apply func args grp) as [w' [rs|e]] eqn:Hrs; [|discriminate Ht].
    injection Ht as <- <-.
    destruct (feature_table_rows _ _ _ Htab) as [Hth Hheads]. split.
    + apply Forall_app. split; [done|]. by constructor.
    + rewrite flat_map_app. cbn [flat_map]. rewrite app_nil_r, Hheads.
      f_equal. rewrite <- (groupby_keys _ _ _ Hg), <- (grp_apply_keys _ _ _ Hrs).
      by rewrite map_map.
  - rewrite (body_failed _ _ _ _ _ _ _ Ht) in Hbody. injection Hbody as <-.
    cbn [res]. by rewrite app_nil_r.
Qed.

Lemma foldM_rows features st st' :
  foldM (featureGroups_body func args df) st features = Ok st' →
  Forall two_head (res st) →
  Forall two_head (res st') ∧
  flat_map heads (res st')
  = flat_map heads (res st)
    ++ flat_map (λ f, map (λ k, [CStr f; k]) (group_keys df f))
                (List.filter passes_try features).
Proof.
  revert st. induction features as [|f l IH]; intros st; simpl.
  - intros [= <-] Hall. by rewrite app_nil_r.
  - intros (st1 & H1 & H2)%bind_Ok Hall.
    destruct (body_rows _ _ _ H1 Hall) as [Hall1 Hrows1].
    destruct (IH _ H2 Hall1) as [Hall2 Hrows2]. split; [done|].
    rewrite Hrows2, Hrows1, <- app_assoc. f_equal.
    by destruct (passes_try f).
Qed.
End featureGroups_rows.

Lemma row_get_second c1 c2 cs r :
  c1 ≠ c2 → row_get (c1 :: c2 :: cs) r c2 = default nan (r !! 1%nat).
Proof.
  intros Hne. unfold row_get. cbn [col_pos].
  destruct (String.eqb_spec c2 c1) as [->|_]; [done|].
  by rewrite String.eqb_refl.
Qed.

Lemma concat_two_head d ds :
  Forall two_head (d :: ds) →
  heads (concat (d :: ds)) = flat_map heads (d :: ds).
Proof.
  intros Hall. unfold heads at 1, concat. cbn [values].
  apply Forall_cons in Hall as Hall'. destruct Hall' as [[[cs Hc] _] _].
  assert (∃ t, fold_left (λ acc d0, union_cols acc (columns d0)) (d :: ds) []
               = "Feature Name" :: "Feature Value" :: t) as [t ->].
  { cbn [fold_left]. rewrite Hc. cbn [union_cols]. 
    rewrite bool_decide_eq_false_2 by by intros ?%elem_of_nil.
    cbn [app union_cols].
    rewrite bool_decide_eq_false_2
      by (intros ?%list_elem_of_singleton; discriminate).
    cbn [app].
    destruct (union_cols_prefix ["Feature Name"; "Feature Value"] cs) as [t1 ->].
    destruct (fold_union_prefix ds (["Feature Name"; "Feature Value"] ++ t1))
      as [t2 ->].
    eexists. rewrite <- app_assoc. reflexivity. }
  induction Hall as [|d' ds' [[cs' Hc'] Hlen] _ IH]; [done|].
  cbn [flat_map]. rewrite map_app, IH. f_equal.
  unfold heads. rewrite map_map. apply map_ext_Forall.
  eapply Forall_impl; [exact Hlen|]. intros r Hr. cbn [map take].
  rewrite Hc', row_get_first, row_get_second by discriminate.
  destruct r as [|a [|b r]]; simpl in Hr; try lia. reflexivity.
Qed.

Lemma collect_two_head frames :
  Forall two_head frames → heads (collect frames) = flat_map heads frames.
Proof.
  intros Hall. destruct frames as [|d ds]; [done|].
  change (collect (d :: ds)) with (concat (d :: ds)). by apply concat_two_head.
Qed.

(** A feature the error ledger does not hold. *)
Definition unrecorded (ledger : gmap string exn) (f : string) : bool :=
  match ledger !! f with None => true | Some _ => false end.


(** A metric function that counts the observations of a partition. *)
Definition count_all (x : DataFrame) (_ : unit) : outcome record :=
  ([], Ok [("Obs.", num (Z.of_nat (len x)))]).

Definition region_counts : DataFrame :=
  mkDF (RangeIndex 2) [None] ["Feature Name"; "Feature Value"; "Obs."]
       [[CStr "region"; CStr "north"; num 5]; [CStr "region"; CStr "south"; num 5]].


Example region_counts_rows :
  map (take 2) (values region_counts)
  = [[CStr "region"; CStr "north"]; [CStr "region"; CStr "south"]].
Proof. reflexivity. Qed.

(** ** Columns written and columns kept *)

(** Every row has a cell under every column. *)
Definition aligned (df : DataFrame) : Prop :=
  Forall (λ r, length r = length (columns df)) (values df).

Lemma col_pos_lt c cols j : col_pos c cols = Some j → (j < length cols)%nat.
Proof. intros H%col_pos_lookup. by eapply lookup_lt_Some. Qed.

Lemma col_pos_None c cols : col_pos c cols = None → c ∉ cols.
Proof.
  intros H Hin. destruct (col_pos_is_Some c cols Hin) as [j Hj]. congruence.
Qed.

Lemma col_pos_last c cols : c ∉ cols → col_pos c (cols ++ [c]) = Some (length cols).
Proof.
  intros Hn. rewrite col_pos_app_r by done. cbn [col_pos].
  rewrite String.eqb_refl. simpl. f_equal. lia.
Qed.

Lemma col_pos_app_l c l1 l2 j : col_pos c l1 = Some j → col_pos c (l1 ++ l2) = Some j.
Proof.
  revert j. induction l1 as [|c' l1 IH]; intros j; simpl; [done|].
  destruct (String.eqb c c'); [done|].
  destruct (col_pos c l1) as [j'|]; [|done]. intros [= <-]. by rewrite (IH j').
Qed.

Lemma getcol_length df c col : getcol df c = Ok col → length col = length (values df).
Proof.
  unfold getcol. destruct (has_col df c); [|discriminate]. intros [= <-].
  apply length_map.
Qed.

Lemma index_setcol df c vals : index (setcol df c vals) = index df.
Proof. unfold setcol. by destruct (col_pos c (columns df)). Qed.

Lemma values_length_setcol df c vals :
  length vals = length (values df) →
  length (values (setcol df c vals)) = length (values df).
Proof.
  intros Hlen. unfold setcol.
  destruct (col_pos c (columns df)); cbn [values]; rewrite length_zip_with; lia.
Qed.

Lemma aligned_setcol df c vals : aligned df → aligned (setcol df c vals).
Proof.
  unfold aligned, setcol. intros Hal.
  destruct (col_pos c (columns df)) as [j|]; cbn [values columns].
  - revert vals. induction Hal as [|r rs Hr _ IH]; intros [|v vals]; simpl;
      constructor; [by rewrite length_insert|auto].
  - revert vals. induction Hal as [|r rs Hr _ IH]; intros [|v vals]; simpl;
      constructor; [rewrite !length_app; simpl; lia|auto].
Qed.

Lemma getcol_setcol_same df c vals :
  aligned df → length vals = length (values df) →
  getcol (setcol df c vals) c = Ok vals.
Proof.
  intros Hal Hlen. rewrite getcol_Ok by apply columns_setcol_new. f_equal.
  unfold setcol. destruct (col_pos c (columns df)) as [j|] eqn:Hpos;
    cbn [values columns].
  - pose proof (col_pos_lt _ _ _ Hpos) as Hj. unfold row_get. rewrite Hpos.
    revert vals Hlen. unfold aligned in Hal.
    induction Hal as [|r rs Hr _ IH]; intros [|v vals] Hlen; simpl in *;
      try done.
    rewrite list_lookup_insert_eq by lia. simpl. f_equal. apply IH. lia.
  - apply col_pos_None in Hpos. unfold row_get. rewrite (col_pos_last _ _ Hpos).
    revert vals Hlen. unfold aligned in Hal.
    induction Hal as [|r rs Hr _ IH]; intros [|v vals] Hlen; simpl in *;
      try done.
    rewrite lookup_app_r by lia. rewrite Hr, Nat.sub_diag. simpl.
    f_equal. apply IH. lia.
Qed.

Lemma getcol_setcol_other df c vals c' :
  aligned df → length vals = length (values df) → c' ∈ columns df → c' ≠ c →
  getcol (setcol df c vals) c' = getcol df c'.
Proof.
  intros Hal Hlen Hin Hne.
  rewrite (getcol_Ok df c' Hin), getcol_Ok by by apply columns_setcol. f_equal.
  destruct (col_pos_is_Some c' _ Hin) as [j' Hj'].
  pose proof (col_pos_lt _ _ _ Hj') as Hlt.
  unfold setcol. destruct (col_pos c (columns df)) as [j|] eqn:Hpos;
    cbn [values columns]; unfold row_get.
  - rewrite Hj'.
    assert (j ≠ j') as Hjj.
    { intros ->. apply col_pos_lookup in Hpos, Hj'. congruence. }
    revert vals Hlen. unfold aligned in Hal.
    induction Hal as [|r rs Hr _ IH]; intros [|v vals] Hlen; simpl in *;
      try done.
    rewrite list_lookup_insert_ne by done. f_equal. apply IH. lia.
  - rewrite (col_pos_app_l _ _ _ _ Hj'), Hj'.
    revert vals Hlen. unfold aligned in Hal.
    induction Hal as [|r rs Hr _ IH]; intros [|v vals] Hlen; simpl in *;
      try done.
    rewrite lookup_app_l by lia. f_equal. apply IH. lia.
Qed.

(** [df'] is [df] with the columns [cs] written, or added, and nothing else
    changed. *)
Definition writes (cs : list string) (df df' : DataFrame) : Prop :=
  index df' = index df ∧ length (values df') = length (values df) ∧
  (∀ c, c ∈ columns df → c ∈ columns df') ∧
  (∀ c, c ∈ columns df → c ∉ cs → getcol df' c = getcol df c).

Lemma writes_refl cs df : writes cs df df.
Proof. by repeat split. Qed.

Lemma writes_trans cs df1 df2 df3 :
  writes cs df1 df2 → writes cs df2 df3 → writes cs df1 df3.
Proof.
  intros (Hi1 & Hl1 & Hc1 & Hg1) (Hi2 & Hl2 & Hc2 & Hg2).
  split; [congruence|]. split; [congruence|]. split; [auto|].
  intros c Hc Hn. rewrite Hg2 by auto. auto.
Qed.

Lemma writes_mono cs cs' df df' :
  (∀ c, c ∈ cs → c ∈ cs') → writes cs df df' → writes cs' df df'.
Proof.
  intros Hsub (Hi & Hl & Hc & Hg). do 3 (split; [done|]).
  intros c Hin Hn. apply Hg; [done|]. intros ?. apply Hn. auto.
Qed.

Lemma writes_setcol df c vals :
  aligned df → length vals = length (values df) →
  writes [c] df (setcol df c vals).
Proof.
  intros Hal Hlen. split; [apply index_setcol|].
  split; [by apply values_length_setcol|].
  split; [intros; by apply columns_setcol|].
  intros c' Hin Hn. apply getcol_setcol_other; try done.
  intros ->. apply Hn. by left.
Qed.

Lemma setcol_where_writes df mask c v df' :
  aligned df → length mask = length (values df) →
  setcol_where df mask c v = Ok df' →
  aligned df' ∧ writes [c] df df' ∧
  ∃ col, getcol df c = Ok col ∧
         getcol df' c = Ok (zip_with (λ (b : bool) old, if b then v else old) mask col).
Proof.
  intros Hal Hlen. unfold setcol_where.
  intros (col & Hcol & [= <-])%bind_Ok.
  pose proof (getcol_length _ _ _ Hcol) as Hl.
  assert (length (zip_with (λ (b : bool) old, if b then v else old) mask col)
          = length (values df)) as Hlz by (rewrite length_zip_with; lia).
  split; [by apply aligned_setcol|]. split; [by apply writes_setcol|].
  exists col. split; [done|]. by apply getcol_setcol_same.
Qed.

Section biasGroups_writes.
Variable num_repr : spec_float → string.
Variable func : Series → Series → string → Z → outcome record.
Variables yt yh : string.

Lemma biasGroups_value_writes f cur sw v cur' sw' :
  aligned cur → biasGroups_value func yt yh f (cur, sw) v = Ok (cur', sw') →
  aligned cur' ∧ writes [pa_name] cur cur'.
Proof.
  intros Hal. unfold biasGroups_value.
  set (df0 := setcol cur pa_name (map (λ _, num 0) (values cur))).
  assert (aligned df0) as Hal0 by by apply aligned_setcol.
  assert (writes [pa_name] cur df0) as Hw0
    by (apply writes_setcol; [done|apply length_map]).
  intros H. apply bind_Ok in H as (colf & Hcolf & H).
  apply bind_Ok in H as (df1 & Hdf1 & H).
  apply setcol_where_writes in Hdf1 as (Hal1 & Hw1 & _);
    [|done|by rewrite length_map; eapply getcol_length].
  apply bind_Ok in H as (df2 & Hdf2 & H).
  assert (aligned df2 ∧ writes [pa_name] df1 df2) as [Hal2 Hw2].
  { destruct (negb (v =? "nan")%string).
    - apply bind_Ok in Hdf2 as (colf2 & Hcolf2 & Hdf2).
      apply setcol_where_writes in Hdf2 as (? & ? & _);
        [done|done|by rewrite length_map; eapply getcol_length].
    - injection Hdf2 as <-. split; [done|apply writes_refl]. }
  assert (aligned df2 ∧ writes [pa_name] cur df2) as Hres.
  { split; [done|]. eauto using writes_trans. }
  apply bind_Ok in H as (pa & _ & H).
  destruct (nunique pa =? 1)%nat; [by injection H as <- <-|].
  apply bind_Ok in H as (coly & _ & H).
  apply bind_Ok in H as (colh & _ & H).
  destruct (func _ _ _ _) as [w [d|e]].
  - apply bind_Ok in H as (t1 & _ & H). apply bind_Ok in H as (t2 & _ & H).
    by injection H as <- <-.
  - by injection H as <- <-.
Qed.

Lemma foldM_value_writes f vals cur sw cur' sw' :
  aligned cur →
  foldM (biasGroups_value func yt yh f) (cur, sw) vals = Ok (cur', sw') →
  aligned cur' ∧ writes [pa_name] cur cur'.
Proof.
  revert cur sw. induction vals as [|v vals IH]; intros cur sw Hal; simpl.
  - intros [= <- <-]. split; [done|apply writes_refl].
  - intros ([cur1 sw1] & H1 & H2)%bind_Ok.
    destruct (biasGroups_value_writes _ _ _ _ _ _ Hal H1) as [Hal1 Hw1].
    destruct (IH _ _ Hal1 H2) as [Hal2 Hw2]. eauto using writes_trans.
Qed.

Definition as_strings (col : list cell) : list cell :=
  map (λ c, CStr (astype_str num_repr c)) col.

Lemma as_strings_idemp col : as_strings (as_strings col) = as_strings col.
Proof. unfold as_strings. rewrite map_map. by apply map_ext. Qed.

Lemma biasGroups_body_writes f cur sw cur' sw' :
  aligned cur → f ≠ pa_name →
  biasGroups_body num_repr func yt yh (cur, sw) f = Ok (cur', sw') →
  aligned cur' ∧ writes [f; pa_name] cur cur' ∧
  ∃ col, getcol cur f = Ok col ∧ getcol cur' f = Ok (as_strings col).
Proof.
  intros Hal Hne. unfold biasGroups_body.
  intros H. apply bind_Ok in H as (colf & Hcolf & H).
  set (cur1 := setcol cur f _) in H.
  assert (length (as_strings colf) = length (values cur)) as Hlen
    by (unfold as_strings; rewrite length_map; by eapply getcol_length).
  assert (aligned cur1) as Hal1 by by apply aligned_setcol.
  assert (writes [f] cur cur1) as Hw1 by by apply writes_setcol.
  assert (getcol cur1 f = Ok (as_strings colf)) as Hg1
    by by apply getcol_setcol_same.
  apply bind_Ok in H as (colf' & _ & H).
  destruct (foldM_value_writes _ _ _ _ _ _ Hal1 H) as [Hal2 Hw2].
  split; [done|]. split.
  - eapply writes_trans; (eapply writes_mono; [|eassumption]);
      intros c ->%list_elem_of_singleton; [by left|by right; left].
  - exists colf. split; [done|]. destruct Hw2 as (_ & _ & _ & Hg).
    rewrite Hg; [done|apply columns_setcol_new|].
    by intros ->%list_elem_of_singleton.
Qed.

(** What the sweep has done to the table once the features [seen] are
    through. *)
Definition swept (df : DataFrame) (seen : list string) (cur : DataFrame) : Prop :=
  aligned cur ∧ writes (pa_name :: seen) df cur ∧
  ∀ f col, f ∈ seen → getcol df f = Ok col → getcol cur f = Ok (as_strings col).

Lemma foldM_body_swept df features seen cur sw cur' sw' :
  pa_name ∉ seen ++ features → swept df seen cur →
  foldM (biasGroups_body num_repr func yt yh) (cur, sw) features = Ok (cur', sw') →
  swept df (seen ++ features) cur'.
Proof.
  revert seen cur sw. induction features as [|g l IH]; intros seen cur sw Hpa Hsw;
    simpl.
  - intros [= <- <-]. by rewrite app_nil_r.
  - intros ([cur1 sw1] & H1 & H2)%bind_Ok.
    rewrite (cons_middle g seen l), app_assoc in Hpa |- *.
    apply (IH _ _ _ Hpa) in H2; [done|]. clear H2 IH.
    destruct Hsw as (Hal & Hw & Hstr).
    assert (g ≠ pa_name) as Hg.
    { intros ->. apply Hpa. apply elem_of_app. left. apply elem_of_app. right.
      by left. }
    destruct (biasGroups_body_writes _ _ _ _ _ Hal Hg H1)
      as (Hal1 & Hw1 & colg & Hcolg & Hcolg').
    split; [done|]. split.
    + eapply writes_trans.
      * eapply writes_mono; [|exact Hw]. intros c Hc.
        apply elem_of_cons in Hc as [->|Hc]; [by left|].
        right. apply elem_of_app. by left.
      * eapply writes_mono; [|exact Hw1]. intros c Hc.
        apply elem_of_cons in Hc as [->|Hc].
        -- right. apply elem_of_app. right. by left.
        -- apply list_elem_of_singleton in Hc as ->. by left.
    + intros f col Hf Hcol.
      pose proof (getcol_inv _ _ _ Hcol) as Hin.
      destruct (decide (f = g)) as [->|Hfg].
      * rewrite Hcolg'. f_equal.
        destruct (decide (g ∈ seen)) as [Hseen|Hseen].
        -- rewrite (Hstr g col Hseen Hcol) in Hcolg. injection Hcolg as <-.
           apply as_strings_idemp.
        -- destruct Hw as (_ & _ & _ & Hkeep).
           rewrite Hkeep in Hcolg; [congruence|done|].
           intros [?|?]%elem_of_cons; done.
      * apply elem_of_app in Hf as [Hf|Hf%list_elem_of_singleton]; [|done].
        destruct Hw as (_ & _ & Hcols & _).
        destruct Hw1 as (_ & _ & _ & Hkeep1).
        rewrite Hkeep1; [by apply Hstr|by apply Hcols|].
        intros Hin'. apply elem_of_cons in Hin' as [->|Hin']; [done|].
        apply list_elem_of_singleton in Hin' as ->.
        apply Hpa. apply elem_of_app. left. apply elem_of_app. by left.
Qed.
End biasGroups_writes.

(** X13: [__apply_biasGroups] works on the caller's table.  When it
    returns, the table has the rows and the index it had, every column it had
    is still there, and a column that is neither a feature of the list nor
    [prtc_attr] holds what it held; but every feature of the list now holds
    the string form of its values. *)
Theorem biasGroups_rewrites_the_features (num_repr : spec_float → string)
    (func : Series → Series → string → Z → outcome record) (yt yh : string)
    (features : list string) (df df' : DataFrame)
    (out : DataFrame * gmap string exn * gmap string (list warning)) :
  aligned df → pa_name ∉ features →
  __apply_biasGroups num_repr func yt yh features df = Ok (df', out) →
  index df' = index df ∧ length (values df') = length (values df) ∧
  aligned df' ∧
  (∀ c, c ∈ columns df → c ∈ columns df') ∧
  (∀ c, c ∈ columns df → c ∉ features → c ≠ pa_name →
        getcol df' c = getcol df c) ∧
  (∀ f col, f ∈ features → getcol df f = Ok col →
            getcol df' f = Ok (as_strings num_repr col)).
Proof.
  intros Hal Hpa Hrun. unfold __apply_biasGroups in Hrun.
  apply bind_Ok in Hrun as ([cur sw] & Hfold & [= <- <-]).
  destruct (foldM_body_swept num_repr func yt yh df features [] df sweep0 cur sw)
    as (Hal' & (Hi & Hl & Hc & Hk) & Hstr); try done.
  { split; [done|]. split; [apply writes_refl|]. by intros f col ?%elem_of_nil. }
  cbn [app] in *. do 4 (split; [done|]). split; [|done].
  intros c Hin Hn Hne. apply Hk; [done|]. by intros [?|?]%elem_of_cons.
Qed.

Definition region_swept : DataFrame :=
  mkDF (RangeIndex 10) [None] ["region"; "y"; "yh"; "prtc_attr"]
    (replicate 5 [CStr "north"; num 1; num 1; num 0]
     ++ replicate 5 [CStr "south"; num 0; num 1; num 1]).

Lemma biasGroups_rewrites_the_features_witness :
  index region_swept = index region_table ∧
  length (values region_swept) = length (values region_table) ∧
  aligned region_swept ∧
  (∀ c, c ∈ columns region_table → c ∈ columns region_swept) ∧
  (∀ c, c ∈ columns region_table → c ∉ ["region"] → c ≠ pa_name →
        getcol region_swept c = getcol region_table c) ∧
  (∀ f col, f ∈ ["region"] → getcol region_table f = Ok col →
            getcol region_swept f = Ok (as_strings (λ _, "") col)).
Proof.
  eapply (biasGroups_rewrites_the_features (λ _, "") selection_ratio "y" "yh"
            ["region"] region_table region_swept).
  - repeat constructor.
  - apply (bool_decide_unpack _). vm_compute. exact I.
  - vm_compute. reflexivity.
Defined.

(** ** A feature with one value *)

Lemma unique_by_replicate {A} (eqb : A → A → bool) (x : A) (n : nat) :
  eqb x x = true → unique_by eqb (replicate (S n) x) = [x].
Proof.
  intros Hx. induction n as [|n IH]; [done|].
  change (replicate (S (S n)) x) with (x :: replicate (S n) x).
  cbn [unique_by]. rewrite IH. cbn [List.filter]. by rewrite Hx.
Qed.

Lemma Forall_eq_replicate {A} (x : A) (l : list A) :
  Forall (λ y, y = x) l → l = replicate (length l) x.
Proof. induction 1 as [|y l -> _ IH]; simpl; [done|by rewrite <- IH]. Qed.

Lemma zip_with_replicate_both {A B C} (f : A → B → C) (a : A) (b : B) (n : nat) :
  zip_with f (replicate n a) (replicate n b) = replicate n (f a b).
Proof. induction n as [|n IH]; simpl; [done|by rewrite IH]. Qed.

Lemma map_replicate {A B} (f : A → B) (x : A) (n : nat) :
  map f (replicate n x) = replicate n (f x).
Proof. induction n as [|n IH]; simpl; [done|by rewrite IH]. Qed.

Lemma map_const_replicate {A B} (y : B) (l : list A) :
  map (λ _, y) l = replicate (length l) y.
Proof. induction l as [|x l IH]; simpl; [done|by rewrite IH]. Qed.

Lemma Ok_bind {A B} (a : A) (k : A → result B) : Ok a ≫= k = k a.
Proof. reflexivity. Qed.

Lemma setcol_where_known df mask c v col :
  getcol df c = Ok col →
  setcol_where df mask c v
  = Ok (setcol df c (zip_with (λ (b : bool) old, if b then v else old) mask col)).
Proof. intros H. unfold setcol_where. by rewrite H. Qed.

Section biasGroups_single.
Variable num_repr : spec_float → string.
Variable func : Series → Series → string → Z → outcome record.
Variables yt yh : string.

(** The iteration of the one value of a feature marks every observation,
    finds one group and goes on: the metric function is not called. *)
Lemma biasGroups_value_single f cur sw v n :
  aligned cur → f ≠ pa_name → length (values cur) = S n →
  getcol cur f = Ok (replicate (S n) (CStr v)) →
  ∃ cur', biasGroups_value func yt yh f (cur, sw) v = Ok (cur', sw).
Proof.
  intros Hal Hne Hlen Hf. pose proof (getcol_inv _ _ _ Hf) as Hin.
  unfold biasGroups_value.
  rewrite (map_const_replicate (num 0) (values cur)), Hlen.
  set (df0 := setcol cur pa_name (replicate (S n) (num 0))).
  assert (length (replicate (S n) (num 0)) = length (values cur)) as Hl0
    by by rewrite length_replicate.
  assert (aligned df0) as Hal0 by by apply aligned_setcol.
  assert (length (values df0) = S n) as Hlen0
    by (unfold df0; by rewrite values_length_setcol).
  assert (getcol df0 f = Ok (replicate (S n) (CStr v))) as Hf0
    by (unfold df0; by rewrite getcol_setcol_other).
  assert (getcol df0 pa_name = Ok (replicate (S n) (num 0))) as Hpa0
    by by apply getcol_setcol_same.
  rewrite Hf0, Ok_bind. rewrite (setcol_where_known _ _ _ _ _ Hpa0), Ok_bind.
  rewrite map_replicate. cbn [cell_eqb]. rewrite String.eqb_refl.
  rewrite zip_with_replicate_both.
  set (df1 := setcol df0 pa_name (replicate (S n) (num 1))).
  assert (length (replicate (S n) (num 1)) = length (values df0)) as Hl1
    by by rewrite length_replicate.
  assert (aligned df1) as Hal1 by by apply aligned_setcol.
  assert (length (values df1) = S n) as Hlen1
    by (unfold df1; by rewrite values_length_setcol).
  assert (getcol df1 f = Ok (replicate (S n) (CStr v))) as Hf1.
  { unfold df1. rewrite getcol_setcol_other; try done.
    unfold df0. by apply columns_setcol. }
  assert (getcol df1 pa_name = Ok (replicate (S n) (num 1))) as Hpa1
    by by apply getcol_setcol_same.
  assert (∃ df2, (if negb (v =? "nan")%string
                  then colf ← getcol df1 f;
                       setcol_where df1 (map (λ c, cell_eqb c (CStr "nan")) colf)
                                    pa_name nan
                  else Ok df1) = Ok df2 ∧
                 getcol df2 pa_name = Ok (replicate (S n) (num 1)))
    as (df2 & -> & Hpa2).
  { destruct (String.eqb_spec v "nan") as [->|Hnan]; cbn [negb]; [by eauto|].
    rewrite Hf1, Ok_bind. rewrite (setcol_where_known _ _ _ _ _ Hpa1).
    eexists. split; [done|].
    rewrite map_replicate. cbn [cell_eqb].
    apply String.eqb_neq in Hnan. rewrite Hnan.
    rewrite zip_with_replicate_both.
    apply getcol_setcol_same; [done|]. by rewrite length_replicate. }
  rewrite Ok_bind, Hpa2, Ok_bind.
  assert (nunique (replicate (S n) (num 1)) = 1%nat) as ->.
  { unfold nunique.
    rewrite (filter_all notnull) by (by intros c ->%elem_of_replicate_inv).
    by rewrite unique_by_replicate. }
  by eexists.
Qed.

Definition one_valued (v : string) (col : list cell) : Prop :=
  Forall (λ c, astype_str num_repr c = v) col.

Lemma biasGroups_body_single f cur sw v col :
  aligned cur → f ≠ pa_name → getcol cur f = Ok col → one_valued v col →
  ∃ cur', biasGroups_body num_repr func yt yh (cur, sw) f = Ok (cur', sw).
Proof.
  intros Hal Hne Hf Hone. unfold biasGroups_body. rewrite Hf.
  rewrite Ok_bind.
  pose proof (getcol_length _ _ _ Hf) as Hlen.
  assert (map (λ c, CStr (astype_str num_repr c)) col
          = replicate (length (values cur)) (CStr v)) as ->.
  { rewrite <- Hlen, <- (length_map (λ c, CStr (astype_str num_repr c)) col).
    apply Forall_eq_replicate. apply Forall_forall.
    intros c (c0 & -> & Hc0)%list_elem_of_fmap.
    unfold one_valued in Hone. rewrite Forall_forall in Hone.
    by rewrite (Hone c0 Hc0). }
  set (cur1 := setcol cur f _).
  assert (length (replicate (length (values cur)) (CStr v)) = length (values cur))
    as Hl by apply length_replicate.
  assert (aligned cur1) as Hal1 by by apply aligned_setcol.
  assert (getcol cur1 f = Ok (replicate (length (values cur)) (CStr v))) as Hf1
    by by apply getcol_setcol_same.
  assert (length (values cur1) = length (values cur)) as Hlen1
    by (unfold cur1; by rewrite values_length_setcol).
  rewrite Hf1. rewrite Ok_bind. rewrite map_replicate. cbn [astype_str].
  destruct (length (values cur)) as [|n] eqn:Hn.
  - cbn [replicate unique_by]. by eexists.
  - rewrite unique_by_replicate by apply String.eqb_refl.
    change (merge_sort String.le [v]) with [v]. cbn [foldM].
    destruct (biasGroups_value_single f cur1 sw v n) as [cur' ->]; try done.
    by eexists.
Qed.

Lemma foldM_body_single df features seen cur sw :
  pa_name ∉ seen ++ features → swept num_repr df seen cur →
  (∀ f, f ∈ features → ∃ v col, getcol df f = Ok col ∧ one_valued v col) →
  ∃ cur', foldM (biasGroups_body num_repr func yt yh) (cur, sw) features
          = Ok (cur', sw).
Proof.
  revert seen cur. induction features as [|g l IH]; intros seen cur Hpa Hsw Hone;
    cbn [foldM]; [by eexists|].
  assert (g ≠ pa_name) as Hg.
  { intros ->. apply Hpa. apply elem_of_app. right. by left. }
  destruct (Hone g) as (v & col & Hcol & Hv); [by left|].
  destruct Hsw as (Hal & Hw & Hstr).
  assert (∃ colc, getcol cur g = Ok colc ∧ one_valued v colc) as (colc & Hc & Hvc).
  { destruct (decide (g ∈ seen)) as [Hseen|Hseen].
    - exists (as_strings num_repr col). split; [by apply Hstr|].
      unfold one_valued, as_strings. rewrite Forall_map. exact Hv.
    - exists col. split; [|done]. destruct Hw as (_ & _ & _ & Hkeep).
      rewrite Hkeep; [done|by eapply getcol_inv|].
      intros [?|?]%elem_of_cons; done. }
  destruct (biasGroups_body_single g cur sw v colc Hal Hg Hc Hvc) as [cur1 Hbody].
  rewrite Hbody. rewrite Ok_bind.
  rewrite (cons_middle g seen l), app_assoc in Hpa.
  apply (IH (seen ++ [g])); [done| |intros f ?; apply Hone; by right].
  apply (foldM_body_swept num_repr func yt yh df [g] seen cur sw cur1 sw).
  - intros Hin. apply Hpa. apply elem_of_app. by left.
  - done.
  - cbn [foldM]. by rewrite Hbody.
Qed.
End biasGroups_single.

(** X14: nothing is measured for a feature with one value.  When every
    feature of the list has the same string form on all its observations,
    [__apply_biasGroups] returns the empty table with empty ledgers, whatever
    the metric function (also one that raises on every call) and the target
    columns. *)
Theorem one_valued_features_give_no_row (num_repr : spec_float → string)
    (func : Series → Series → string → Z → outcome record) (yt yh : string)
    (features : list string) (df : DataFrame) :
  aligned df → pa_name ∉ features →
  (∀ f, f ∈ features → ∃ v col, getcol df f = Ok col ∧ one_valued num_repr v col) →
  ∃ df', __apply_biasGroups num_repr func yt yh features df
         = Ok (df', (no_rows, ∅, ∅)).
Proof.
  intros Hal Hpa Hone. unfold __apply_biasGroups.
  destruct (foldM_body_single num_repr func yt yh df features [] df sweep0)
    as [cur' ->]; try done.
  { split; [done|]. split; [apply writes_refl|]. by intros f col ?%elem_of_nil. }
  by eexists.
Qed.

(** Ten observations of one region. *)
Definition north_table : DataFrame :=
  mkDF (RangeIndex 10) [None] ["region"; "y"; "yh"]
       (replicate 10 [CStr "north"; num 1; num 1]).

Lemma one_valued_features_give_no_row_witness :
  ∃ df', __apply_biasGroups (λ _, "") bias_raise_always "y" "yh" ["region"] north_table
         = Ok (df', (no_rows, ∅, ∅)).
Proof.
  apply (one_valued_features_give_no_row (λ _, "") bias_raise_always "y" "yh"
           ["region"] north_table).
  - repeat constructor.
  - apply (bool_decide_unpack _). vm_compute. exact I.
  - intros f ->%list_elem_of_singleton.
    exists "north", (replicate 10 (CStr "north")). split; [reflexivity|].
    repeat constructor.
Defined.

(** ** The overview row of the performance reports *)

Lemma union_cols_NoDup acc l : NoDup acc → NoDup (union_cols acc l).
Proof.
  revert acc. induction l as [|c l IH]; intros acc Hnd; simpl; [done|].
  case_bool_decide as Hc; [by apply IH|].
  apply IH. apply NoDup_app. split; [done|]. split.
  - by intros x Hx ->%list_elem_of_singleton.
  - apply NoDup_singleton.
Qed.

Lemma elem_of_union_cols acc l c : c ∈ union_cols acc l ↔ c ∈ acc ∨ c ∈ l.
Proof.
  revert acc. induction l as [|c' l IH]; intros acc; simpl.
  - rewrite elem_of_nil. tauto.
  - rewrite (elem_of_cons l). case_bool_decide as Hc; rewrite IH.
    + split; [tauto|]. intros [?|[->|?]]; tauto.
    + rewrite elem_of_app, list_elem_of_singleton. tauto.
Qed.

Lemma fold_union_NoDup (frames : list DataFrame) acc :
  NoDup acc → NoDup (fold_left (λ acc d, union_cols acc (columns d)) frames acc).
Proof.
  revert acc. induction frames as [|d ds IH]; intros acc Hnd; simpl; [done|].
  by apply IH, union_cols_NoDup.
Qed.

Lemma concat_columns_NoDup frames : NoDup (columns (concat frames)).
Proof. apply fold_union_NoDup, NoDup_nil_2. Qed.

Lemma collect_columns_NoDup frames : NoDup (columns (collect frames)).
Proof.
  unfold collect. destruct (length frames =? 0)%nat.
  - apply (bool_decide_unpack _). vm_compute. exact I.
  - apply concat_columns_NoDup.
Qed.

Lemma row_get_map (cols : list string) (f : string → cell) (c : string) :
  c ∈ cols → row_get cols (map f cols) c = f c.
Proof.
  intros Hc. unfold row_get.
  destruct (col_pos_is_Some c cols Hc) as [j Hj]. rewrite Hj.
  apply col_pos_lookup in Hj. by rewrite lookup_map, Hj.
Qed.

(** [report[cols]] read by row. *)
Definition reorder (js : list nat) (r : list cell) : list cell :=
  map (λ j, default nan (r !! j)) js.

Lemma sort_report_by_name yname yhname (t : DataFrame) :
  NoDup (columns t) →
  ∃ js cols,
    sort_report yname yhname t
    = Ok (mkDF (index t) (index_names t) cols (map (reorder js) (values t))) ∧
    Forall2 (λ c j, col_pos c (columns t) = Some j) cols js ∧
    ∀ c, c ∈ cols ↔ c ∈ columns t.
Proof.
  intros Hnd. unfold sort_report.
  set (cols := head_cols yname yhname t ++ tail_cols yname yhname t).
  assert (∀ c, c ∈ cols ↔ c ∈ columns t) as Hcols.
  { intros c. unfold cols, tail_cols, head_cols, has_col.
    rewrite elem_of_app, merge_sort_Permutation, !elem_of_filter_bool,
      negb_true_iff, bool_decide_eq_true, bool_decide_eq_false,
      elem_of_filter_bool, bool_decide_eq_true.
    destruct (decide (c ∈ head_names yname yhname)); tauto. }
  destruct (getitem_cols_Ok t cols Hnd) as (js & Hsel & Hjs); [by intros c ?%Hcols|].
  by exists js, cols.
Qed.

(** The cell of row [i] under the column labelled [c]. *)
Definition cell_of (t : DataFrame) (i : nat) (c : string) : option cell :=
  (λ r, row_get (columns t) r c) <$> values t !! i.

(** What a report with the overview row is to the report without it. *)
Definition overview_first (t t0 : DataFrame) : Prop :=
  length (values t) = S (length (values t0)) ∧
  cell_of t 0 "Feature Name" = Some (CStr "ALL FEATURES") ∧
  cell_of t 0 "Feature Value" = Some (CStr "ALL VALUES") ∧
  (∀ c, c ∈ columns t0 → c ∈ columns t) ∧
  (∀ i c, c ∈ columns t0 → cell_of t (S i) c = cell_of t0 i c).

Lemma overview_sorted yname yhname (ov : record) (results t : DataFrame) :
  NoDup (columns results) →
  sort_report yname yhname (concat [frame_of_record ov; results]) = Ok t →
  ∃ t0, sort_report yname yhname results = Ok t0 ∧
        length (values t) = S (length (values t0)) ∧
        (∀ c, c ∈ map fst ov →
              c ∈ columns t ∧
              cell_of t 0 c = Some (row_get (map fst ov) (map snd ov) c)) ∧
        (∀ c, c ∈ columns t0 → c ∈ columns t) ∧
        (∀ i c, c ∈ columns t0 → cell_of t (S i) c = cell_of t0 i c) ∧
        aligned t ∧ aligned t0.
Proof.
  intros Hnd.
  remember (concat [frame_of_record ov; results]) as both eqn:Eboth.
  assert (NoDup (columns both)) as Hndb
    by (rewrite Eboth; apply concat_columns_NoDup).
  assert (∀ c, c ∈ columns both ↔ c ∈ map fst ov ∨ c ∈ columns results) as Hboth.
  { intros c. rewrite Eboth. unfold concat. cbn [fold_left columns frame_of_record].
    rewrite !elem_of_union_cols, elem_of_nil. tauto. }
  assert (values both
          = map (row_get (map fst ov) (map snd ov)) (columns both)
            :: map (λ r, map (row_get (columns results) r) (columns both))
                   (values results)) as Hrows.
  { rewrite Eboth. unfold concat. cbn [values flat_map frame_of_record columns map].
    by rewrite app_nil_r. }
  clear Eboth.
  destruct (sort_report_by_name yname yhname both Hndb)
    as (js & cols & -> & Hjs & Hcols).
  destruct (sort_report_by_name yname yhname results Hnd)
    as (js0 & cols0 & -> & Hjs0 & Hcols0).
  intros [= <-]. eexists. split; [done|].
  split; [|split; [|split; [|split; [|split]]]].
  - cbn [values]. rewrite !length_map, Hrows. cbn [length]. by rewrite length_map.
  - intros c Hc. split; [apply Hcols, Hboth; by left|].
    unfold cell_of. cbn [values columns]. rewrite Hrows.
    cbn [map lookup list_lookup fmap option_fmap option_map].
    f_equal. unfold reorder.
    rewrite (row_get_reorder (columns both)); [|done|apply Hcols, Hboth; by left].
    apply row_get_map, Hboth. by left.
  - cbn [columns]. intros c Hc%Hcols0. apply Hcols, Hboth. by right.
  - cbn [columns]. intros i c Hc. unfold cell_of. cbn [values columns].
    rewrite Hrows. cbn [map]. rewrite <- lookup_tail. cbn [tail].
    rewrite !lookup_map. destruct (values results !! i) as [r|]; [|done].
    cbn [fmap option_fmap option_map]. f_equal. unfold reorder.
    apply Hcols0 in Hc as Hc'.
    rewrite (row_get_reorder (columns both)); [|done|apply Hcols, Hboth; by right].
    rewrite (row_get_reorder (columns results)) by done.
    apply row_get_map, Hboth. by right.
  - apply Forall_forall. intros r (r0 & -> & _)%list_elem_of_fmap. cbn [columns].
    unfold reorder. rewrite length_map. symmetry. by eapply Forall2_length.
  - apply Forall_forall. intros r (r0 & -> & _)%list_elem_of_fmap. cbn [columns].
    unfold reorder. rewrite length_map. symmetry. by eapply Forall2_length.
Qed.

(** *** Dictionaries *)

(** [d[k]], NaN where the key is missing. *)
Definition dict_get (k : string) (d : record) : cell :=
  row_get (map fst d) (map snd d) k.

Lemma row_get_cons c c' cols v r :
  row_get (c' :: cols) (v :: r) c = if String.eqb c c' then v else row_get cols r c.
Proof.
  unfold row_get. cbn [col_pos]. destruct (String.eqb c c'); [done|].
  by destruct (col_pos c cols).
Qed.

Lemma dict_get_cons k k' v d :
  dict_get k ((k', v) :: d) = if String.eqb k k' then v else dict_get k d.
Proof. apply row_get_cons. Qed.

Lemma dict_get_set k k' v d :
  dict_get k (dict_set k' v d) = if String.eqb k k' then v else dict_get k d.
Proof.
  induction d as [|[k0 v0] d IH]; cbn [dict_set].
  - rewrite dict_get_cons. by destruct (String.eqb k k').
  - destruct (String.eqb_spec k' k0) as [->|Hne]; rewrite !dict_get_cons.
    + by destruct (String.eqb k k0).
    + rewrite IH. destruct (String.eqb_spec k k0) as [->|?]; [|done].
      by rewrite (proj2 (String.eqb_neq k0 k')).
Qed.

Lemma dict_set_keys k v d k' :
  k' ∈ map fst (dict_set k v d) ↔ k' ∈ map fst d ∨ k' = k.
Proof.
  induction d as [|[k0 v0] d IH]; cbn [dict_set map fst].
  - rewrite list_elem_of_singleton, elem_of_nil. tauto.
  - destruct (String.eqb_spec k k0) as [->|Hne]; cbn [map fst];
      rewrite !elem_of_cons, ?IH; tauto.
Qed.

Lemma dict_set_NoDup k v d : NoDup (map fst d) → NoDup (map fst (dict_set k v d)).
Proof.
  induction d as [|[k0 v0] d IH]; cbn [dict_set map fst].
  - intros _. apply NoDup_singleton.
  - intros [Hk0 Hnd]%NoDup_cons.
    destruct (String.eqb_spec k k0) as [->|Hne]; cbn [map fst];
      apply NoDup_cons; (split; [|auto]); [done|].
    rewrite dict_set_keys. intros [?|?]; [done|]. by apply Hne.
Qed.

Lemma fold_dict_set_other k (ov d : record) :
  k ∉ map fst ov →
  dict_get k (fold_left (λ d kv, dict_set kv.1 kv.2 d) ov d) = dict_get k d.
Proof.
  revert d. induction ov as [|[k1 v1] ov IH]; intros d Hk; cbn [fold_left]; [done|].
  cbn [map fst] in Hk. apply not_elem_of_cons in Hk as [Hne Hk].
  rewrite IH by done. cbn [fst snd]. rewrite dict_get_set.
  by rewrite (proj2 (String.eqb_neq k k1)).
Qed.

Lemma fold_dict_set_same k (ov d : record) :
  NoDup (map fst ov) → k ∈ map fst ov →
  dict_get k (fold_left (λ d kv, dict_set kv.1 kv.2 d) ov d) = dict_get k ov.
Proof.
  revert d. induction ov as [|[k1 v1] ov IH]; intros d Hnd Hk; cbn [fold_left].
  - by apply elem_of_nil in Hk.
  - cbn [map fst] in Hnd, Hk. apply NoDup_cons in Hnd as [Hk1 Hnd].
    rewrite dict_get_cons. cbn [fst snd].
    destruct (String.eqb_spec k k1) as [->|Hne].
    + rewrite fold_dict_set_other by done. rewrite dict_get_set.
      by rewrite String.eqb_refl.
    + apply elem_of_cons in Hk as [?|Hk]; [done|]. by apply IH.
Qed.

Lemma fold_dict_set_keys k (ov d : record) :
  k ∈ map fst (fold_left (λ d kv, dict_set kv.1 kv.2 d) ov d)
  ↔ k ∈ map fst d ∨ k ∈ map fst ov.
Proof.
  revert d. induction ov as [|[k1 v1] ov IH]; intros d; cbn [fold_left map fst].
  - rewrite elem_of_nil. tauto.
  - rewrite IH, dict_set_keys, elem_of_cons. cbn [fst]. tauto.
Qed.

(** *** The records of [__perf_rep] *)

Ltac not_fixed H :=
  repeat (match type of H with
          | (?s ++ _)%string = _ =>
              destruct s as [|? s]; simpl in H;
              [discriminate H | first [discriminate H | injection H as _ H]]
          end).

Lemma median_not_head (s : string) :
  (s ++ " Median")%string ∉ ["Feature Name"; "Feature Value"; "Obs."].
Proof.
  intros H. repeat (apply elem_of_cons in H as [H|H]);
    [| | |by apply elem_of_nil in H]; not_fixed H.
Qed.

Lemma std_dev_not_head (s : string) :
  (s ++ " Std. Dev.")%string ∉ ["Feature Name"; "Feature Value"; "Obs."].
Proof.
  intros H. repeat (apply elem_of_cons in H as [H|H]);
    [| | |by apply elem_of_nil in H]; not_fixed H.
Qed.

Section perf_rep_facts.
Variables yname yhname : string.
Variable statistic : string → list (list cell) → outcome spec_float.

Lemma eval_entries_inv x es d w r :
  eval_entries statistic x es d = (w, Ok r) →
  NoDup (map fst d) →
  NoDup (map fst r) ∧
  (∀ k, k ∈ map fst r → k ∈ map fst d ∨ k ∈ map fst es) ∧
  (∀ k, k ∈ map fst d → k ∈ map fst r) ∧
  (∀ k, k ∉ map fst es → dict_get k r = dict_get k d).
Proof.
  revert d w. induction es as [|[k cols] es IH]; intros d w; cbn [eval_entries].
  - intros [= <- <-] Hnd. split; [done|]. split; [by left|done].
  - destruct (entry statistic x k cols) as [w1 [v|e]]; [|done].
    destruct (eval_entries statistic x es (dict_set k v d)) as [w2 r2] eqn:Hrec.
    intros [= <- ->] Hnd.
    destruct (IH _ _ Hrec (dict_set_NoDup k v d Hnd)) as (Hnd' & Hkeys & Hkept & Hget).
    split; [done|]. split; [|split].
    + intros k' Hk'. cbn [map fst]. rewrite elem_of_cons.
      apply Hkeys in Hk' as [Hk'|Hk']; [|tauto].
      apply dict_set_keys in Hk' as [?|?]; tauto.
    + intros k' Hk'. apply Hkept, dict_set_keys. by left.
    + intros k' Hk'. cbn [map fst] in Hk'. apply not_elem_of_cons in Hk' as [Hne Hk'].
      rewrite Hget by done. rewrite dict_get_set.
      by rewrite (proj2 (String.eqb_neq k' k)).
Qed.

(** What both [__perf_rep] functions return: a dictionary with distinct
    keys, none of them a head label of the overview, that holds the number
    of rows under [Obs.]. *)
Definition counts_rows {Args} (rep : DataFrame → Args → outcome record) : Prop :=
  ∀ x a w d, rep x a = (w, Ok d) →
    NoDup (map fst d) ∧ ("Feature Name" ∉ map fst d) ∧ ("Feature Value" ∉ map fst d) ∧
    "Obs." ∈ map fst d ∧ dict_get "Obs." d = num (Z.of_nat (len x)).

Lemma eval_entries_counts x es w d :
  (∀ k, k ∈ ["Feature Name"; "Feature Value"; "Obs."] → k ∉ map fst es) →
  eval_entries statistic x es [("Obs.", num (Z.of_nat (len x)))] = (w, Ok d) →
  NoDup (map fst d) ∧ ("Feature Name" ∉ map fst d) ∧ ("Feature Value" ∉ map fst d) ∧
  "Obs." ∈ map fst d ∧ dict_get "Obs." d = num (Z.of_nat (len x)).
Proof.
  intros Hfix H.
  apply eval_entries_inv in H as (Hnd & Hkeys & Hkept & Hget); [|apply NoDup_singleton].
  split; [done|]. split; [|split; [|split]].
  - intros [Hk|Hk]%Hkeys.
    + by apply list_elem_of_singleton in Hk.
    + by apply (Hfix "Feature Name"); [left|].
  - intros [Hk|Hk]%Hkeys.
    + by apply list_elem_of_singleton in Hk.
    + by apply (Hfix "Feature Value"); [right; left|].
  - apply Hkept. by left.
  - rewrite Hget; [done|]. apply Hfix. right. right. by left.
Qed.

Ltac fixed_label Hk :=
  repeat (apply elem_of_cons in Hk as [Hk|Hk]);
  first [discriminate Hk | by apply elem_of_nil in Hk].

Lemma classification_perf_rep_counts :
  counts_rows (__classification_perf_rep yname yhname statistic).
Proof.
  intros x [[y yh] yp] w d H. unfold __classification_perf_rep in H.
  apply eval_entries_counts in H; [done|].
  assert (Hm1 := mean_not_fixed yname). assert (Hm2 := mean_not_fixed yhname).
  intros k Hk Hin. rewrite map_app in Hin. cbn [map fst] in Hin.
  apply elem_of_app in Hin as [Hin|Hin].
  - repeat (apply elem_of_cons in Hin as [Hin|Hin]);
      [subst k; by apply Hm1 | subst k; by apply Hm2 | subst k; fixed_label Hk ..
      | by apply elem_of_nil in Hin].
  - destruct yp; cbn [map fst] in Hin; [|by apply elem_of_nil in Hin].
    repeat (apply elem_of_cons in Hin as [Hin|Hin]);
      [subst k; fixed_label Hk .. | by apply elem_of_nil in Hin].
Qed.

Lemma regression_perf_rep_counts :
  counts_rows (__regression_perf_rep yname yhname statistic).
Proof.
  intros x [y yh] w d H. unfold __regression_perf_rep in H.
  apply eval_entries_counts in H; [done|].
  assert (Hm1 := mean_not_fixed yname). assert (Hm2 := mean_not_fixed yhname).
  assert (Hm3 := median_not_head yhname). assert (Hm4 := std_dev_not_head yhname).
  intros k Hk Hin. cbn [map fst] in Hin.
  repeat (apply elem_of_cons in Hin as [Hin|Hin]);
    [subst k; by apply Hm1 | subst k; by apply Hm2 | subst k; by apply Hm3
    | subst k; by apply Hm4 | subst k; fixed_label Hk .. | by apply elem_of_nil in Hin].
Qed.

End perf_rep_facts.

Lemma overview_of_cells (ov : record) :
  NoDup (map fst ov) → "Feature Name" ∉ map fst ov → "Feature Value" ∉ map fst ov →
  dict_get "Feature Name" (overview_of ov) = CStr "ALL FEATURES" ∧
  dict_get "Feature Value" (overview_of ov) = CStr "ALL VALUES" ∧
  ∀ k, k ∈ map fst ov → dict_get k (overview_of ov) = dict_get k ov.
Proof.
  intros Hnd H1 H2. unfold overview_of. split; [|split].
  - by rewrite fold_dict_set_other.
  - by rewrite fold_dict_set_other.
  - intros k Hk. by apply fold_dict_set_same.
Qed.

Section performance_facts.
Variables yname yhname : string.
Variable raw : Type.
Variable y_cols : DataFrame → option string * option string * option string.

(** The report with the overview row, next to the report without it. *)
Lemma performance_body_overview {Args} (rep : DataFrame → Args → outcome record)
    (mkargs : string → string → option string → Args)
    (pre : result DataFrame) (y_true y_pred : option raw) (t : DataFrame) :
  counts_rows rep →
  performance_report_body yname yhname raw y_cols rep mkargs pre y_true y_pred true
  = Ok t →
  ∃ t0 df,
    performance_report_body yname yhname raw y_cols rep mkargs pre y_true y_pred false
    = Ok t0 ∧
    pre = Ok df ∧
    overview_first t t0 ∧
    "Obs." ∈ columns t ∧
    cell_of t 0 "Obs." = Some (num (Z.of_nat (len df))) ∧
    aligned t ∧ aligned t0.
Proof.
  intros Hrep. unfold performance_report_body.
  destruct y_true, y_pred; try discriminate.
  destruct pre as [df|e]; [|discriminate]. rewrite !Ok_bind.
  destruct (y_cols df) as [[[yt|] [yh|]] yp]; try discriminate.
  intros (results & Hres & H)%bind_Ok. rewrite Hres, !Ok_bind.
  apply bind_Ok in H as (rprt & Hov & Hsort).
  destruct (rep df (mkargs yt yh yp)) as [w [ov|e]] eqn:Hrun; [|discriminate].
  injection Hov as <-.
  destruct (Hrep _ _ _ _ Hrun) as (Hnd & Hn1 & Hn2 & Hobs & Hcount).
  destruct (overview_of_cells ov Hnd Hn1 Hn2) as (Hc1 & Hc2 & Hck).
  apply overview_sorted in Hsort
    as (t0 & Ht0 & Hlen & Hfirst & Hcols & Hrows & Hal & Hal0).
  - exists t0, df. split; [done|]. split; [done|].
    assert (∀ k, k ∈ map fst (overview_of ov) →
                 k ∈ columns t ∧ cell_of t 0 k = Some (dict_get k (overview_of ov)))
      as Hcell by exact Hfirst.
    destruct (Hcell "Feature Name") as [_ Hfn];
      [apply fold_dict_set_keys; left; by left|].
    destruct (Hcell "Feature Value") as [_ Hfv];
      [apply fold_dict_set_keys; left; right; by left|].
    destruct (Hcell "Obs.") as [Hoin Hocell]; [apply fold_dict_set_keys; by right|].
    split; [|split; [done|split; [|done]]].
    + split; [done|]. split; [by rewrite Hfn, Hc1|]. split; [by rewrite Hfv, Hc2|done].
    + by rewrite Hocell, Hck, Hcount.
  - unfold format_errwarn in Hres.
    destruct (__apply_featureGroups _ _ _ _) as [[[res0 er] wr]|] eqn:Happ;
      [|discriminate].
    injection Hres as <-. cbn [fst].
    unfold __apply_featureGroups in Happ.
    apply bind_Ok in Happ as (st & _ & [= <- _ _]).
    apply collect_columns_NoDup.
Qed.
End performance_facts.

(** X15: the overview row comes first.  When a performance report returns
    with [add_overview=True], it returns with [add_overview=False] as well,
    and the first table is the second with one row before its rows: that
    row reads ALL FEATURES and ALL VALUES under the two feature columns, and
    every later row has, under each column of the second table, the cell
    the second table has there.  [classification] tells which of the two
    reports is run. *)
Theorem the_overview_is_the_first_row (yname yhname : string) (raw : Type)
    (stratified_preprocess_prob :
       raw → option raw → option raw → option raw → option (list string)
       → result DataFrame)
    (stratified_preprocess :
       raw → option raw → option raw → option (list string) → result DataFrame)
    (y_cols : DataFrame → option string * option string * option string)
    (statistic : string → list (list cell) → outcome spec_float)
    (X : raw) (y_true y_pred y_prob : option raw) (features : option (list string))
    (classification : bool) (t : DataFrame) :
  (if classification
   then __classification_performance_report yname yhname raw
          stratified_preprocess_prob y_cols statistic
          X y_true y_pred y_prob features true
   else __regression_performance_report yname yhname raw
          stratified_preprocess y_cols statistic
          X y_true y_pred features true) = Ok t →
  ∃ t0,
    (if classification
     then __classification_performance_report yname yhname raw
            stratified_preprocess_prob y_cols statistic
            X y_true y_pred y_prob features false
     else __regression_performance_report yname yhname raw
            stratified_preprocess y_cols statistic
            X y_true y_pred features false) = Ok t0 ∧
    overview_first t t0.
Proof.
  intros Hd. destruct classification.
  - apply (performance_body_overview yname yhname raw y_cols) in Hd
      as (d0 & df & ? & _ & ? & _);
      [by eauto|apply classification_perf_rep_counts].
  - apply (performance_body_overview yname yhname raw y_cols) in Hd
      as (d0 & df & ? & _ & ? & _);
      [by eauto|apply regression_perf_rep_counts].
Qed.

(** X16: the overview counts every observation.  The [Obs.] cell of the
    first row of a performance report with the overview is the number of
    rows of the whole preprocessed table. *)
Theorem the_overview_counts_every_row (yname yhname : string) (raw : Type)
    (stratified_preprocess_prob :
       raw → option raw → option raw → option raw → option (list string)
       → result DataFrame)
    (stratified_preprocess :
       raw → option raw → option raw → option (list string) → result DataFrame)
    (y_cols : DataFrame → option string * option string * option string)
    (statistic : string → list (list cell) → outcome spec_float)
    (X : raw) (y_true y_pred y_prob : option raw) (features : option (list string))
    (classification : bool) (t : DataFrame) :
  (if classification
   then __classification_performance_report yname yhname raw
          stratified_preprocess_prob y_cols statistic
          X y_true y_pred y_prob features true
   else __regression_performance_report yname yhname raw
          stratified_preprocess y_cols statistic
          X y_true y_pred features true) = Ok t →
  ∃ df,
    (if classification
     then stratified_preprocess_prob X y_true y_pred y_prob features
     else stratified_preprocess X y_true y_pred features) = Ok df ∧
    cell_of t 0 "Obs." = Some (num (Z.of_nat (len df))).
Proof.
  intros Hd. destruct classification.
  - apply (performance_body_overview yname yhname raw y_cols) in Hd
      as (d0 & df & _ & ? & _ & _ & ? & _);
      [by eauto|apply classification_perf_rep_counts].
  - apply (performance_body_overview yname yhname raw y_cols) in Hd
      as (d0 & df & _ & ? & _ & _ & ? & _);
      [by eauto|apply regression_perf_rep_counts].
Qed.

(** A performance report of [region_table] in which every statistic is 1. *)
Definition one_statistic (key : string) (cols : list (list cell)) : outcome spec_float :=
  ([], Ok (Z2SF 1)).

Definition region_performance_of (add_overview : bool) : result DataFrame :=
  __classification_performance_report "Target" "Pred." unit
    (λ _ _ _ _ _, Ok region_table)
    (λ _, (Some "y", Some "yh", None)) one_statistic
    tt (Some tt) (Some tt) None None add_overview.

Definition region_performance : DataFrame :=
  mkDF (RangeIndex 3) [None]
    ["Feature Name"; "Feature Value"; "Obs."; "Target Mean"; "Pred. Mean";
     "Accuracy"; "FPR"; "Precision"; "TPR"]
    [[CStr "ALL FEATURES"; CStr "ALL VALUES"; num 10;
      num 1; num 1; num 1; num 1; num 1; num 1];
     [CStr "region"; CStr "north"; num 5; num 1; num 1; num 1; num 1; num 1; num 1];
     [CStr "region"; CStr "south"; num 5; num 1; num 1; num 1; num 1; num 1; num 1]].

Example region_performance_run : region_performance_of true = Ok region_performance.
Proof. vm_compute. reflexivity. Qed.

(** [performance_report] rounds the table; here the rounding is the
    identity. *)
Example region_performance_report :
  performance_report "Target" "Pred." unit
    (λ _ _ _ _ _, Ok region_table) (λ _ _ _ _, Ok region_table)
    (λ _, (Some "y", Some "yh", None)) one_statistic (λ _ x, x)
    tt (Some tt) (Some tt) None None "classification" (PInt 4) true
  = Ok region_performance.
Proof. vm_compute. reflexivity. Qed.

Lemma the_overview_is_the_first_row_witness :
  ∃ t0, region_performance_of false = Ok t0 ∧ overview_first region_performance t0.
Proof.
  apply (the_overview_is_the_first_row "Target" "Pred." unit
           (λ _ _ _ _ _, Ok region_table) (λ _ _ _ _, Ok region_table)
           (λ _, (Some "y", Some "yh", None)) one_statistic
           tt (Some tt) (Some tt) None None true region_performance).
  vm_compute. reflexivity.
Defined.

Lemma the_overview_counts_every_row_witness :
  ∃ df, Ok region_table = Ok df ∧
        cell_of region_performance 0 "Obs." = Some (num (Z.of_nat (len df))).
Proof.
  apply (the_overview_counts_every_row "Target" "Pred." unit
           (λ _ _ _ _ _, Ok region_table) (λ _ _ _ _, Ok region_table)
           (λ _, (Some "y", Some "yh", None)) one_statistic
           tt (Some tt) (Some tt) None None true region_performance).
  vm_compute. reflexivity.
Defined.

(** ** The rows of the features in a performance report *)

(** The three head cells of a row. *)
Definition head_cells (cols : list string) (r : list cell) : cell * cell * cell :=
  (row_get cols r "Feature Name", row_get cols r "Feature Value",
   row_get cols r "Obs.").

(** A row names a feature and a group of [df.groupby] of that feature, and
    holds the number of rows of the group. *)
Definition counts_group (df : DataFrame) (h : cell * cell * cell) : Prop :=
  ∃ f grp k x, groupby df f = Ok grp ∧ (k, x) ∈ grp ∧
               h = (CStr f, k, num (Z.of_nat (len x))).

Definition head_labels : list string := ["Feature Name"; "Feature Value"; "Obs."].

Definition counts_groups (df d : DataFrame) : Prop :=
  (∀ r, r ∈ values d → counts_group df (head_cells (columns d) r)) ∧
  (values d ≠ [] → ∀ c, c ∈ head_labels → c ∈ columns d).

Lemma row_get_missing cols r c : c ∉ cols → row_get cols r c = nan.
Proof.
  intros Hc. unfold row_get. destruct (col_pos c cols) as [j|] eqn:Hj; [|done].
  exfalso. apply Hc. apply col_pos_lookup in Hj. by eapply list_elem_of_lookup_2.
Qed.

Lemma elem_of_fold_union (frames : list DataFrame) acc c :
  c ∈ fold_left (λ acc d, union_cols acc (columns d)) frames acc
  ↔ c ∈ acc ∨ ∃ d, d ∈ frames ∧ c ∈ columns d.
Proof.
  revert acc. induction frames as [|d ds IH]; intros acc; cbn [fold_left].
  - split; [by left|]. intros [?|(d & []%elem_of_nil & _)]. done.
  - rewrite IH, elem_of_union_cols. split.
    + intros [[?|?]|(d' & ? & ?)]; [by left|right; exists d|right; exists d'];
        (split; [|done]); [by left|by right].
    + intros [?|(d' & [->|?]%elem_of_cons & ?)]; [tauto|tauto|].
      right. by exists d'.
Qed.

Lemma elem_of_fold_union_records (rs : list (cell * record)) acc c :
  c ∈ fold_left (λ acc kr, union_cols acc (map fst kr.2)) rs acc
  ↔ c ∈ acc ∨ ∃ kr, kr ∈ rs ∧ c ∈ map fst kr.2.
Proof.
  revert acc. induction rs as [|d ds IH]; intros acc; cbn [fold_left].
  - split; [by left|]. intros [?|(d & []%elem_of_nil & _)]. done.
  - rewrite IH, elem_of_union_cols. split.
    + intros [[?|?]|(d' & ? & ?)]; [by left|right; exists d|right; exists d'];
        (split; [|done]); [by left|by right].
    + intros [?|(d' & [->|?]%elem_of_cons & ?)]; [tauto|tauto|].
      right. by exists d'.
Qed.

Lemma concat_head_cells frames r' :
  r' ∈ values (concat frames) →
  ∃ d r, d ∈ frames ∧ r ∈ values d ∧
         head_cells (columns (concat frames)) r' = head_cells (columns d) r.
Proof.
  intros (d & r & Hd & Hr & ->)%concat_rows_inv. exists d, r.
  split; [done|]. split; [done|].
  assert (∀ c, row_get (columns (concat frames))
                 (map (row_get (columns d) r) (columns (concat frames))) c
               = row_get (columns d) r c) as Hget.
  { intros c. destruct (decide (c ∈ columns (concat frames))) as [Hc|Hc].
    - by apply row_get_map.
    - rewrite !row_get_missing; [done| |done].
      intros Hcd. apply Hc. unfold concat. cbn [columns].
      apply elem_of_fold_union. right. by exists d. }
  unfold head_cells. by rewrite !Hget.
Qed.

Lemma collect_counts_groups df frames :
  Forall (counts_groups df) frames → counts_groups df (collect frames).
Proof.
  intros Hall. destruct frames as [|d0 ds].
  - split; [by intros r ?%elem_of_nil|done].
  - change (collect (d0 :: ds)) with (concat (d0 :: ds)).
    rewrite Forall_forall in Hall. split.
    + intros r' (d & r & Hd & Hr & ->)%concat_head_cells.
      by apply (Hall d Hd).
    + intros Hne c Hc. unfold concat. cbn [columns].
      apply elem_of_fold_union. right.
      destruct (values (concat (d0 :: ds))) as [|r' rest] eqn:Hv; [done|].
      assert (r' ∈ values (concat (d0 :: ds))) as Hin by (rewrite Hv; by left).
      apply concat_rows_inv in Hin as (d & r & Hd & Hr & _).
      exists d. split; [done|]. apply (Hall d Hd); [|done].
      intros Hnil. rewrite Hnil in Hr. by apply elem_of_nil in Hr.
Qed.

Lemma sort_report_counts_groups yname yhname df (t t' : DataFrame) :
  NoDup (columns t) → sort_report yname yhname t = Ok t' →
  counts_groups df t → counts_groups df t' ∧ aligned t'.
Proof.
  intros Hnd Hs [Hrows Hlab].
  destruct (sort_report_by_name yname yhname t Hnd) as (js & cols & Ht' & Hjs & Hcols).
  rewrite Ht' in Hs. injection Hs as <-. split; [split|].
  - cbn [values columns]. intros r' (r & -> & Hr)%list_elem_of_fmap.
    assert (∀ c, row_get cols (reorder js r) c = row_get (columns t) r c) as Hget.
    { intros c. destruct (decide (c ∈ cols)) as [Hc|Hc].
      - by apply (row_get_reorder (columns t)).
      - rewrite !row_get_missing; [done| |done]. by intros ?%Hcols. }
    unfold head_cells. rewrite !Hget. by apply Hrows.
  - cbn [values columns]. intros Hne c Hc. apply Hcols, Hlab; [|done].
    intros Hnil. by rewrite Hnil in Hne.
  - apply Forall_forall. intros r (r0 & -> & _)%list_elem_of_fmap. cbn [columns].
    unfold reorder. rewrite length_map. symmetry. by eapply Forall2_length.
Qed.

Section featureGroups_counts.
Context {Args : Type}.
Variable func : DataFrame → Args → outcome record.
Variable args : Args.
Variable df : DataFrame.
Hypothesis func_counts : counts_rows func.

Lemma grp_apply_records grp w rs :
  grp_apply func args grp = (w, Ok rs) →
  Forall2 (λ kx kr, kr.1 = kx.1 ∧ ∃ w', func kx.2 args = (w', Ok kr.2)) grp rs.
Proof.
  revert w rs. induction grp as [|[k x] grp IH]; intros w rs; simpl.
  - intros [= <- <-]. constructor.
  - destruct (func x args) as [w1 [d|e]] eqn:Hf; [|discriminate].
    destruct (grp_apply func args grp) as [w2 [rs2|e]]; [|discriminate].
    intros [= <- <-]. constructor; [|by eapply IH]. split; [done|]. by eexists.
Qed.

Lemma feature_table_counts f grp w rs t :
  groupby df f = Ok grp → grp_apply func args grp = (w, Ok rs) →
  feature_table f (frame_of_groups f rs) = Ok t → counts_groups df t.
Proof.
  intros Hg Hrs. apply grp_apply_records in Hrs.
  unfold feature_table, reset_index. cbn [frame_of_groups index_names length imap].
  case_bool_decide as Hnew; [|discriminate]. rewrite Ok_bind.
  unfold insert_col. destruct (has_col _ _); [discriminate|]. intros [= <-].
  cbn [columns values rename take drop app level_name index frame_of_groups map].
  rewrite String.eqb_refl, zip_with_map_same, !map_map.
  set (cols := fold_left (λ acc kr, union_cols acc (map fst kr.2)) rs []) in *.
  apply Forall_inv in Hnew. cbn [level_name] in Hnew.
  assert (map (λ c, if (c =? f)%string then "Feature Value" else c) cols = cols)
    as ->.
  { rewrite <- (map_id cols) at 2. apply map_ext_in. intros c Hc%list_elem_of_In.
    destruct (String.eqb_spec c f) as [->|?]; [|done]. exfalso. by apply Hnew. }
  assert (∀ kr, kr ∈ rs →
            ∃ x, (kr.1, x) ∈ grp ∧ "Obs." ∈ cols ∧
                 dict_get "Obs." kr.2 = num (Z.of_nat (len x))) as Hrec.
  { intros kr Hkr. apply list_elem_of_lookup_1 in Hkr as [i Hi].
    destruct (Forall2_lookup_r _ _ _ _ _ Hrs Hi) as ([k x] & Hx & Hk & w' & Hf).
    cbn [fst snd] in Hk, Hf.
    destruct (func_counts _ _ _ _ Hf) as (_ & _ & _ & Hobs & Hcount).
    exists x. split; [|split; [|done]].
    - rewrite Hk. by eapply list_elem_of_lookup_2.
    - apply elem_of_fold_union_records. right. exists kr.
      split; [by eapply list_elem_of_lookup_2|done]. }
  split.
  - intros r (kr & -> & Hkr)%list_elem_of_fmap.
    destruct (Hrec kr Hkr) as (x & Hx & Hobs & Hcount).
    exists f, grp, kr.1, x. split; [done|]. split; [done|].
    cbn [columns drop map app]. unfold head_cells. rewrite !row_get_cons.
    cbn [String.eqb Ascii.eqb Bool.eqb].
    rewrite cell_of_label_of_cell. f_equal.
    rewrite row_get_map by done. exact Hcount.
  - intros Hne c Hc. destruct rs as [|kr rs']; [done|].
    destruct (Hrec kr) as (_ & _ & Hobs & _); [by left|].
    unfold head_labels in Hc.
    repeat (apply elem_of_cons in Hc as [->|Hc]);
      [by left|right; by left|by do 2 right|by apply elem_of_nil in Hc].
Qed.

Lemma body_counts st f st' :
  featureGroups_body func args df st f = Ok st' →
  Forall (counts_groups df) (res st) → Forall (counts_groups df) (res st').
Proof.
  intros Hbody Hall.
  destruct (try_feature func args df f) as [w [d|e]] eqn:Ht.
  - rewrite (body_passed _ _ _ _ _ _ _ Ht) in Hbody.
    apply bind_Ok in Hbody as (t & Htab & [= <-]). cbn [res].
    unfold try_feature in Ht.
    destruct (groupby df f) as [grp|] eqn:Hg; [|discriminate Ht].
    destruct (grp_apply func args grp) as [w' [rs|e]] eqn:Hrs; [|discriminate Ht].
    injection Ht as <- <-.
    apply Forall_app. split; [done|]. constructor; [|done].
    by eapply feature_table_counts.
  - rewrite (body_failed _ _ _ _ _ _ _ Ht) in Hbody. by injection Hbody as <-.
Qed.

Lemma foldM_counts features st st' :
  foldM (featureGroups_body func args df) st features = Ok st' →
  Forall (counts_groups df) (res st) → Forall (counts_groups df) (res st').
Proof.
  revert st. induction features as [|f l IH]; intros st; simpl.
  - by intros [= <-].
  - intros (st1 & H1 & H2)%bind_Ok Hall. eauto using body_counts.
Qed.

Lemma featureGroups_counts features results :
  format_errwarn (__apply_featureGroups func args features df) = Ok results →
  counts_groups df results ∧ NoDup (columns results).
Proof.
  unfold format_errwarn.
  destruct (__apply_featureGroups _ _ _ _) as [[[res0 er] wr]|] eqn:Happ;
    [|discriminate].
  intros [= <-]. cbn [fst]. unfold __apply_featureGroups in Happ.
  apply bind_Ok in Happ as (st & Hfold & [= <- _ _]).
  split; [|apply collect_columns_NoDup].
  apply collect_counts_groups. by eapply foldM_counts; [exact Hfold|constructor].
Qed.
End featureGroups_counts.

Section performance_counts.
Variables yname yhname : string.
Variable raw : Type.
Variable y_cols : DataFrame → option string * option string * option string.

Lemma performance_body_counts {Args} (rep : DataFrame → Args → outcome record)
    (mkargs : string → string → option string → Args)
    (pre : result DataFrame) (y_true y_pred : option raw) (t : DataFrame) :
  counts_rows rep →
  performance_report_body yname yhname raw y_cols rep mkargs pre y_true y_pred false
  = Ok t →
  ∃ df, pre = Ok df ∧ counts_groups df t ∧ aligned t.
Proof.
  intros Hrep. unfold performance_report_body.
  destruct y_true, y_pred; try discriminate.
  destruct pre as [df|e]; [|discriminate]. rewrite !Ok_bind.
  destruct (y_cols df) as [[[yt|] [yh|]] yp]; try discriminate.
  intros (results & Hres & H)%bind_Ok. rewrite Ok_bind in H.
  apply featureGroups_counts in Hres as [Hcount Hnd]; [|done].
  exists df. split; [done|]. by eapply sort_report_counts_groups.
Qed.
End performance_counts.

(** X17: what a row of a feature says.  Every row of a performance report
    without the overview names a feature and the key of a group of
    [df.groupby] of that feature over the preprocessed table, and its
    [Obs.] cell is the number of rows of that group.  [classification]
    tells which of the two reports is run. *)
Theorem a_row_counts_its_group (yname yhname : string) (raw : Type)
    (stratified_preprocess_prob :
       raw → option raw → option raw → option raw → option (list string)
       → result DataFrame)
    (stratified_preprocess :
       raw → option raw → option raw → option (list string) → result DataFrame)
    (y_cols : DataFrame → option string * option string * option string)
    (statistic : string → list (list cell) → outcome spec_float)
    (X : raw) (y_true y_pred y_prob : option raw) (features : option (list string))
    (classification : bool) (t : DataFrame) :
  (if classification
   then __classification_performance_report yname yhname raw
          stratified_preprocess_prob y_cols statistic
          X y_true y_pred y_prob features false
   else __regression_performance_report yname yhname raw
          stratified_preprocess y_cols statistic
          X y_true y_pred features false) = Ok t →
  ∃ df,
    (if classification
     then stratified_preprocess_prob X y_true y_pred y_prob features
     else stratified_preprocess X y_true y_pred features) = Ok df ∧
    ∀ r, r ∈ values t →
      ∃ f grp k x,
        groupby df f = Ok grp ∧ (k, x) ∈ grp ∧
        head_cells (columns t) r = (CStr f, k, num (Z.of_nat (len x))).
Proof.
  intros Hd. destruct classification.
  - apply (performance_body_counts yname yhname raw y_cols) in Hd
      as (df & ? & [Hrows _] & _); [|apply classification_perf_rep_counts].
    exists df. split; [done|]. exact Hrows.
  - apply (performance_body_counts yname yhname raw y_cols) in Hd
      as (df & ? & [Hrows _] & _); [|apply regression_perf_rep_counts].
    exists df. split; [done|]. exact Hrows.
Qed.

Definition region_strata : DataFrame :=
  mkDF (RangeIndex 2) [None]
    ["Feature Name"; "Feature Value"; "Obs."; "Target Mean"; "Pred. Mean";
     "Accuracy"; "FPR"; "Precision"; "TPR"]
    [[CStr "region"; CStr "north"; num 5; num 1; num 1; num 1; num 1; num 1; num 1];
     [CStr "region"; CStr "south"; num 5; num 1; num 1; num 1; num 1; num 1; num 1]].

Lemma a_row_counts_its_group_witness :
  ∃ df, Ok region_table = Ok df ∧
    ∀ r, r ∈ values region_strata →
      ∃ f grp k x,
        groupby df f = Ok grp ∧ (k, x) ∈ grp ∧
        head_cells (columns region_strata) r = (CStr f, k, num (Z.of_nat (len x))).
Proof.
  apply (a_row_counts_its_group "Target" "Pred." unit
           (λ _ _ _ _ _, Ok region_table) (λ _ _ _ _, Ok region_table)
           (λ _, (Some "y", Some "yh", None)) one_statistic
           tt (Some tt) (Some tt) None None true region_strata).
  vm_compute. reflexivity.
Defined.
